(** * TruthDare: the interaction server and the paranoia answer flow

    A shallow embedding of [src/classes/Functions.ts], [src/classes/Client.ts],
    [src/classes/Server.ts] and of the commands [answer], [dare] and [tod]
    of [src/commands], and the properties of the dispatch pipeline proved
    over it.

    Conventions of the embedding.
    - A [bigint] is a [Z]; [&], [|] and [~] are [Z.land], [Z.lor] and
      [Z.lnot] (two's complement on unbounded integers, as in JavaScript).
    - A counter of [Client.stats] is a [Z] (a JavaScript number holding an
      integer); the running average is a [Q]: the expression assigned to it
      is that of the source, evaluated exactly where the source rounds to a
      double, and no property below relies on the laws of exact
      arithmetic.
    - An [async] function is a computation of the monad [M]: it reads and
      writes the [World] and either returns or throws.  What the process
      does to the outside (replies, messages, log lines, reports, queries)
      is appended to [w_log] in program order.
    - What the outside answers (the chat platform, the random generator, the
      question store) is read from [w_env]; each answer may depend on
      everything logged so far.
    - A string is a list of 8-bit characters.  On an ASCII string
      ([isASCII]: every character is below 128) a character is one UTF-16
      unit, so that [String.length], [slice0] and the case maps are those
      of JavaScript.  A theorem whose statement depends on the case or on
      the length of a string that comes from a caller is stated for ASCII
      strings. *)

From stdpp Require Import base option list gmap strings.
From Stdlib Require Import Ascii ZArith QArith Lia.

Local Open Scope string_scope.
Local Open Scope list_scope.
Local Open Scope Z_scope.

(** ** JavaScript values used by the sources *)

Module JS.

(** A thrown value. *)
Inductive Error :=
| TypeError (msg : string)
| HTTPError (msg : string)
| OtherError (msg : string).

(** The completion of a call: a value or an exception. *)
Inductive Outcome (A : Type) :=
| Returned (a : A)
| Threw (e : Error).
Arguments Returned {A} a.
Arguments Threw {A} e.

(** Truthiness of a string ([''] is falsy) and of a [string | undefined]. *)
Definition truthy_string (s : string) : bool :=
  match s with EmptyString => false | String _ _ => true end.

Definition truthy (o : option string) : bool :=
  match o with Some s => truthy_string s | None => false end.

Definition is_lower (a : ascii) : bool :=
  let n := Ascii.nat_of_ascii a in (97 <=? n)%nat && (n <=? 122)%nat.

Definition is_upper (a : ascii) : bool :=
  let n := Ascii.nat_of_ascii a in (65 <=? n)%nat && (n <=? 90)%nat.

Definition upper_ascii (a : ascii) : ascii :=
  if is_lower a then Ascii.ascii_of_nat (Ascii.nat_of_ascii a - 32) else a.

(** The strings on which a character of the model is a UTF-16 unit of
    JavaScript. *)
Fixpoint isASCII (s : string) : bool :=
  match s with
  | EmptyString => true
  | String a r => (Ascii.nat_of_ascii a <? 128)%nat && isASCII r
  end.

(** [String.prototype.toUpperCase] on an ASCII string ([isASCII]): the
    letters [a] to [z] are mapped and every other character is left as it
    is.  Outside ASCII the method of JavaScript maps more characters than
    this function does. *)
Fixpoint toUpperCase (s : string) : string :=
  match s with
  | EmptyString => EmptyString
  | String a r => String (upper_ascii a) (toUpperCase r)
  end.

(** [Array.prototype.join]. *)
Fixpoint join (sep : string) (l : list string) : string :=
  match l with
  | [] => ""
  | [x] => x
  | x :: r => x +:+ sep +:+ join sep r
  end.

(** [s.replaceAll(/([a-z])([A-Z])/g, '$1 $2')]: a space goes between a
    lower-case letter and the upper-case letter that follows it.  A match
    ends on an upper-case letter and the next one starts on a lower-case
    letter, so no two matches compete for a character. *)
Fixpoint spaceCapitals (s : string) : string :=
  match s with
  | EmptyString => EmptyString
  | String a r =>
      match r with
      | String b _ =>
          if is_lower a && is_upper b
          then String a (String " " (spaceCapitals r))
          else String a (spaceCapitals r)
      | EmptyString => String a EmptyString
      end
  end.

(** [s.slice(0, n)], on the characters of the model: the UTF-16 units of
    an ASCII string. *)
Definition slice0 (n : nat) (s : string) : string := String.substring 0 n s.

Definition startsWith (p s : string) : bool := String.prefix p s.

(** [sub] occurs in [s]. *)
Definition occurs (sub s : string) : Prop :=
  ∃ before after, s = before +:+ sub +:+ after.

(** [s.replace(pattern, '')] for a string pattern: the first occurrence
    goes. *)
Fixpoint removeFirst (pattern s : string) : string :=
  if String.prefix pattern s
  then String.substring (String.length pattern)
         (String.length s - String.length pattern) s
  else match s with
       | EmptyString => EmptyString
       | String a r => String a (removeFirst pattern r)
       end.

(** [Number(s) % 5] printed in a template, for [s] a string of decimal
    digits (a discriminator); any other string gives [NaN]. *)
Definition digit (a : ascii) : option Z :=
  let n := Ascii.nat_of_ascii a in
  if (48 <=? n)%nat && (n <=? 57)%nat then Some (Z.of_nat n - 48) else None.

Fixpoint digits_mod5 (acc : Z) (s : string) : option Z :=
  match s with
  | EmptyString => Some acc
  | String a r =>
      match digit a with
      | Some d => digits_mod5 ((acc * 10 + d) mod 5) r
      | None => None
      end
  end.

Definition show_digit (z : Z) : string :=
  String (Ascii.ascii_of_nat (Z.to_nat (48 + z))) EmptyString.

Definition number_mod5 (s : string) : string :=
  match digits_mod5 0 s with
  | Some r => show_digit r
  | None => "NaN"
  end.

End JS.
Export JS.


(** ** Data of the platform and of the bot *)

Record User := {
  u_id : string;
  u_username : string;
  u_discriminator : string;
  u_avatar : option string;
}.

(** [ctx.member]; [m_permissions] is [BigInt(ctx.member.permissions)], the
    number the platform's decimal string denotes. *)
Record Member := { m_permissions : Z }.

Record ChannelSettings := {
  muted : bool;
  disabledRatings : list string;
}.

Inductive OptionValue :=
| VString (s : string)
| VNumber (z : Z)
| VBoolean (b : bool).

Record CommandOption := { o_name : string; o_value : OptionValue }.

Record EmbedAuthor := { a_name : string; a_icon_url : string }.

Record EmbedField := { f_name : string; f_value : string }.

Record Embed := {
  e_author : option EmbedAuthor;
  e_title : option string;
  e_description : option string;
  e_color : option Z;
  e_fields : list EmbedField;
  e_footer : option string;
}.

(** The argument of [ctx.reply]: a string is a payload with only a content. *)
Record ReplyData := {
  r_content : option string;
  r_embeds : list Embed;
  r_flags : option Z;
}.

Definition reply_text (s : string) : ReplyData :=
  {| r_content := Some s; r_embeds := []; r_flags := None |}.

Record Message := { msg_id : string }.

Record Guild := { g_name : string }.

Record Question := {
  q_id : string;
  q_type : string;
  q_rating : string;
  q_question : string;
}.

(** A row of the paranoia queue, with the fields [answer.ts] reads. *)
Record ParanoiaEntry := {
  p_id : string;
  p_userId : string;
  p_guildId : string;
  p_channelId : string;
  p_questionText : string;
  p_questionRating : string;
  p_questionId : string;
  p_dmMessageId : option string;
}.

(** The interaction as a command sees it ([CommandContext]). *)
Record Context := {
  ctx_user : User;
  ctx_guildId : option string;
  ctx_channelId : string;
  ctx_member : option Member;
  ctx_command_name : string;
  ctx_options : list CommandOption;
  ctx_channelSettings : ChannelSettings;
}.

(** ** [Client.stats] *)

Module Stats.

(** The value of a counter held in an object: a number, or [NaN] once [++]
    has met a key that was never set. *)
Inductive number :=
| Num (z : Z)
| NaN.

Record t := {
  minuteCommandCount : Z;
  perMinuteCommandAverage : Q;
  minutesPassed : Z;
  commands : gmap string number;
  minuteCommands : gmap string number;
}.

(** [obj[key]++] *)
Definition increment (key : string) (obj : gmap string number)
    : gmap string number :=
  <[key := match obj !! key with
           | Some (Num z) => Num (z + 1)
           | Some NaN | None => NaN
           end]> obj.

(** The block "Statistics" of [Server.handleCommand]:
    [minuteCommandCount++; commands[name]++; minuteCommands[name]++]. *)
Definition statistics (name : string) (s : t) : t :=
  {| minuteCommandCount := minuteCommandCount s + 1;
     perMinuteCommandAverage := perMinuteCommandAverage s;
     minutesPassed := minutesPassed s;
     commands := increment name (commands s);
     minuteCommands := increment name (minuteCommands s) |}.

End Stats.

(** The extras of an error report, [scope.setExtras({...})]. *)
Record SentryExtras := {
  x_user : string;
  x_command : string;
  x_args : string;
  x_channelId : string;
}.

(** What the process does to the outside, in program order. *)
Inductive Event :=
| EReply (data : ReplyData)
| EConsoleError (msg : string)
| EConsoleErrorThrown (err : Error)
| EConsoleWarn (msg : string)
| ESentryCapture (extras : SentryExtras) (err : Error)
| ETrackCommandUse (name : string) (success : bool)
| ETrackAPIRequest (type rating : string)
| ESendMessage (data : Embed) (channelId : string)
| EEditMessage (data : Embed) (channelId : string) (messageId : option string)
| EFetchGuild (guildId : string)
| EGetNextParanoia (userId : string)
| ERemoveParanoiaQuestion (id : string)
| ESetParanoiaMessageId (id : string) (messageId : string)
| EGetRandomQuestion (type : string) (disabled : list string)
| EPostToStatcord (minuteCommandCount : Z)
    (minuteCommands : gmap string Stats.number).

(** What the outside answers.  [sendMessage] and [editMessage] of
    [Functions.ts] resolve to the response body (possibly none) or reject;
    [fetchGuild] turns a rejection into [null]. *)
Record Env := {
  net_sendMessage : list Event → Embed → string → Outcome (option Message);
  net_editMessage :
    list Event → Embed → string → option string → Outcome (option Message);
  net_fetchGuild : list Event → string → option Guild;
  math_random : list Event → Q;
  db_getRandomQuestion : list Event → string → list string → Outcome Question;
}.

(** ** The rate limiter configured in [Server.ts] *)

Module RateLimit.

(** The options [Server.ts] passes to [rateLimiter]. *)
Record Options := {
  windowMs : Z;
  max : Z;
  skipFailedRequests : bool;
}.

(** The record kept per identity. *)
Record RateWindow := {
  count : Z;
  windowStart : Z;
}.

(** Modelled from the spec: the counter of the [rateLimiter] middleware,
    which comes from the package [express-rate-limit] and is not under
    [src/].  On a request at time [now] of the identity [key]: with no
    window, or with the window elapsed, a new window starts with count 1
    and the request is admitted; otherwise the count goes up by one and the
    request is admitted when the count does not exceed [max]. *)
Definition hit (o : Options) (now : Z) (key : string)
    (store : gmap string RateWindow) : gmap string RateWindow * bool :=
  match store !! key with
  | Some w =>
      if now <? windowStart w + windowMs o
      then
        let c := count w + 1 in
        (<[key := {| count := c; windowStart := windowStart w |}]> store,
         c <=? max o)
      else (<[key := {| count := 1; windowStart := now |}]> store, true)
  | None => (<[key := {| count := 1; windowStart := now |}]> store, true)
  end.

(** Taking a hit back. *)
Definition decrement (key : string) (store : gmap string RateWindow)
    : gmap string RateWindow :=
  match store !! key with
  | Some w =>
      if 0 <? count w
      then <[key := {| count := count w - 1; windowStart := windowStart w |}]> store
      else store
  | None => store
  end.

(** The end of a response under the option [skipFailedRequests] of the
    package, which [Server.ts] sets.  With the option set, a failed request
    (a response status of 400 or more) is not counted: the middleware takes
    its hit back when the response has ended.  With the option unset every
    request stays counted, which is the counter the spec describes. *)
Definition finish (o : Options) (key : string) (status : Z)
    (store : gmap string RateWindow) : gmap string RateWindow :=
  if skipFailedRequests o && (400 <=? status) then decrement key store
  else store.

(** One request through the limiter: the hit, then the end of the
    response.  [status] is the status the application answers with when
    the request is admitted, [rejected] the status of the limiter's own
    answer when it is not. *)
Definition request (o : Options) (rejected : Z) (key : string)
    (store : gmap string RateWindow) (r : Z * Z)
    : gmap string RateWindow * bool :=
  let '(now, status) := r in
  let '(store, admitted) := hit o now key store in
  (finish o key (if admitted then status else rejected) store, admitted).


End RateLimit.

(** ** The state of the process and the monad of [async] functions *)

Record World := {
  w_stats : Stats.t;
  w_paranoia : list ParanoiaEntry;
  w_rateLimit : gmap string RateLimit.RateWindow;
  w_log : list Event;
  w_env : Env;
}.

Definition set_stats (s : Stats.t) (w : World) : World :=
  {| w_stats := s; w_paranoia := w_paranoia w; w_rateLimit := w_rateLimit w;
     w_log := w_log w; w_env := w_env w |}.

Definition set_paranoia (q : list ParanoiaEntry) (w : World) : World :=
  {| w_stats := w_stats w; w_paranoia := q; w_rateLimit := w_rateLimit w;
     w_log := w_log w; w_env := w_env w |}.

Definition set_rateLimit (r : gmap string RateLimit.RateWindow) (w : World)
    : World :=
  {| w_stats := w_stats w; w_paranoia := w_paranoia w; w_rateLimit := r;
     w_log := w_log w; w_env := w_env w |}.

Definition log_event (e : Event) (w : World) : World :=
  {| w_stats := w_stats w; w_paranoia := w_paranoia w;
     w_rateLimit := w_rateLimit w; w_log := w_log w ++ [e];
     w_env := w_env w |}.

Definition M (A : Type) : Type := World → Outcome A * World.

Definition ret {A} (a : A) : M A := λ w, (Returned a, w).

Definition throw {A} (e : Error) : M A := λ w, (Threw e, w).

Definition bind {A B} (c : M A) (k : A → M B) : M B :=
  λ w, match c w with
       | (Returned a, w') => k a w'
       | (Threw e, w') => (Threw e, w')
       end.

(** [try { c } catch (err) { h err }] *)
Definition try_catch {A} (c : M A) (h : Error → M A) : M A :=
  λ w, match c w with
       | (Returned a, w') => (Returned a, w')
       | (Threw e, w') => h e w'
       end.

Definition emit (e : Event) : M unit := λ w, (Returned tt, log_event e w).

(** [ctx.reply(data)].  The classes [Context] and [CommandContext] are not
    under [src/]: the payload is the response to the interaction; here it
    is logged and the call returns. *)
Definition reply (data : ReplyData) : M unit := emit (EReply data).

Definition get_stats : M Stats.t := λ w, (Returned (w_stats w), w).

Definition put_stats (s : Stats.t) : M unit :=
  λ w, (Returned tt, set_stats s w).

Declare Scope js_scope.
Delimit Scope js_scope with js.
Notation "'let*' x ':=' c 'in' k" := (bind c (λ x, k))
  (at level 10, x name, c at level 100, k at level 200) : js_scope.
Notation "c '>>' k" := (bind c (λ _, k))
  (at level 100, k at level 200, right associativity) : js_scope.
Local Open Scope js_scope.

(** ** [Client.ts]: constants, the counters and the one-minute task *)

Module Client.

Definition COLORS_GREEN : Z := 0x57f287.
Definition COLORS_RED : Z := 0xed4245.
Definition COLORS_BLUE : Z := 0x3498db.

Definition EMOTES_checkmark : string := ":white_check_mark:".
Definition EMOTES_xmark : string := ":x:".

(** [this.stats] as the constructor leaves it. *)
Definition initial_stats : Stats.t :=
  {| Stats.minuteCommandCount := 0;
     Stats.perMinuteCommandAverage := 0%Q;
     Stats.minutesPassed := 0;
     Stats.commands := ∅;
     Stats.minuteCommands := ∅ |}.

(** The loop of [start] over the names of the loaded commands. *)
Definition start_stats (names : list string) (s : Stats.t) : Stats.t :=
  foldl (λ s name,
           {| Stats.minuteCommandCount := Stats.minuteCommandCount s;
              Stats.perMinuteCommandAverage := Stats.perMinuteCommandAverage s;
              Stats.minutesPassed := Stats.minutesPassed s;
              Stats.commands := <[name := Stats.Num 0]> (Stats.commands s);
              Stats.minuteCommands :=
                <[name := Stats.Num 0]> (Stats.minuteCommands s) |})
        s names.

(** The body of the [setInterval] callback on the counters.  The left
    operand of [/] is evaluated before [++this.stats.minutesPassed], so it
    reads the old number of minutes; the divisor is the new one. *)
Definition flush (s : Stats.t) : Stats.t :=
  let average :=
    ((Stats.perMinuteCommandAverage s * inject_Z (Stats.minutesPassed s)
      + inject_Z (Stats.minuteCommandCount s))
     / inject_Z (Stats.minutesPassed s + 1))%Q in
  {| Stats.minuteCommandCount := 0;
     Stats.perMinuteCommandAverage := average;
     Stats.minutesPassed := Stats.minutesPassed s + 1;
     Stats.commands := Stats.commands s;
     Stats.minuteCommands := (λ _, Stats.Num 0) <$> Stats.minuteCommands s |}.

(** The callback itself: between the new average and the resets it posts
    the counters of the minute when [postStats] holds, which stands for
    [!this.devMode && process.env.STATCORD_KEY]. *)
Definition interval (postStats : bool) : M unit :=
  let* s := get_stats in
  (if postStats
   then emit (EPostToStatcord (Stats.minuteCommandCount s)
                (Stats.minuteCommands s))
   else ret tt) >>
  put_stats (flush s).

(** A history of the counters: confirmed dispatches of named commands and
    runs of the one-minute task. *)
Inductive Step :=
| Dispatched (name : string)
| Minute.

Global Instance Step_eq_dec : EqDecision Step.
Proof. solve_decision. Defined.

Definition step (s : Stats.t) (e : Step) : Stats.t :=
  match e with
  | Dispatched name => Stats.statistics name s
  | Minute => flush s
  end.

Definition replay (history : list Step) (s : Stats.t) : Stats.t :=
  foldl step s history.

(** How many times a command was dispatched in a history. *)
Definition dispatches (name : string) (history : list Step) : Z :=
  Z.of_nat (length (filter (λ e, e = Dispatched name) history)).

End Client.

(** ** [Command.ts]: a command descriptor *)

(** A required permission: a bit mask, or the name of a flag of
    [PermissionFlagsBits]. *)
Inductive Permission :=
| PermBits (bits : Z)
| PermKey (key : string).

Module Command.

Record t := {
  name : string;
  perms : list Permission;
  run : Context → M unit;
}.

End Command.

(** ** [Functions.ts] *)

Module Functions.

Definition avatarURL (user : User) : string :=
  "https://cdn.discordapp.com/" +:+
  (match u_avatar user with
   | Some (String a r as avatar) =>
       "avatars/" +:+ u_id user +:+ "/" +:+ avatar +:+ "." +:+
       (if startsWith "_a" avatar then "gif" else "png")
   | Some EmptyString | None =>
       "/embed/avatars/" +:+ number_mod5 (u_discriminator user) +:+ ".png"
   end).

(** [embed(description, user, fail)]; [fail] is [None] for [null]. *)
Definition embed (description : string) (user : option User)
    (fail : option bool) : Embed :=
  {| e_description :=
       Some ((match fail with
              | Some true => Client.EMOTES_xmark
              | Some false => Client.EMOTES_checkmark
              | None => ""
              end) +:+ " " +:+ description);
     e_author :=
       (λ u, {| a_name := u_username u +:+ "#" +:+ u_discriminator u;
                a_icon_url := avatarURL u |}) <$> user;
     e_color :=
       Some (match fail with
             | Some true => Client.COLORS_RED
             | None => Client.COLORS_BLUE
             | Some false => Client.COLORS_GREEN
             end);
     e_title := None;
     e_fields := [];
     e_footer := None |}.

Section PermissionGate.

(** The table [PermissionFlagsBits] of [discord-api-types], in the order of
    its keys. *)
Variable PermissionFlagsBits : list (string * Z).

(** [PermissionFlagsBits[key]] *)
Definition flag (key : string) : option Z :=
  snd <$> List.find (λ kv, bool_decide (kv.1 = key)) PermissionFlagsBits.

(** [typeof perm === 'bigint' ? perm : PermissionFlagsBits[perm]] *)
Definition permBits (perm : Permission) : option Z :=
  match perm with
  | PermBits bits => Some bits
  | PermKey key => flag key
  end.

(** [command.perms.map(...).reduce((a, c) => a | c, 0n)]; there is no
    result when a key names no flag, since [|] of a bigint and
    [undefined] throws. *)
Definition requiredBits (perms : list Permission) : option Z :=
  foldl Z.lor 0 <$> mapM permBits perms.

(** [required & ~granted] *)
Definition missingBits (required granted : Z) : Z :=
  Z.land required (Z.lnot granted).

(** [Object.keys(PermissionFlagsBits).filter(key =>
      PermissionFlagsBits[key] & missing)] *)
Definition missingNames (missing : Z) : list string :=
  (filter (λ kv, Z.land kv.2 missing ≠ 0) PermissionFlagsBits).*1.

Definition missingMessage (names : list string) : string :=
  "You are missing the following required permissions: " +:+
  join ", " ((λ p, "`" +:+ spaceCapitals p +:+ "`") <$> names).

Definition missingReply (names : list string) (user : User) : ReplyData :=
  {| r_content := None;
     r_embeds := [embed (missingMessage names) (Some user) (Some true)];
     r_flags := Some (Z.shiftl 1 6) |}.

Definition checkPerms (command : Command.t) (ctx : Context) : M bool :=
  match ctx_member ctx with
  | None => ret true
  | Some member =>
      match requiredBits (Command.perms command) with
      | None =>
          throw (TypeError "Cannot mix BigInt and other types")
      | Some required =>
          let missing := missingBits required (m_permissions member) in
          let names := missingNames missing in
          if bool_decide (missing ≠ 0)
          then
            reply (missingReply names (ctx_user ctx)) >>
            ret false
          else ret true
      end
  end.

(** [hasPermission(permission, permissions)]; [permissions] is [None] for
    an absent or empty string and else the number [BigInt] reads from it.
    [None] as a result stands for the exception of [~] on [undefined]. *)
Definition hasPermission (permission : Permission) (permissions : option Z)
    : option bool :=
  match permissions with
  | None => Some true
  | Some granted =>
      required ← permBits permission;
      Some (bool_decide (missingBits required granted = 0))
  end.

(** Every flag of the table is one bit, [1n << k]. *)
Definition single_bits : Prop :=
  ∀ key v, (key, v) ∈ PermissionFlagsBits → ∃ k, 0 ≤ k ∧ v = Z.shiftl 1 k.

End PermissionGate.

(** [sendMessage(data, channelId, token)]: the body of the response, or the
    rejection of the request. *)
Definition sendMessage (data : Embed) (channelId : string)
    : M (option Message) :=
  λ w, (net_sendMessage (w_env w) (w_log w) data channelId,
        log_event (ESendMessage data channelId) w).

Definition editMessage (data : Embed) (channelId : string)
    (messageId : option string) : M (option Message) :=
  λ w, (net_editMessage (w_env w) (w_log w) data channelId messageId,
        log_event (EEditMessage data channelId messageId) w).

(** [fetchGuild(guildId, token)]: a rejection is caught and gives [null]. *)
Definition fetchGuild (guildId : string) : M (option Guild) :=
  λ w, (Returned (net_fetchGuild (w_env w) (w_log w) guildId),
        log_event (EFetchGuild guildId) w).

End Functions.

(** ** The paranoia queue and the question store *)

Module Database.

(** The oldest entry of a recipient in a queue kept in creation order. *)
Definition head (userId : string) (queue : list ParanoiaEntry)
    : option ParanoiaEntry :=
  List.find (λ e, bool_decide (p_userId e = userId)) queue.

Definition attach (id messageId : string) (e : ParanoiaEntry)
    : ParanoiaEntry :=
  if bool_decide (p_id e = id)
  then {| p_id := p_id e; p_userId := p_userId e; p_guildId := p_guildId e;
          p_channelId := p_channelId e; p_questionText := p_questionText e;
          p_questionRating := p_questionRating e;
          p_questionId := p_questionId e; p_dmMessageId := Some messageId |}
  else e.

(** Modelled from the spec: [Database.ts] is not under [src/].  The queue
    of section 4.5 is a collection of entries ordered by creation time;
    [getNextParanoia] is the operation [head(recipient)], the oldest entry
    of that recipient or none. *)
Definition getNextParanoia (userId : string) : M (option ParanoiaEntry) :=
  λ w, (Returned (head userId (w_paranoia w)),
        log_event (EGetNextParanoia userId) w).

(** Modelled from the spec: [removeParanoiaQuestion] of [Database.ts] (not
    under [src/]) is the removal of the answered entry, named by its
    identifier. *)
Definition removeParanoiaQuestion (id : string) : M unit :=
  λ w, (Returned tt,
        log_event (ERemoveParanoiaQuestion id)
          (set_paranoia (filter (λ e, p_id e ≠ id) (w_paranoia w)) w)).

(** Modelled from the spec: [setParanoiaMessageId] of [Database.ts] (not
    under [src/]) is [attach_delivery(entry, messageId)]: it records the
    identifier of the delivered notification on the entry. *)
Definition setParanoiaMessageId (id messageId : string) : M unit :=
  λ w, (Returned tt,
        log_event (ESetParanoiaMessageId id messageId)
          (set_paranoia (attach id messageId <$> w_paranoia w) w)).

(** [getRandomQuestion(type, disabledRatings)] of [Database.ts] (not under
    [src/]): the random selection is the store's; its answer is read from
    the environment. *)
Definition getRandomQuestion (type : string) (disabledRatings : list string)
    : M Question :=
  λ w, (db_getRandomQuestion (w_env w) (w_log w) type disabledRatings,
        log_event (EGetRandomQuestion type disabledRatings) w).

End Database.

(** ** [commands/answer.ts] *)

Module Answer.

(** [ctx.getOption(name)] *)
Definition getOption (name : string) (ctx : Context) : option CommandOption :=
  List.find (λ o, bool_decide (o_name o = name)) (ctx_options ctx).

(** [Math.random()] *)
Definition Math_random : M Q :=
  λ w, (Returned (math_random (w_env w) (w_log w)), w).

Definition console_warn (msg : string) : M unit := emit (EConsoleWarn msg).

Definition console_error (msg : string) : M unit := emit (EConsoleError msg).

(** A [string | null] inside a template. *)
Definition show_nullable (o : option string) : string :=
  match o with Some s => s | None => "null" end.

Definition footer (e : ParanoiaEntry) : string :=
  "Type: PARANOIA | Rating: " +:+ p_questionRating e +:+ " | ID: " +:+
  p_questionId e.

(** The embed relayed to the channel the question came from. *)
Definition relayEmbed (user : User) (random : Q) (paranoiaData : ParanoiaEntry)
    (paranoiaAnswer : string) : Embed :=
  {| e_author :=
       Some {| a_name := u_username user +:+ "#" +:+ u_discriminator user;
               a_icon_url := Functions.avatarURL user |};
     e_title := Some "Paranoia Answer";
     e_color := Some Client.COLORS_BLUE;
     e_description := None;
     e_fields :=
       [ {| f_name := "Question:";
            f_value :=
              if Qlt_le_dec random (1 # 2)
              then p_questionText paranoiaData
              else "The user got lucky, question wasn't shared." |};
         {| f_name := u_username user +:+ "'s Answer:";
            f_value :=
              slice0 1021 paranoiaAnswer +:+
              (if (1021 <? String.length paranoiaAnswer)%nat
               then "..." else "") |} ];
     e_footer := None |}.

Definition failedNotice (user : User) (paranoiaData : ParanoiaEntry) : Embed :=
  Functions.embed
    ("Message failed to send, please make sure I can send messages in <#"
     +:+ p_channelId paranoiaData +:+ "> and then try again.")
    (Some user) (Some true).

Definition answeredEmbed (paranoiaData : ParanoiaEntry) : Embed :=
  {| e_author := None;
     e_title := Some ("Question answered: " +:+ p_questionText paranoiaData);
     e_color := Some Client.COLORS_GREEN;
     e_description :=
       Some ("Check it out in <#" +:+ p_channelId paranoiaData +:+ ">");
     e_fields := [];
     e_footer := Some (footer paranoiaData) |}.

Definition nextEmbed (guild : Guild) (nextQuestion : ParanoiaEntry) : Embed :=
  {| e_author := None;
     e_title := Some (p_questionText nextQuestion);
     e_color := Some Client.COLORS_BLUE;
     e_description :=
       Some ("Use `/answer` to answer this question." +:+
             String "010" (String "010" "Question sent from **") +:+
             (if truthy_string (g_name guild) then g_name guild
              else "Unknown Guild (" +:+ p_guildId nextQuestion +:+ ")")
             +:+ "** <#" +:+ p_channelId nextQuestion +:+ ">.");
     e_fields := [];
     e_footer := Some (footer nextQuestion) |}.

Definition noGuildReply : ReplyData :=
  reply_text
    (Client.EMOTES_xmark +:+ " Paranoia questions can only be answered in DMs.").

Definition noActiveReply : ReplyData :=
  reply_text
    (Client.EMOTES_xmark +:+ " You don't have any active paranoia questions.").

Definition answerSentReply : ReplyData :=
  reply_text (Client.EMOTES_checkmark +:+ " Answer sent!").

(** The part of [run] after the answered entry has been removed and
    acknowledged: "fetch the next queued question, if there is one". *)
Definition deliverNext (ctx : Context) : M unit :=
  let* nextQuestion := Database.getNextParanoia (u_id (ctx_user ctx)) in
  match nextQuestion with
  | None => ret tt
  | Some nextQuestion =>
      let* guild := Functions.fetchGuild (p_guildId nextQuestion) in
      match guild with
      | None =>
          console_warn ("Failed to fetch guild: " +:+ p_guildId nextQuestion) >>
          throw (TypeError "Cannot read properties of null (reading 'name')")
      | Some guild =>
          let* nextMessage :=
            Functions.sendMessage (nextEmbed guild nextQuestion)
              (ctx_channelId ctx) in
          match nextMessage with
          | None =>
              console_error
                ("Paranoia next question failed in channel: " +:+
                 ctx_channelId ctx +:+ " with user: " +:+ u_id (ctx_user ctx))
          | Some nextMessage =>
              Database.setParanoiaMessageId (p_id nextQuestion)
                (msg_id nextMessage)
          end
      end
  end.

Definition run (ctx : Context) : M unit :=
  let paranoiaAnswer := o_value <$> getOption "answer" ctx in
  if truthy (ctx_guildId ctx) then reply noGuildReply
  else
    let* paranoiaData := Database.getNextParanoia (u_id (ctx_user ctx)) in
    match paranoiaData with
    | None => reply noActiveReply
    | Some paranoiaData =>
        let* random := Math_random in
        match paranoiaAnswer with
        | Some (VString paranoiaAnswer) =>
            let* message :=
              Functions.sendMessage
                (relayEmbed (ctx_user ctx) random paranoiaData paranoiaAnswer)
                (p_channelId paranoiaData) in
            match message with
            | None =>
                reply
                  {| r_content := None;
                     r_embeds := [failedNotice (ctx_user ctx) paranoiaData];
                     r_flags := None |}
            | Some _ =>
                let* editedMessage :=
                  Functions.editMessage (answeredEmbed paranoiaData)
                    (ctx_channelId ctx) (p_dmMessageId paranoiaData) in
                (match editedMessage with
                 | None =>
                     console_warn
                       ("Paranoia message edit failed in channel: " +:+
                        ctx_channelId ctx +:+ " with user: " +:+
                        u_id (ctx_user ctx) +:+ " on message: " +:+
                        show_nullable (p_dmMessageId paranoiaData))
                 | Some _ => ret tt
                 end) >>
                Database.removeParanoiaQuestion (p_id paranoiaData) >>
                reply answerSentReply >>
                deliverNext ctx
            end
        | Some (VNumber _) | Some (VBoolean _) =>
            throw (TypeError "paranoiaAnswer.slice is not a function")
        | None =>
            throw (TypeError "Cannot read properties of undefined (reading 'slice')")
        end
    end.

Definition answer : Command.t :=
  {| Command.name := "answer"; Command.perms := []; Command.run := run |}.

(** The events that read the head of a queue or remove an entry, and the
    events that touch the queue at all. *)
Definition headAccess (e : Event) : bool :=
  match e with
  | EGetNextParanoia _ | ERemoveParanoiaQuestion _ => true
  | _ => false
  end.

Definition queueAccess (e : Event) : bool :=
  match e with
  | EGetNextParanoia _ | ERemoveParanoiaQuestion _
  | ESetParanoiaMessageId _ _ => true
  | _ => false
  end.

(** The events that send or edit a message on the platform. *)
Definition platformCall (e : Event) : bool :=
  match e with
  | ESendMessage _ _ | EEditMessage _ _ _ | EFetchGuild _ => true
  | _ => false
  end.

End Answer.

(** ** [Server.ts] *)

Module Server.

Inductive InteractionType :=
| Ping
| ApplicationCommand
| MessageComponent
| ApplicationCommandAutocomplete.

Inductive ApplicationCommandType :=
| ChatInput
| UserCommand
| MessageCommand.

Inductive ComponentType :=
| ActionRow
| Button
| SelectMenu.

Inductive InteractionData :=
| CommandData (type : ApplicationCommandType)
| ComponentData (component_type : ComponentType)
| NoData.

(** The body of a webhook request; [i_ctx] holds what [CommandContext] and
    [ButtonContext] read from it. *)
Record Interaction := {
  i_type : InteractionType;
  i_data : InteractionData;
  i_ctx : Context;
}.

(** A value of [req.query]: a string, or something without a string's
    methods (a nested object or array), which may still carry a property
    named [toUpperCase]. *)
Inductive QueryItem :=
| QString (s : string)
| QOther (has_toUpperCase : bool).

Inductive Query :=
| QUndefined
| QOne (q : QueryItem)
| QMany (l : list QueryItem).

Inductive Method := GET | POST | OtherMethod.

Record Request := {
  method : Method;
  path : list string;
  ip : string;
  now : Z;
  signatureValid : bool;
  authorization : option string;
  query_rating : Query;
  body : Interaction;
}.

Inductive Body :=
| BError (message : string)
| BQuestion (q : Question)
| BText (s : string)
| BMetrics
| BRedirect (url : string).

Record Response := { status : Z; res_body : Body }.

(** How the handling of a request ends: a response written on [res], a
    handler that leaves the answer to [ctx.reply] (logged as [EReply]), or
    no route. *)
Inductive Result :=
| Responded (r : Response)
| ViaContext
| NotFound.

(** The server with what it is built from: the commands loaded by the
    client, the button handler, and the tables and functions it imports
    ([PermissionFlagsBits] of [discord-api-types], the enumerations
    [QuestionType] and [Rating] of the generated database client as
    [Object.values] lists them, [JSON.stringify] on the options of a
    command, [process.env.PROMETHEUS_AUTH]). *)
Record t := {
  commands : list Command.t;
  handleButton : Context → M unit;
  PermissionFlagsBits : list (string * Z);
  QuestionType : list string;
  Rating : list string;
  JSON_stringify : list CommandOption → string;
  PROMETHEUS_AUTH : option string;
}.

Definition PASSTHROUGH_COMMANDS : list string := ["settings"].

Definition APIRateLimit : RateLimit.Options :=
  {| RateLimit.windowMs := 5 * 1000;
     RateLimit.max := 5;
     RateLimit.skipFailedRequests := true |}.

(** The [handler] option of [APIRateLimit]. *)
Definition tooManyRequests : Response :=
  {| status := 429;
     res_body := BError "Too many requests, please try again later." |}.

Definition mutedReply : ReplyData :=
  {| r_content :=
       Some (Client.EMOTES_xmark +:+
             " I am muted in this channel. Use `/settings unmute` to unmute me.");
     r_embeds := [];
     r_flags := Some (Z.shiftl 1 6) |}.

Definition failureReply : ReplyData :=
  {| r_content :=
       Some (Client.EMOTES_xmark +:+
             " Something went wrong while running that command.");
     r_embeds := [];
     r_flags := Some (Z.shiftl 1 6) |}.

Definition extras (server : t) (command : Command.t) (ctx : Context)
    : SentryExtras :=
  {| x_user :=
       u_username (ctx_user ctx) +:+ "#" +:+ u_discriminator (ctx_user ctx)
       +:+ " (" +:+ u_id (ctx_user ctx) +:+ ")";
     x_command := Command.name command;
     x_args := JSON_stringify server (ctx_options ctx);
     x_channelId := ctx_channelId ctx |}.

(** The [catch] block of [handleCommand]. *)
Definition reportFailure (server : t) (command : Command.t) (ctx : Context)
    (err : Error) : M bool :=
  emit (EConsoleErrorThrown err) >>
  emit (ESentryCapture (extras server command ctx) err) >>
  reply failureReply >>
  ret true.

Definition handleCommand (server : t) (ctx : Context) : M unit :=
  match List.find (λ c, bool_decide (Command.name c = ctx_command_name ctx))
          (commands server) with
  | None =>
      emit (EConsoleError
              ("Command " +:+ ctx_command_name ctx +:+
               " was run with no corresponding command file."))
  | Some command =>
      let* allowed :=
        Functions.checkPerms (PermissionFlagsBits server) command ctx in
      if negb allowed then ret tt
      else
        let* stats := get_stats in
        put_stats (Stats.statistics (Command.name command) stats) >>
        let* commandErrored :=
          try_catch (Command.run command ctx >> ret false)
            (reportFailure server command ctx) in
        emit (ETrackCommandUse (Command.name command) (negb commandErrored))
  end.

Definition handleRequest (server : t) (interaction : Interaction) : M unit :=
  let ctx := i_ctx interaction in
  match i_type interaction, i_data interaction with
  | ApplicationCommand, CommandData ChatInput =>
      if muted (ctx_channelSettings ctx) &&
         negb (bool_decide (ctx_command_name ctx ∈ PASSTHROUGH_COMMANDS))
      then reply mutedReply
      else handleCommand server ctx
  | MessageComponent, ComponentData Button =>
      if muted (ctx_channelSettings ctx)
      then reply mutedReply
      else handleButton server ctx
  | _, _ => ret tt
  end.

Definition quoted (values : list string) : string :=
  join " " ((λ q, "'" +:+ q +:+ "'") <$> values).

Definition badQuestionType (server : t) : Response :=
  {| status := 400;
     res_body :=
       BError ("The question type must be one of the following: " +:+
               quoted (QuestionType server)) |}.

Definition badRating (server : t) : Response :=
  {| status := 400;
     res_body :=
       BError ("The rating must be one of the following: " +:+
               quoted (Rating server)) |}.

(** [!rating] *)
Definition falsy (rating : Query) : bool :=
  match rating with
  | QUndefined => true
  | QOne (QString s) => negb (truthy_string s)
  | QOne (QOther _) | QMany _ => false
  end.

(** [Array.isArray(rating) ? rating : [rating]] *)
Definition toArray (rating : Query) : list QueryItem :=
  match rating with
  | QMany l => l
  | QOne q => [q]
  | QUndefined => []
  end.

(** The loop over [ratingArray]: the first value that is not a rating ends
    it with the 400 response; calling a [toUpperCase] that is no function
    throws. *)
Fixpoint checkRatings (server : t) (ratingArray : list QueryItem)
    : Outcome (option Response) :=
  match ratingArray with
  | [] => Returned None
  | QString s :: rest =>
      if bool_decide (toUpperCase s ∈ Rating server)
      then checkRatings server rest
      else Returned (Some (badRating server))
  | QOther false :: _ => Returned (Some (badRating server))
  | QOther true :: _ => Threw (TypeError "rating.toUpperCase is not a function")
  end.

(** A value at which the loop answers with the 400 response; a value that
    is a string. *)
Definition notARating (server : t) (q : QueryItem) : Prop :=
  match q with
  | QString s => toUpperCase s ∉ Rating server
  | QOther has_toUpperCase => has_toUpperCase = false
  end.

Definition isString (q : QueryItem) : Prop :=
  match q with
  | QString _ => True
  | QOther _ => False
  end.

(** The string values of a query parameter are ASCII strings. *)
Definition asciiQuery (rating : Query) : bool :=
  forallb (λ q, match q with
                | QString s => isASCII s
                | QOther _ => true
                end) (toArray rating).

(** [ratingArray.map(r => r.toUpperCase())], on values that passed the
    loop. *)
Definition upperRatings (ratingArray : list QueryItem) : list string :=
  omap (λ q, match q with
             | QString s => Some (toUpperCase s)
             | QOther _ => None
             end) ratingArray.

Definition handleAPI (server : t) (param : string) (rating : Query)
    : M Response :=
  let questionType := toUpperCase param in
  if negb (bool_decide (questionType ∈ QuestionType server))
  then ret (badQuestionType server)
  else if falsy rating
  then
    let* question := Database.getRandomQuestion questionType ["R"] in
    ret {| status := 200; res_body := BQuestion question |}
  else
    match checkRatings server (toArray rating) with
    | Threw err => throw err
    | Returned (Some response) => ret response
    | Returned None =>
        let ratingArray := upperRatings (toArray rating) in
        let disabledRatings :=
          filter (λ a, a ∉ ratingArray) (Rating server) in
        let* question :=
          Database.getRandomQuestion questionType disabledRatings in
        emit (ETrackAPIRequest (q_type question) (q_rating question)) >>
        ret {| status := 200; res_body := BQuestion question |}
    end.

(** *** The routes registered by the constructor *)

Inductive Segment :=
| Lit (s : string)
| Param (name : string).

(** [router.use(prefix, ...)] matches every method and every path under the
    prefix; [router.get] and [router.post] match one method and a whole
    path. *)
Inductive Matcher :=
| Mount (prefix : list string)
| Exact (m : Method) (pattern : list Segment).

Inductive Middleware :=
| MRateLimit
| MVerifyKey
| MCors
| MHandleRequest
| MHandleAPI
| MMetrics
| MRedirect.

Definition routes : list (Matcher * list Middleware) :=
  [ (Mount ["api"], [MRateLimit]);
    (Mount ["v1"], [MRateLimit]);
    (Exact POST [Lit "interactions"], [MVerifyKey; MHandleRequest]);
    (Exact GET [Lit "api"; Param "questionType"], [MHandleAPI]);
    (Exact GET [Lit "v1"; Param "questionType"], [MCors; MHandleAPI]);
    (Exact GET [Lit "metrics"], [MMetrics]);
    (Exact GET [], [MRedirect]) ].

Definition eqb_method (a b : Method) : bool :=
  match a, b with
  | GET, GET | POST, POST | OtherMethod, OtherMethod => true
  | _, _ => false
  end.

Fixpoint isPrefix (prefix path : list string) : bool :=
  match prefix, path with
  | [], _ => true
  | p :: prefix, s :: path => bool_decide (p = s) && isPrefix prefix path
  | _ :: _, [] => false
  end.

(** The parameters bound by a pattern on a path, if it matches. *)
Fixpoint matchPattern (pattern : list Segment) (path : list string)
    : option (list (string * string)) :=
  match pattern, path with
  | [], [] => Some []
  | Lit l :: pattern, s :: path =>
      if bool_decide (l = s) then matchPattern pattern path else None
  | Param name :: pattern, s :: path =>
      params ← matchPattern pattern path; Some ((name, s) :: params)
  | _, _ => None
  end.

Definition matches (m : Matcher) (req : Request)
    : option (list (string * string)) :=
  match m with
  | Mount prefix => if isPrefix prefix (path req) then Some [] else None
  | Exact m pattern =>
      if eqb_method m (method req) then matchPattern pattern (path req)
      else None
  end.

Definition param (name : string) (params : list (string * string))
    : option string :=
  snd <$> List.find (λ kv, bool_decide (kv.1 = name)) params.

Definition statusOf (r : Result) : Z :=
  match r with
  | Responded r => status r
  | ViaContext => 200
  | NotFound => 404
  end.

(** The middleware [APIRateLimit]: the counter of [RateLimit] keyed by the
    address of the request, which is the default key of the package.  A
    rejected request is answered by the configured handler; the hit of a
    request that ends with a failure status, or without a response, is
    taken back as [skipFailedRequests] asks. *)
Definition rateLimit (o : RateLimit.Options) (req : Request) (next : M Result)
    : M Result :=
  λ w,
    let '(store, admitted) :=
      RateLimit.hit o (now req) (ip req) (w_rateLimit w) in
    let w1 := set_rateLimit store w in
    if admitted
    then
      match next w1 with
      | (Returned r, w2) =>
          (Returned r,
           set_rateLimit
             (RateLimit.finish o (ip req) (statusOf r) (w_rateLimit w2)) w2)
      | (Threw e, w2) =>
          (Threw e,
           set_rateLimit
             (if RateLimit.skipFailedRequests o
              then RateLimit.decrement (ip req) (w_rateLimit w2)
              else w_rateLimit w2) w2)
      end
    else
      (Returned (Responded tooManyRequests),
       set_rateLimit
         (RateLimit.finish o (ip req) (status tooManyRequests) store) w1).

(** One registered handler.  [verifyKeyMiddleware] answers a request whose
    signature does not verify with status 401 and passes the others on;
    [cors] passes every request on; the handlers of the server answer. *)
Definition middleware (server : t) (mw : Middleware)
    (params : list (string * string)) (req : Request) (next : M Result)
    : M Result :=
  match mw with
  | MRateLimit => rateLimit APIRateLimit req next
  | MVerifyKey =>
      if signatureValid req then next
      else ret (Responded {| status := 401;
                             res_body := BText "Invalid signature" |})
  | MCors => next
  | MHandleRequest => handleRequest server (body req) >> ret ViaContext
  | MHandleAPI =>
      match param "questionType" params with
      | Some questionType =>
          let* response := handleAPI server questionType (query_rating req) in
          ret (Responded response)
      | None =>
          throw (TypeError
                   "Cannot read properties of undefined (reading 'toUpperCase')")
      end
  | MMetrics =>
      if bool_decide (removeFirst "Bearer " <$> authorization req
                      ≠ PROMETHEUS_AUTH server)
      then ret (Responded {| status := 401; res_body := BText "Unauthorized" |})
      else ret (Responded {| status := 200; res_body := BMetrics |})
  | MRedirect =>
      ret (Responded
             {| status := 302;
                res_body :=
                  BRedirect "https://docs.truthordarebot.xyz/api-docs" |})
  end.

Fixpoint chain (server : t) (mws : list Middleware)
    (params : list (string * string)) (req : Request) (next : M Result)
    : M Result :=
  match mws with
  | [] => next
  | mw :: mws =>
      middleware server mw params req (chain server mws params req next)
  end.

Fixpoint dispatch (server : t) (layers : list (Matcher * list Middleware))
    (req : Request) : M Result :=
  match layers with
  | [] => ret NotFound
  | (m, mws) :: layers =>
      match matches m req with
      | Some params =>
          chain server mws params req (dispatch server layers req)
      | None => dispatch server layers req
      end
  end.

(** The express application on one request. *)
Definition handle (server : t) (req : Request) : M Result :=
  dispatch server routes req.

(** Requests handled one after the other, with the completion of each; a
    handler that throws does not stop the server. *)
Fixpoint handleAll (server : t) (reqs : list Request) (w : World)
    : list (Outcome Result) * World :=
  match reqs with
  | [] => ([], w)
  | req :: reqs =>
      let '(result, w) := handle server req w in
      let '(results, w) := handleAll server reqs w in
      (result :: results, w)
  end.

End Server.

(** ** Sample data, used to run the definitions on concrete inputs *)

Module Sample.

Definition flags : list (string * Z) :=
  [ ("CreateInstantInvite", Z.shiftl 1 0);
    ("KickMembers", Z.shiftl 1 1);
    ("BanMembers", Z.shiftl 1 2);
    ("Administrator", Z.shiftl 1 3);
    ("ManageChannels", Z.shiftl 1 4);
    ("ManageGuild", Z.shiftl 1 5) ].

Definition alice : User :=
  {| u_id := "1001"; u_username := "alice"; u_discriminator := "0001";
     u_avatar := None |}.

Definition unmuted : ChannelSettings :=
  {| muted := false; disabledRatings := [] |}.

Definition silenced : ChannelSettings :=
  {| muted := true; disabledRatings := [] |}.

(** An environment in which every request to the platform succeeds. *)
Definition env : Env :=
  {| net_sendMessage := λ _ _ _, Returned (Some {| msg_id := "9001" |});
     net_editMessage := λ _ _ _ _, Returned (Some {| msg_id := "9002" |});
     net_fetchGuild := λ _ _, Some {| g_name := "Guild" |};
     math_random := λ _, (1 # 4)%Q;
     db_getRandomQuestion :=
       λ _ type _, Returned {| q_id := "q1"; q_type := type;
                               q_rating := "PG"; q_question := "?" |} |}.

(** An environment in which the platform answers a send with no message. *)
Definition envNoMessage : Env :=
  {| net_sendMessage := λ _ _ _, Returned None;
     net_editMessage := net_editMessage env;
     net_fetchGuild := net_fetchGuild env;
     math_random := math_random env;
     db_getRandomQuestion := db_getRandomQuestion env |}.

Definition world (names : list string) (queue : list ParanoiaEntry) (e : Env)
    : World :=
  {| w_stats := Client.start_stats names Client.initial_stats;
     w_paranoia := queue;
     w_rateLimit := ∅;
     w_log := [];
     w_env := e |}.

(** A member of a guild who may kick but not ban. *)
Definition inGuild (name : string) (settings : ChannelSettings) : Context :=
  {| ctx_user := alice; ctx_guildId := Some "77"; ctx_channelId := "500";
     ctx_member := Some {| m_permissions := 2 |};
     ctx_command_name := name; ctx_options := [];
     ctx_channelSettings := settings |}.

(** A direct message to the bot: no guild, no member. *)
Definition inDM (name : string) (options : list CommandOption) : Context :=
  {| ctx_user := alice; ctx_guildId := None; ctx_channelId := "900";
     ctx_member := None; ctx_command_name := name; ctx_options := options;
     ctx_channelSettings := unmuted |}.

Definition answering : Context :=
  inDM "answer" [{| o_name := "answer"; o_value := VString "Bob" |}].

(** Two questions queued for [alice]; the first one has been delivered. *)
Definition first : ParanoiaEntry :=
  {| p_id := "p1"; p_userId := "1001"; p_guildId := "77";
     p_channelId := "500"; p_questionText := "Who is the funniest?";
     p_questionRating := "PG"; p_questionId := "q1";
     p_dmMessageId := Some "8001" |}.

Definition second : ParanoiaEntry :=
  {| p_id := "p2"; p_userId := "1001"; p_guildId := "78";
     p_channelId := "501"; p_questionText := "Who is the tallest?";
     p_questionRating := "PG"; p_questionId := "q2";
     p_dmMessageId := None |}.

Definition ban : Command.t :=
  {| Command.name := "ban";
     Command.perms := [PermKey "KickMembers"; PermBits 4];
     Command.run := λ _, reply (reply_text "banned") |}.

(** A command whose handler replies and then fails. *)
Definition boom : Command.t :=
  {| Command.name := "boom";
     Command.perms := [];
     Command.run := λ _, reply (reply_text "working on it") >>
                         throw (OtherError "boom") |}.

Definition server : Server.t :=
  {| Server.commands := [Answer.answer; ban; boom];
     Server.handleButton := λ _, ret tt;
     Server.PermissionFlagsBits := flags;
     Server.QuestionType := ["TRUTH"; "DARE"; "WYR"; "NHIE"; "PARANOIA"];
     Server.Rating := ["PG"; "PG13"; "R"];
     Server.JSON_stringify :=
       λ options, "[" +:+ join "," (o_name <$> options) +:+ "]";
     Server.PROMETHEUS_AUTH := Some "secret" |}.

Definition command (ctx : Context) : Server.Interaction :=
  {| Server.i_type := Server.ApplicationCommand;
     Server.i_data := Server.CommandData Server.ChatInput;
     Server.i_ctx := ctx |}.

(** A signed webhook request carrying an interaction. *)
Definition webhook (time : Z) (interaction : Server.Interaction)
    : Server.Request :=
  {| Server.method := Server.POST; Server.path := ["interactions"];
     Server.ip := "10.0.0.1"; Server.now := time;
     Server.signatureValid := true; Server.authorization := None;
     Server.query_rating := Server.QUndefined;
     Server.body := interaction |}.

(** A request to the public API. *)
Definition api (time : Z) (group questionType : string)
    (rating : Server.Query) : Server.Request :=
  {| Server.method := Server.GET; Server.path := [group; questionType];
     Server.ip := "10.0.0.1"; Server.now := time;
     Server.signatureValid := false; Server.authorization := None;
     Server.query_rating := rating;
     Server.body := command (inDM "" []) |}.

End Sample.

(** ** JavaScript objects: [deepEquals] and [deepCopy] of [Functions.ts] *)

Module Value.

(** A JavaScript value as the two functions see it.  A number is an
    integer; a function is known by its identity; an object is the list of
    its own properties in the order of [Object.keys], with distinct keys
    (see [wf]), none of which is a name inherited from [Object.prototype]. *)
Local Unset Elimination Schemes.

Inductive t :=
| Undefined
| Null
| Bool (b : bool)
| Number (z : Z)
| Str (s : string)
| Function (id : nat)
| Array (items : list t)
| Object (entries : list (string * t)).

Local Set Elimination Schemes.

Inductive Typeof :=
| TUndefined | TObject | TBoolean | TNumber | TString | TFunction.

Global Instance Typeof_eq_dec : EqDecision Typeof.
Proof. solve_decision. Defined.

Definition typeof (v : t) : Typeof :=
  match v with
  | Undefined => TUndefined
  | Null | Array _ | Object _ => TObject
  | Bool _ => TBoolean
  | Number _ => TNumber
  | Str _ => TString
  | Function _ => TFunction
  end.

Definition isArray (v : t) : bool :=
  match v with Array _ => true | _ => false end.

(** [a === b] where it is used: on [null], on values that are no objects
    and on functions.  Two arrays or two objects met in different places
    are different objects. *)
Definition strictEquals (a b : t) : bool :=
  match a, b with
  | Undefined, Undefined | Null, Null => true
  | Bool x, Bool y => bool_decide (x = y)
  | Number x, Number y => bool_decide (x = y)
  | Str x, Str y => bool_decide (x = y)
  | Function x, Function y => bool_decide (x = y)
  | _, _ => false
  end.

(** [obj[key]] on the own properties: the value, or nothing for
    [undefined]. *)
Fixpoint get (key : string) (entries : list (string * t)) : option t :=
  match entries with
  | [] => None
  | (k, v) :: entries => if bool_decide (k = key) then Some v else get key entries
  end.

(** [obj[key] = v]: an own property keeps its place, a new one goes last. *)
Fixpoint set (key : string) (v : t) (entries : list (string * t))
    : list (string * t) :=
  match entries with
  | [] => [(key, v)]
  | (k, x) :: entries =>
      if bool_decide (k = key) then (k, v) :: entries
      else (k, x) :: set key v entries
  end.

(** [Object.fromEntries(entries)] *)
Definition fromEntries (entries : list (string * t)) : list (string * t) :=
  foldl (λ obj kv, set kv.1 kv.2 obj) [] entries.

(** [array.every((a, i) => f(a, i))], from index [i]: it stops at the
    first element that is not accepted, and at an exception. *)
Fixpoint every {A} (f : A → nat → Outcome bool) (l : list A) (i : nat)
    : Outcome bool :=
  match l with
  | [] => Returned true
  | a :: l =>
      match f a i with
      | Returned true => every f l (S i)
      | Returned false => Returned false
      | Threw e => Threw e
      end
  end.

(** [deepEquals(obj1, obj2, ignoreList)].  [key in obj2] throws when
    [obj2] is [null]. *)
Fixpoint deepEquals (obj1 obj2 : t) (ignoreList : list string)
    {struct obj1} : Outcome bool :=
  if negb (bool_decide (typeof obj1 = typeof obj2)) then Returned false
  else if negb (bool_decide (isArray obj1 = isArray obj2)) then Returned false
  else
    match obj1 with
    | Array items1 =>
        match obj2 with
        | Array items2 =>
            if bool_decide (length items1 = length items2)
            then every (λ a i, deepEquals a (default Undefined (items2 !! i))
                                 ignoreList) items1 0
            else Returned false
        | _ => Returned false
        end
    | Object entries1 =>
        every (λ kv _,
                 if bool_decide (kv.1 ∈ ignoreList) then Returned true
                 else
                   match obj2 with
                   | Object entries2 =>
                       match get kv.1 entries2 with
                       | Some v2 => deepEquals kv.2 v2 ignoreList
                       | None => Returned false
                       end
                   | _ =>
                       Threw (TypeError
                                "Cannot use 'in' operator to search for a key in null")
                   end)
          entries1 0
    | _ => Returned (strictEquals obj1 obj2)
    end.

(** [deepCopy(obj)] *)
Fixpoint deepCopy (obj : t) : t :=
  match obj with
  | Array items => Array (deepCopy <$> items)
  | Object entries =>
      Object (fromEntries ((λ kv, (kv.1, deepCopy kv.2)) <$> entries))
  | _ => obj
  end.

(** The keys of every object inside a value are distinct. *)
Fixpoint wf (v : t) : Prop :=
  match v with
  | Array items => foldr (λ a P, wf a ∧ P) True items
  | Object entries =>
      NoDup entries.*1 ∧ foldr (λ kv P, wf kv.2 ∧ P) True entries
  | _ => True
  end.

End Value.

(** ** [Client.compareCommands] and [Client.updateCommands] *)

Module Registry.

(** A command descriptor, and a command of the platform's list, as the
    object it is: its own properties. *)
Definition Descriptor : Type := list (string * Value.t).

(** [c.name] *)
Definition nameOf (c : Descriptor) : Value.t :=
  default Value.Undefined (Value.get "name" c).

(** [commandList.find(c => c.name === com.name)] *)
Definition find (com : Descriptor) (commandList : list Descriptor) : Value.t :=
  match List.find (λ c, Value.strictEquals (nameOf c) (nameOf com))
          commandList with
  | Some c => Value.Object c
  | None => Value.Undefined
  end.

Definition ignoreList : list string := ["category"; "perms"; "run"].

(** [array.some(f)]: it stops at the first element that is accepted, and
    at an exception. *)
Fixpoint some {A} (f : A → Outcome bool) (l : list A) : Outcome bool :=
  match l with
  | [] => Returned false
  | a :: l =>
      match f a with
      | Returned true => Returned true
      | Returned false => some f l
      | Threw e => Threw e
      end
  end.

Definition not (r : Outcome bool) : Outcome bool :=
  match r with
  | Returned b => Returned (negb b)
  | Threw e => Threw e
  end.

(** [compareCommands], once the list of the platform has been fetched:
    whether some command differs from its namesake on the platform. *)
Definition compareCommands (commands commandList : list Descriptor)
    : Outcome bool :=
  some (λ com,
          not (Value.deepEquals (Value.Object com) (find com commandList)
                 ignoreList))
    commands.

(** [({ ...c, perms: undefined })] *)
Definition withoutPerms (c : Descriptor) : Descriptor :=
  Value.set "perms" Value.Undefined c.

(** What [updateCommands] does after the fetch. *)
Inductive Effect :=
| Log (msg : string)
| Put (body : list Descriptor)
| Success (msg : string).

(** [updateCommands], once the list of the platform has been fetched;
    [put] is the completion of the request that publishes the body. *)
Definition updateCommands (commands commandList : list Descriptor)
    (put : list Descriptor → Outcome unit) : Outcome unit * list Effect :=
  match compareCommands commands commandList with
  | Threw e => (Threw e, [])
  | Returned false => (Returned tt, [])
  | Returned true =>
      let body := withoutPerms <$> commands in
      match put body with
      | Threw e => (Threw e, [Log "Updating commands..."; Put body])
      | Returned _ =>
          (Returned tt,
           [Log "Updating commands..."; Put body;
            Success ("Updated " +:+ pretty.pretty (length commands) +:+
                     " slash commands")])
      end
  end.

(** The properties of a command that the comparison reads are found, with
    the same values, on the object [c]. *)
Definition agrees (com c : Descriptor) : Prop :=
  ∀ key v, (key, v) ∈ com → key ∉ ignoreList → Value.get key c = Some v.

End Registry.

(** ** [titleCase] and [promoMessage] of [Functions.ts] *)

Module Text.

Definition lower_ascii (a : ascii) : ascii :=
  if is_upper a then Ascii.ascii_of_nat (Ascii.nat_of_ascii a + 32) else a.

(** [String.prototype.toLowerCase] on an ASCII string ([isASCII]): the
    letters [A] to [Z] are mapped and every other character is left as it
    is. *)
Fixpoint toLowerCase (s : string) : string :=
  match s with
  | EmptyString => EmptyString
  | String a r => String (lower_ascii a) (toLowerCase r)
  end.

(** [str.slice(0, 1).toUpperCase() + str.slice(1).toLowerCase()], on an
    ASCII string. *)
Definition titleCase (str : string) : string :=
  toUpperCase (String.substring 0 1 str) +:+
  toLowerCase (String.substring 1 (String.length str - 1) str).

(** The nine messages of [promoMessage]; [emote] reads [client.EMOTES]. *)
Definition promoMessages (emote : string → string) : list string :=
  [ emote "earth" +:+
      " You can now play Truth or Dare in [7 languages](https://docs.truthordarebot.xyz/setting-question-language)!";
    emote "arrowUp" +:+
      " Enjoying the bot? Consider [upvoting me](https://top.gg/bot/692045914436796436/vote)!";
    emote "sparkles" +:+
      " Want to stop repeating questions? Repeat prevention is a premium feature. Tap the " +:+
      String "034" ("Upgrade" +:+ String "034"
        " button on our profile on the desktop app for more.");
    emote "shushing_face" +:+
      " psst.. hide these messages with premium. tap the " +:+
      String "034" ("Upgrade" +:+ String "034"
        " button on our profile on the desktop app for more.");
    emote "running" +:+
      " Help us keep the bot up and running with premium! Tap the " +:+
      String "034" ("Upgrade" +:+ String "034"
        " button on our profile on the desktop app for more.");
    emote "technologist" +:+
      " Having fun? Support the development of new features with premium! Tap the " +:+
      String "034" ("Upgrade" +:+ String "034"
        " button on our profile on the desktop app for more.");
    emote "heart" +:+
      " Love the bot? You'll love it even more with premium! Tap the " +:+
      String "034" ("Upgrade" +:+ String "034"
        " button on our profile on the desktop app for more.");
    emote "bank" +:+
      " We run off donations, not your data. Get some awesome perks when you donate! Tap the " +:+
      String "034" ("Upgrade" +:+ String "034"
        " button on our profile on the desktop app for more.");
    emote "earth" +:+
      " You can play Truth or Dare in [7 languages](https://docs.truthordarebot.xyz/setting-question-language)!" ].

(** [Math.floor(q)] *)
Definition floor (q : Q) : Z := Qnum q / Z.pos (Qden q).

(** [array[i]] for a number [i] that is an integer: [None] is
    [undefined]. *)
Definition index {A} (l : list A) (i : Z) : option A :=
  if i <? 0 then None else l !! Z.to_nat i.

(** [promoMessage(client, isPremium)]; [random1] and [random2] are what the
    two calls of [Math.random] return, the second one being made only when
    the first is below 0.08.  [None] is [undefined]. *)
Definition promoMessage (emote : string → string) (isPremium : option bool)
    (random1 random2 : Q) : option string :=
  match isPremium with
  | Some true => Some ""
  | Some false | None =>
      if Qlt_le_dec random1 (8 # 100)
      then index (promoMessages emote)
             (floor (random2 * inject_Z (Z.of_nat (length (promoMessages emote)))))
      else Some ""
  end.

(** A string without its spaces. *)
Fixpoint withoutSpaces (s : string) : string :=
  match s with
  | EmptyString => EmptyString
  | String a r =>
      if bool_decide (a = " "%char) then withoutSpaces r
      else String a (withoutSpaces r)
  end.

(** A string of decimal digits. *)
Fixpoint allDigits (s : string) : bool :=
  match s with
  | EmptyString => true
  | String a r =>
      match digit a with Some _ => allDigits r | None => false end
  end.

End Text.

(** ** [commands/dare.ts] and [commands/tod.ts] *)

Module Questions.

(** [ctx.client.database.getRandomQuestion(type, disabledRatings, rating)]:
    [Database.ts] is not under [src/]; the selection is the store's and its
    answer is read from [store], which sees the log as the environment
    does. *)
Definition Store : Type :=
  list Event → string → list string → option OptionValue → Outcome Question.

Definition getRandomQuestion (store : Store) (type : string)
    (disabledRatings : list string) (rating : option OptionValue)
    : M Question :=
  λ w, (store (w_log w) type disabledRatings rating,
        log_event (EGetRandomQuestion type disabledRatings) w).

(** The embed both commands reply with: the footer is there when the
    question has an identifier. *)
Definition questionEmbed (question : Question) : Embed :=
  {| e_author := None;
     e_title := Some (q_question question);
     e_description := None;
     e_color := Some Client.COLORS_BLUE;
     e_fields := [];
     e_footer :=
       if truthy_string (q_id question)
       then Some ("Type: " +:+ q_type question +:+ " | Rating: " +:+
                  q_rating question +:+ " | ID: " +:+ q_id question)
       else None |}.

Definition questionReply (question : Question) : ReplyData :=
  {| r_content := None; r_embeds := [questionEmbed question];
     r_flags := None |}.

Definition dare_run (store : Store) (ctx : Context) : M unit :=
  let channelSettings := ctx_channelSettings ctx in
  let rating := o_value <$> Answer.getOption "rating" ctx in
  let* dare :=
    getRandomQuestion store "DARE" (disabledRatings channelSettings) rating in
  reply (questionReply dare).

Definition dare (store : Store) : Command.t :=
  {| Command.name := "dare"; Command.perms := [];
     Command.run := dare_run store |}.

Definition tod_run (store : Store) (ctx : Context) : M unit :=
  let channelSettings := ctx_channelSettings ctx in
  let* random := Answer.Math_random in
  let type := if Qlt_le_dec random (1 # 2) then "TRUTH" else "DARE" in
  let rating := o_value <$> Answer.getOption "rating" ctx in
  let* result :=
    getRandomQuestion store type (disabledRatings channelSettings) rating in
  reply (questionReply result).

Definition tod (store : Store) : Command.t :=
  {| Command.name := "tod"; Command.perms := [];
     Command.run := tod_run store |}.

End Questions.

(** ** Readings of a log and of a history *)

Module Trace.

Definition isReply (e : Event) : bool :=
  match e with EReply _ => true | _ => false end.

(** The events a computation added to the log. *)
Definition added (before after : World) : list Event :=
  drop (length (w_log before)) (w_log after).

(** The dispatches since the last run of the one-minute task, and the
    number of runs of the task. *)
Fixpoint pending (history : list Client.Step) (acc : list string)
    : list string :=
  match history with
  | [] => acc
  | Client.Dispatched name :: history => pending history (acc ++ [name])
  | Client.Minute :: history => pending history []
  end.

Definition minutes (history : list Client.Step) : Z :=
  Z.of_nat (length (filter (λ e, e = Client.Minute) history)).

Definition occurrences (name : string) (names : list string) : Z :=
  Z.of_nat (length (filter (λ n, n = name) names)).

End Trace.

(** ** More sample data *)

Module Cases.

(** Two command descriptors as the client loads them, and the objects the
    platform lists for them. *)
Definition ping : Registry.Descriptor :=
  [ ("name", Value.Str "ping");
    ("description", Value.Str "Check if the bot is online.");
    ("category", Value.Str "control");
    ("perms", Value.Array []);
    ("run", Value.Function 1) ].

Definition truth : Registry.Descriptor :=
  [ ("name", Value.Str "truth");
    ("description", Value.Str "Gives a random question.");
    ("category", Value.Str "question");
    ("options",
     Value.Array
       [ Value.Object
           [ ("type", Value.Number 3);
             ("name", Value.Str "rating");
             ("choices",
              Value.Array
                [ Value.Object [("name", Value.Str "PG");
                                ("value", Value.Str "PG")];
                  Value.Object [("name", Value.Str "R");
                                ("value", Value.Str "R")] ]) ] ]);
    ("perms", Value.Array []);
    ("run", Value.Function 2) ].

Definition pingListed : Registry.Descriptor :=
  [ ("id", Value.Str "901");
    ("name", Value.Str "ping");
    ("description", Value.Str "Check if the bot is online.");
    ("version", Value.Str "1") ].

Definition truthListed : Registry.Descriptor :=
  [ ("id", Value.Str "902");
    ("name", Value.Str "truth");
    ("description", Value.Str "Gives a random question.");
    ("options",
     Value.Array
       [ Value.Object
           [ ("type", Value.Number 3);
             ("name", Value.Str "rating");
             ("choices",
              Value.Array
                [ Value.Object [("name", Value.Str "PG");
                                ("value", Value.Str "PG")];
                  Value.Object [("name", Value.Str "R");
                                ("value", Value.Str "R")] ]) ] ]) ].

Definition emote (name : string) : string := ":" +:+ name +:+ ":".

(** Members of a guild who may kick and ban, and who may do everything the
    sample table lists. *)
Definition moderator : Context :=
  {| ctx_user := Sample.alice; ctx_guildId := Some "77";
     ctx_channelId := "500"; ctx_member := Some {| m_permissions := 6 |};
     ctx_command_name := "ban"; ctx_options := [];
     ctx_channelSettings := Sample.unmuted |}.

Definition owner : Context :=
  {| ctx_user := Sample.alice; ctx_guildId := Some "77";
     ctx_channelId := "500"; ctx_member := Some {| m_permissions := 63 |};
     ctx_command_name := "ban"; ctx_options := [];
     ctx_channelSettings := Sample.unmuted |}.

(** An environment in which no guild can be fetched. *)
Definition envNoGuild : Env :=
  {| net_sendMessage := net_sendMessage Sample.env;
     net_editMessage := net_editMessage Sample.env;
     net_fetchGuild := λ _ _, None;
     math_random := math_random Sample.env;
     db_getRandomQuestion := db_getRandomQuestion Sample.env |}.

(** A store that has a question of every type. *)
Definition store : Questions.Store :=
  λ _ type _ _,
    Returned {| q_id := "q7"; q_type := type; q_rating := "PG";
                q_question := "?" |}.

Definition server : Server.t :=
  {| Server.commands := [Questions.dare store; Questions.tod store];
     Server.handleButton := Server.handleButton Sample.server;
     Server.PermissionFlagsBits := Sample.flags;
     Server.QuestionType := Server.QuestionType Sample.server;
     Server.Rating := Server.Rating Sample.server;
     Server.JSON_stringify := Server.JSON_stringify Sample.server;
     Server.PROMETHEUS_AUTH := Some "secret" |}.

Definition ping_interaction : Server.Interaction :=
  {| Server.i_type := Server.Ping; Server.i_data := Server.NoData;
     Server.i_ctx := Sample.inDM "" [] |}.

(** A request for the metrics. *)
Definition metrics (authorization : option string) : Server.Request :=
  {| Server.method := Server.GET; Server.path := ["metrics"];
     Server.ip := "10.0.0.2"; Server.now := 0;
     Server.signatureValid := false; Server.authorization := authorization;
     Server.query_rating := Server.QUndefined;
     Server.body := ping_interaction |}.

End Cases.

(** * Properties *)

(** ** The monad *)

Lemma bind_returned {A B} (c : M A) (k : A → M B) (w w' : World) (a : A) :
  c w = (Returned a, w') → bind c k w = k a w'.
Proof. intros H. unfold bind. by rewrite H. Qed.

Lemma bind_threw {A B} (c : M A) (k : A → M B) (w w' : World) (e : Error) :
  c w = (Threw e, w') → bind c k w = (Threw e, w').
Proof. intros H. unfold bind. by rewrite H. Qed.

(** ** The definitions on concrete inputs *)

Example spaceCapitals_ManageMessages :
  spaceCapitals "ManageMessages" = "Manage Messages".
Proof. reflexivity. Qed.

Example toUpperCase_truth : toUpperCase "truth" = "TRUTH".
Proof. reflexivity. Qed.

Example missingMessage_two :
  Functions.missingMessage ["BanMembers"; "ManageGuild"] =
    "You are missing the following required permissions: `Ban Members`, `Manage Guild`".
Proof. reflexivity. Qed.

Example avatarURL_default :
  Functions.avatarURL Sample.alice =
    "https://cdn.discordapp.com//embed/avatars/1.png".
Proof. reflexivity. Qed.

(** An answer with two questions queued and a platform that accepts every
    request: relay, edit, removal, acknowledgement, and then the delivery
    of the second question, whose notification is recorded on it. *)
Example answer_with_two_queued :
  let w := Sample.world ["answer"] [Sample.first; Sample.second] Sample.env in
  let w' := (Answer.run Sample.answering w).2 in
  (Answer.run Sample.answering w).1 = Returned tt ∧
  filter (λ ev, Answer.queueAccess ev = true) (w_log w') =
    [EGetNextParanoia "1001"; ERemoveParanoiaQuestion "p1";
     EGetNextParanoia "1001"; ESetParanoiaMessageId "p2" "9001"] ∧
  p_id <$> w_paranoia w' = ["p2"] ∧
  p_dmMessageId <$> w_paranoia w' = [Some "9001"].
Proof. vm_compute. done. Qed.

(** A question type that is not enumerated, on the public API. *)
Example api_unknown_type :
  (Server.handle Sample.server
     (Sample.api 0 "api" "FOO" Server.QUndefined)
     (Sample.world [] [] Sample.env)).1 =
    Returned
      (Server.Responded
         {| Server.status := 400;
            Server.res_body :=
              Server.BError
                "The question type must be one of the following: 'TRUTH' 'DARE' 'WYR' 'NHIE' 'PARANOIA'" |}).
Proof. reflexivity. Qed.

(** ** The permission gate *)

Section PermissionGate.

Variable table : list (string * Z).

Lemma land_bit_nonzero (k m : Z) :
  0 ≤ k → Z.land (Z.shiftl 1 k) m ≠ 0 ↔ Z.testbit m k = true.
Proof.
  intros Hk. rewrite Z.shiftl_1_l. split.
  - intros Hne. destruct (Z.testbit m k) eqn:Hbit; [done|].
    exfalso. apply Hne. apply Z.bits_inj'. intros i Hi.
    rewrite Z.land_spec, Z.bits_0, Z.pow2_bits_eqb by done.
    destruct (Z.eqb_spec k i) as [->|]; [by rewrite Hbit|done].
  - intros Hbit Hz.
    assert (Z.testbit (Z.land (2 ^ k) m) k = true) as Hk'.
    { rewrite Z.land_spec, Z.pow2_bits_eqb, Z.eqb_refl by done. by rewrite Hbit. }
    rewrite Hz, Z.bits_0 in Hk'. done.
Qed.

Lemma missingNames_spec (missing : Z) (key : string) :
  key ∈ Functions.missingNames table missing ↔
  ∃ v, (key, v) ∈ table ∧ Z.land v missing ≠ 0.
Proof.
  unfold Functions.missingNames. rewrite list_elem_of_fmap. split.
  - intros [[key' v] [-> [Hv Hin]%list_elem_of_filter]]. by exists v.
  - intros (v & Hin & Hv). exists (key, v). split; [done|].
    by apply list_elem_of_filter.
Qed.

End PermissionGate.

(** C3.  The permission check of [checkPerms] and [hasPermission].  With no
    member on the context the call is allowed and nothing is sent.  With a
    member, the call is allowed exactly when [required & ~granted] is zero
    (and otherwise the caller is sent the list of what is missing); the
    names produced are, in the order of the table, exactly the named bits
    that are set in [required & ~granted].  [hasPermission] decides by the
    same mask and allows when no permissions are given. *)
Theorem checkPerms_allows_iff_nothing_missing
    (table : list (string * Z)) (command : Command.t) (ctx : Context)
    (w : World) :
  Functions.single_bits table →
  (ctx_member ctx = None →
   Functions.checkPerms table command ctx w = (Returned true, w)) ∧
  (∀ member required,
     ctx_member ctx = Some member →
     Functions.requiredBits table (Command.perms command) = Some required →
     let missing := Z.land required (Z.lnot (m_permissions member)) in
     let names := Functions.missingNames table missing in
     Functions.checkPerms table command ctx w =
       (Returned (bool_decide (missing = 0)),
        if bool_decide (missing = 0) then w
        else log_event (EReply (Functions.missingReply names (ctx_user ctx))) w)
     ∧ names `sublist_of` table.*1
     ∧ ∀ key, key ∈ names ↔
              ∃ k, 0 ≤ k ∧ (key, Z.shiftl 1 k) ∈ table ∧
                   Z.testbit missing k = true) ∧
  (∀ permission required granted,
     Functions.permBits table permission = Some required →
     Functions.hasPermission table permission None = Some true ∧
     Functions.hasPermission table permission (Some granted) =
       Some (bool_decide (Z.land required (Z.lnot granted) = 0))).
Proof.
  intros Hbits. split; [|split].
  - intros Hm. unfold Functions.checkPerms. by rewrite Hm.
  - intros member required Hm Hreq missing names. split; [|split].
    + unfold Functions.checkPerms. rewrite Hm, Hreq.
      fold missing. unfold Functions.missingBits. fold missing. fold names.
      destruct (decide (missing = 0)) as [Hz|Hnz].
      * rewrite (bool_decide_eq_false_2 (missing ≠ 0)) by tauto.
        by rewrite (bool_decide_eq_true_2 _ Hz).
      * rewrite (bool_decide_eq_true_2 _ Hnz).
        by rewrite (bool_decide_eq_false_2 _ Hnz).
    + unfold names, Functions.missingNames.
      apply fmap_sublist, sublist_filter.
    + intros key. unfold names. rewrite missingNames_spec. split.
      * intros (v & Hin & Hv). destruct (Hbits _ _ Hin) as (k & Hk & ->).
        exists k. by rewrite <- land_bit_nonzero.
      * intros (k & Hk & Hin & Hbit). exists (Z.shiftl 1 k).
        by rewrite land_bit_nonzero.
  - intros permission required granted Hp. split; [done|].
    unfold Functions.hasPermission. by rewrite Hp.
Qed.

(** The check on a member who may kick but not ban, for a command that
    needs both: the call is denied and the reply names the missing flag. *)
Lemma checkPerms_allows_iff_nothing_missing_witness :
  Functions.single_bits Sample.flags ∧
  Functions.checkPerms Sample.flags Sample.ban
    (Sample.inGuild "ban" Sample.unmuted) (Sample.world ["ban"] [] Sample.env)
  = (Returned false,
     log_event
       (EReply (Functions.missingReply ["BanMembers"] Sample.alice))
       (Sample.world ["ban"] [] Sample.env)).
Proof.
  assert (Functions.single_bits Sample.flags) as Hbits.
  { intros key v Hin. unfold Sample.flags in Hin.
    repeat (apply elem_of_cons in Hin as [[= -> ->]|Hin];
            [eexists; split; [|reflexivity]; lia|]).
    by apply elem_of_nil in Hin. }
  split; [exact Hbits|].
  destruct (checkPerms_allows_iff_nothing_missing Sample.flags Sample.ban
              (Sample.inGuild "ban" Sample.unmuted)
              (Sample.world ["ban"] [] Sample.env) Hbits) as (_ & Hsome & _).
  destruct (Hsome {| m_permissions := 2 |} 6 eq_refl eq_refl) as (Hrun & _).
  exact Hrun.
Defined.

(** ** The counters of [Client.stats] *)

Lemma start_stats_lookup (names : list string) (s : Stats.t) (X : string) :
  X ∈ names →
  Stats.commands (Client.start_stats names s) !! X = Some (Stats.Num 0) ∧
  Stats.minuteCommands (Client.start_stats names s) !! X = Some (Stats.Num 0).
Proof.
  unfold Client.start_stats.
  induction names as [|name names IH] using rev_ind; intros Hin.
  - by apply elem_of_nil in Hin.
  - rewrite foldl_app. simpl.
    destruct (decide (X = name)) as [->|Hne].
    + by rewrite !lookup_insert_eq.
    + rewrite !lookup_insert_ne by done. apply IH.
      apply elem_of_app in Hin as [Hin|Hin]; [done|].
      apply list_elem_of_singleton in Hin. done.
Qed.

Lemma statistics_lifetime (name X : string) (s : Stats.t) (c : Z) :
  Stats.commands s !! X = Some (Stats.Num c) →
  Stats.commands (Stats.statistics name s) !! X =
    Some (Stats.Num (if decide (name = X) then c + 1 else c)).
Proof.
  intros H. simpl. unfold Stats.increment.
  destruct (decide (name = X)) as [->|Hne].
  - by rewrite lookup_insert_eq, H.
  - by rewrite lookup_insert_ne.
Qed.

Lemma replay_lifetime (history : list Client.Step) (s : Stats.t)
    (X : string) (c : Z) :
  Stats.commands s !! X = Some (Stats.Num c) →
  Stats.commands (Client.replay history s) !! X =
    Some (Stats.Num (c + Client.dispatches X history)).
Proof.
  unfold Client.replay, Client.dispatches.
  revert s c. induction history as [|e history IH]; intros s c H; simpl.
  - rewrite H. do 2 f_equal. lia.
  - destruct e as [name|]; simpl.
    + rewrite (IH _ _ (statistics_lifetime name X s c H)).
      rewrite filter_cons. destruct (decide (name = X)) as [->|Hne].
      * rewrite decide_True by done. simpl. do 2 f_equal. lia.
      * rewrite decide_False by congruence. done.
    + rewrite filter_cons, decide_False by done. by apply IH.
Qed.

(** C7.  The one-minute task and the lifetime counters.  A flush sets the
    average to [(average * minutesPassed + thisMinuteTotal) /
    (minutesPassed + 1)], sets the total of the minute and every
    per-command counter of the minute to zero, adds one to [minutesPassed]
    and leaves the lifetime counters as they are; the callback of
    [setInterval] does exactly this to the counters.  Hence, from the
    counters as [start] initialises them, after any history of dispatches
    and flushes the lifetime counter of a loaded command is the number of
    its dispatches. *)
Theorem flush_resets_minute_keeps_lifetime :
  (∀ s : Stats.t,
     let s' := Client.flush s in
     Stats.perMinuteCommandAverage s' =
       ((Stats.perMinuteCommandAverage s * inject_Z (Stats.minutesPassed s)
         + inject_Z (Stats.minuteCommandCount s))
        / inject_Z (Stats.minutesPassed s + 1))%Q ∧
     Stats.minuteCommandCount s' = 0 ∧
     (∀ name, Stats.minuteCommands s' !! name =
              (λ _, Stats.Num 0) <$> Stats.minuteCommands s !! name) ∧
     Stats.minutesPassed s' = Stats.minutesPassed s + 1 ∧
     Stats.commands s' = Stats.commands s) ∧
  (∀ (postStats : bool) (w : World),
     w_stats (Client.interval postStats w).2 = Client.flush (w_stats w)) ∧
  (∀ (names : list string) (history : list Client.Step) (X : string),
     X ∈ names →
     let s := Client.replay history
                (Client.start_stats names Client.initial_stats) in
     Stats.commands s !! X = Some (Stats.Num (Client.dispatches X history)) ∧
     Stats.commands (Client.flush s) !! X =
       Some (Stats.Num (Client.dispatches X history)) ∧
     Stats.minuteCommands (Client.flush s) !! X = Some (Stats.Num 0)).
Proof.
  split; [|split].
  - intros s. simpl. repeat split. intros name. by rewrite lookup_fmap.
  - intros [] w; reflexivity.
  - intros names history X Hin s.
    destruct (start_stats_lookup names Client.initial_stats X Hin) as [Hc Hm].
    pose proof (replay_lifetime history _ X 0 Hc) as Hlife.
    rewrite Z.add_0_l in Hlife. fold s in Hlife.
    split; [done|]. split; [done|].
    simpl. rewrite lookup_fmap.
    assert (is_Some (Stats.minuteCommands s !! X)) as [v ->]; [|done].
    unfold s. clear Hlife s Hc.
    assert (is_Some (Stats.minuteCommands
                       (Client.start_stats names Client.initial_stats) !! X))
      as Hsome by (by rewrite Hm).
    revert Hsome. generalize (Client.start_stats names Client.initial_stats).
    unfold Client.replay.
    induction history as [|e history IH]; intros s0 Hsome; simpl; [done|].
    apply IH. destruct e as [name|]; simpl.
    + unfold Stats.increment. destruct (decide (name = X)) as [->|Hne].
      * by rewrite lookup_insert_eq.
      * by rewrite lookup_insert_ne.
    + rewrite lookup_fmap. destruct Hsome as [v ->]. by eexists.
Qed.

(** Three dispatches of one command around a flush: its lifetime counter
    is three after a further flush. *)
Lemma flush_resets_minute_keeps_lifetime_witness :
  "truth" ∈ ["truth"; "answer"] ∧
  Stats.commands
    (Client.flush
       (Client.replay
          [Client.Dispatched "truth"; Client.Dispatched "answer";
           Client.Dispatched "truth"; Client.Minute;
           Client.Dispatched "truth"]
          (Client.start_stats ["truth"; "answer"] Client.initial_stats)))
    !! "truth" = Some (Stats.Num 3).
Proof.
  assert ("truth" ∈ ["truth"; "answer"]) as Hin by (by left).
  split; [exact Hin|].
  destruct flush_resets_minute_keeps_lifetime as (_ & _ & Hlife).
  destruct (Hlife ["truth"; "answer"]
              [Client.Dispatched "truth"; Client.Dispatched "answer";
               Client.Dispatched "truth"; Client.Minute;
               Client.Dispatched "truth"] "truth" Hin) as (_ & Hflush & _).
  exact Hflush.
Defined.

(** ** The rate limiter *)

Section RateLimiter.

Import RateLimit.

Variable o : Options.
Variable key : string.

Implicit Types store : gmap string RateWindow.









End RateLimiter.

(** The middleware of [Server.ts] around a handler that answers with a fixed
    status and leaves the limiter alone does to the counter what
    [RateLimit.request] does. *)
Lemma rateLimit_request (o : RateLimit.Options) (req : Server.Request)
    (next : M Server.Result) (status : Z) (w : World) :
  (∀ w1, ∃ r w2, next w1 = (Returned r, w2) ∧ Server.statusOf r = status ∧
                 w_rateLimit w2 = w_rateLimit w1) →
  w_rateLimit (Server.rateLimit o req next w).2 =
    (RateLimit.request o (Server.status Server.tooManyRequests)
       (Server.ip req) (w_rateLimit w) (Server.now req, status)).1.
Proof.
  intros Hnext. unfold Server.rateLimit, RateLimit.request.
  destruct (RateLimit.hit _ _ _ _) as [store [|]]; [|done].
  destruct (Hnext (set_rateLimit store w)) as (r & w2 & -> & <- & Hsame).
  simpl. by rewrite Hsame.
Qed.




(** ** The answer flow of [answer.ts] *)

(** Membership of an event in an explicit list: the cases that cannot be
    are closed, the others identify the event. *)
Ltac event_in Hin :=
  repeat (apply elem_of_cons in Hin as [Hin|Hin]; try discriminate);
  try (by apply elem_of_nil in Hin);
  try (injection Hin as -> ->).

Ltac absent_event Hin :=
  repeat (apply elem_of_cons in Hin as [Hin|Hin]; try discriminate);
  try (by apply elem_of_nil in Hin).

Section AnswerFlow.

Variable ctx : Context.

Let uid : string := u_id (ctx_user ctx).

(** What [deliverNext] logs: the fetch of the head first, then only the
    delivery of the entry that fetch returned. *)
Lemma deliverNext_log (w1 : World) :
  ∃ post,
    w_log (Answer.deliverNext ctx w1).2 =
      w_log w1 ++ EGetNextParanoia uid :: post ∧
    Forall (λ ev, Answer.headAccess ev = false) post ∧
    (∀ id messageId,
       ESetParanoiaMessageId id messageId ∈ post →
       ∃ next, Database.head uid (w_paranoia w1) = Some next ∧
               id = p_id next) ∧
    (∀ data channelId,
       ESendMessage data channelId ∈ post →
       ∃ guild next, Database.head uid (w_paranoia w1) = Some next ∧
                     data = Answer.nextEmbed guild next ∧
                     channelId = ctx_channelId ctx).
Proof.
  unfold Answer.deliverNext, bind, Database.getNextParanoia. simpl.
  fold uid.
  destruct (Database.head uid (w_paranoia w1)) as [next|] eqn:Hhead; simpl.
  - unfold Functions.fetchGuild, Functions.sendMessage. simpl.
    destruct (net_fetchGuild _ _ _) as [guild|]; simpl;
      [destruct (net_sendMessage _ _ _ _) as [[nextMessage|]|err]; simpl|];
      (eexists; rewrite <- ?app_assoc; split; [reflexivity|]);
      (split; [by repeat constructor|]);
      (split; [intros id messageId Hin|intros data channelId Hin]);
      event_in Hin; by eauto.
  - exists []. split; [done|]. split; [constructor|].
    split; intros ? ? Hin; event_in Hin.
Qed.

End AnswerFlow.







(** C10.  An answer command that comes from a guild is told that paranoia
    questions can only be answered in DMs and the flow returns there: the
    reply is the only thing done.  The queue is not read and not changed,
    and no message is sent or edited. *)
Theorem answer_in_guild_stops_before_queue (ctx : Context) (w : World)
    (guildId : string) :
  ctx_guildId ctx = Some guildId →
  guildId ≠ "" →
  Answer.run ctx w =
    (Returned tt, log_event (EReply Answer.noGuildReply) w) ∧
  w_paranoia (Answer.run ctx w).2 = w_paranoia w ∧
  w_log (Answer.run ctx w).2 = w_log w ++ [EReply Answer.noGuildReply] ∧
  r_content Answer.noGuildReply =
    Some ":x: Paranoia questions can only be answered in DMs.".
Proof.
  intros Hg Hne.
  assert (Answer.run ctx w =
            (Returned tt, log_event (EReply Answer.noGuildReply) w)) as Hrun.
  { unfold Answer.run. rewrite Hg. simpl.
    destruct guildId; [done|reflexivity]. }
  rewrite Hrun. done.
Qed.

(** An answer sent from a guild, with two questions queued: the queue is
    as before and the log holds the reply only. *)
Lemma answer_in_guild_stops_before_queue_witness :
  let ctx :=
    {| ctx_user := Sample.alice; ctx_guildId := Some "77";
       ctx_channelId := "500"; ctx_member := Some {| m_permissions := 0 |};
       ctx_command_name := "answer";
       ctx_options := [{| o_name := "answer"; o_value := VString "Bob" |}];
       ctx_channelSettings := Sample.unmuted |} in
  let w := Sample.world ["answer"] [Sample.first; Sample.second] Sample.env in
  "77" ≠ "" ∧
  w_paranoia (Answer.run ctx w).2 = [Sample.first; Sample.second] ∧
  w_log (Answer.run ctx w).2 = [EReply Answer.noGuildReply].
Proof.
  intros ctx w.
  assert ("77" ≠ "") as Hne by discriminate.
  split; [exact Hne|].
  destruct (answer_in_guild_stops_before_queue ctx w "77" eq_refl Hne)
    as (_ & Hqueue & Hlog & _).
  split; [exact Hqueue|exact Hlog].
Defined.

(** C1, as amended.  When the relay of the answer to the channel of the
    entry returns no message, the recipient is sent the failure notice,
    which asks to try again, and the flow returns: the entry is not removed
    and stays the head of the recipient's queue, the notification is not
    edited and no next question is fetched. *)
Theorem answer_relay_failure_notice (ctx : Context) (w : World)
    (e : ParanoiaEntry) (paranoiaAnswer : string) :
  let uid := u_id (ctx_user ctx) in
  let w1 := log_event (EGetNextParanoia uid) w in
  let relay :=
    Answer.relayEmbed (ctx_user ctx) (math_random (w_env w) (w_log w1)) e
      paranoiaAnswer in
  truthy (ctx_guildId ctx) = false →
  Database.head uid (w_paranoia w) = Some e →
  o_value <$> Answer.getOption "answer" ctx = Some (VString paranoiaAnswer) →
  net_sendMessage (w_env w) (w_log w1) relay (p_channelId e) = Returned None →
  Answer.run ctx w =
    (Returned tt,
     log_event
       (EReply {| r_content := None;
                  r_embeds := [Answer.failedNotice (ctx_user ctx) e];
                  r_flags := None |})
       (log_event (ESendMessage relay (p_channelId e)) w1)) ∧
  w_paranoia (Answer.run ctx w).2 = w_paranoia w ∧
  Database.head uid (w_paranoia (Answer.run ctx w).2) = Some e ∧
  e_description (Answer.failedNotice (ctx_user ctx) e) =
    Some (":x: Message failed to send, please make sure I can send messages in <#"
          +:+ p_channelId e +:+ "> and then try again.").
Proof.
  intros uid w1 relay Hdm Hhead Hanswer Hsend.
  assert (Answer.run ctx w =
    (Returned tt,
     log_event
       (EReply {| r_content := None;
                  r_embeds := [Answer.failedNotice (ctx_user ctx) e];
                  r_flags := None |})
       (log_event (ESendMessage relay (p_channelId e)) w1))) as Hrun.
  { unfold Answer.run. rewrite Hdm, Hanswer.
    unfold bind, Database.getNextParanoia, Answer.Math_random,
      Functions.sendMessage, reply, emit.
    fold uid. rewrite Hhead. subst w1 relay.
    cbn [w_env w_log log_event] in *. by rewrite Hsend. }
  rewrite Hrun. done.
Qed.

(** A platform that answers the relay with no message: the queue is as
    before. *)
Lemma answer_relay_failure_notice_witness :
  let w :=
    Sample.world ["answer"] [Sample.first; Sample.second]
      Sample.envNoMessage in
  truthy (ctx_guildId Sample.answering) = false ∧
  Database.head "1001" (w_paranoia w) = Some Sample.first ∧
  w_paranoia (Answer.run Sample.answering w).2 =
    [Sample.first; Sample.second].
Proof.
  intros w. split; [reflexivity|]. split; [reflexivity|].
  destruct (answer_relay_failure_notice Sample.answering w Sample.first "Bob"
              eq_refl eq_refl eq_refl eq_refl) as (_ & Hkept & _).
  exact Hkept.
Defined.

(** C1, the claim as it was stated, fails: when the relay returns no
    message the answered entry is not removed.  Here the platform answers
    every send with no message; after the flow the queue still holds both
    entries, the first one is still the head, and the log shows the fetch,
    the relay and the failure notice, with no removal. *)
Lemma answer_relay_failure_keeps_entry :
  let w :=
    Sample.world ["answer"] [Sample.first; Sample.second]
      Sample.envNoMessage in
  let w' := (Answer.run Sample.answering w).2 in
  w_paranoia w' = [Sample.first; Sample.second] ∧
  Database.head "1001" (w_paranoia w') = Some Sample.first ∧
  Answer.queueAccess <$> w_log w' = [true; false; false] ∧
  ERemoveParanoiaQuestion "p1" ∉ w_log w'.
Proof.
  split; [reflexivity|]. split; [reflexivity|]. split; [reflexivity|].
  intros Hin. vm_compute in Hin. absent_event Hin.
Qed.

(** ** The router of [Server.ts] *)

Lemma checkPerms_allowed_no_effect (table : list (string * Z))
    (command : Command.t) (ctx : Context) (w w' : World) :
  Functions.checkPerms table command ctx w = (Returned true, w') → w' = w.
Proof.
  unfold Functions.checkPerms.
  destruct (ctx_member ctx) as [member|]; [|by intros [= <-]].
  destruct (Functions.requiredBits _ _) as [required|]; [|done].
  case_bool_decide; [done|]. by intros [= <-].
Qed.

(** The route of the webhook: the signature check, then [handleRequest]. *)
Lemma handle_interactions (server : Server.t) (req : Server.Request)
    (w : World) :
  Server.method req = Server.POST →
  Server.path req = ["interactions"] →
  Server.handle server req w =
    if Server.signatureValid req
    then (Server.handleRequest server (Server.body req) >>
          ret Server.ViaContext) w
    else (Returned
            (Server.Responded
               {| Server.status := 401;
                  Server.res_body := Server.BText "Invalid signature" |}), w).
Proof.
  intros Hm Hp. unfold Server.handle, Server.routes. cbn [Server.dispatch].
  unfold Server.matches. rewrite Hm, Hp. simpl.
  by destruct (Server.signatureValid req).
Qed.

(** C8.  A chat-input command that arrives in a muted channel and whose
    name is not in [PASSTHROUGH_COMMANDS] (which lists [settings] only) is
    answered with the fixed mute message and nothing else happens: the
    world after [handleRequest] is the world before it with that reply
    logged, so no handler ran and no counter changed.  The same holds for
    the request on the webhook route. *)
Theorem muted_channel_short_circuits (server : Server.t)
    (req : Server.Request) (w : World) :
  let interaction := Server.body req in
  let ctx := Server.i_ctx interaction in
  Server.i_type interaction = Server.ApplicationCommand →
  Server.i_data interaction = Server.CommandData Server.ChatInput →
  muted (ctx_channelSettings ctx) = true →
  ctx_command_name ctx ∉ Server.PASSTHROUGH_COMMANDS →
  Server.handleRequest server interaction w =
    (Returned tt, log_event (EReply Server.mutedReply) w) ∧
  w_stats (Server.handleRequest server interaction w).2 = w_stats w ∧
  (Server.method req = Server.POST →
   Server.path req = ["interactions"] →
   Server.signatureValid req = true →
   Server.handle server req w =
     (Returned Server.ViaContext, log_event (EReply Server.mutedReply) w)) ∧
  Server.PASSTHROUGH_COMMANDS = ["settings"] ∧
  Server.mutedReply =
    {| r_content :=
         Some ":x: I am muted in this channel. Use `/settings unmute` to unmute me.";
       r_embeds := [];
       r_flags := Some 64 |}.
Proof.
  intros interaction ctx Htype Hdata Hmuted Hname.
  assert (Server.handleRequest server interaction w =
            (Returned tt, log_event (EReply Server.mutedReply) w)) as Hrun.
  { unfold Server.handleRequest. rewrite Htype, Hdata. fold ctx.
    rewrite Hmuted. by rewrite bool_decide_eq_false_2. }
  split; [done|]. split; [by rewrite Hrun|]. split; [|done].
  intros Hm Hp Hsig. rewrite handle_interactions by done.
  rewrite Hsig. unfold bind. fold interaction. by rewrite Hrun.
Qed.

(** A command other than [settings] in a muted channel, through the
    webhook route. *)
Lemma muted_channel_short_circuits_witness :
  let req :=
    Sample.webhook 0 (Sample.command (Sample.inGuild "ban" Sample.silenced)) in
  let w := Sample.world ["answer"; "ban"; "boom"] [] Sample.env in
  ("ban" ∉ Server.PASSTHROUGH_COMMANDS) ∧
  Server.handle Sample.server req w =
    (Returned Server.ViaContext, log_event (EReply Server.mutedReply) w).
Proof.
  intros req w.
  assert ("ban" ∉ Server.PASSTHROUGH_COMMANDS) as Hname.
  { intros Hin. apply list_elem_of_singleton in Hin. discriminate Hin. }
  split; [exact Hname|].
  destruct (muted_channel_short_circuits Sample.server req w
              eq_refl eq_refl eq_refl Hname) as (_ & _ & Hhandle & _).
  exact (Hhandle eq_refl eq_refl eq_refl).
Defined.

(** C5.  A chat-input command that passes the mute gate, is found in the
    registry and passes the permission check.  The handler is started in
    the world in which the total of the minute and the lifetime and
    per-minute counters of the command have each gone up by one.  If the
    handler throws, [handleRequest] still returns normally; after whatever
    the handler did, the router logs the error, dispatches one report with
    the caller, the command name, the serialised options and the channel,
    sends one generic failure reply and records the use as failed in the
    metrics; the counters are left as the handler left them.  If the
    handler returns, the use is recorded as successful. *)
Theorem failing_handler_is_contained (server : Server.t)
    (interaction : Server.Interaction) (command : Command.t) (w : World) :
  let ctx := Server.i_ctx interaction in
  let name := Command.name command in
  let counted := set_stats (Stats.statistics name (w_stats w)) w in
  Server.i_type interaction = Server.ApplicationCommand →
  Server.i_data interaction = Server.CommandData Server.ChatInput →
  muted (ctx_channelSettings ctx) = false ∨
    ctx_command_name ctx ∈ Server.PASSTHROUGH_COMMANDS →
  List.find (λ c, bool_decide (Command.name c = ctx_command_name ctx))
    (Server.commands server) = Some command →
  (Functions.checkPerms (Server.PermissionFlagsBits server) command ctx w).1
    = Returned true →
  (Stats.minuteCommandCount (w_stats counted) =
     Stats.minuteCommandCount (w_stats w) + 1 ∧
   (∀ c, Stats.commands (w_stats w) !! name = Some (Stats.Num c) →
         Stats.commands (w_stats counted) !! name = Some (Stats.Num (c + 1))) ∧
   (∀ c, Stats.minuteCommands (w_stats w) !! name = Some (Stats.Num c) →
         Stats.minuteCommands (w_stats counted) !! name =
           Some (Stats.Num (c + 1)))) ∧
  (∀ err w2,
     Command.run command ctx counted = (Threw err, w2) →
     ∃ w3,
       Server.handleRequest server interaction w = (Returned tt, w3) ∧
       w_log w3 =
         w_log w2 ++
           [EConsoleErrorThrown err;
            ESentryCapture
              {| x_user :=
                   u_username (ctx_user ctx) +:+ "#" +:+
                   u_discriminator (ctx_user ctx) +:+ " (" +:+
                   u_id (ctx_user ctx) +:+ ")";
                 x_command := name;
                 x_args := Server.JSON_stringify server (ctx_options ctx);
                 x_channelId := ctx_channelId ctx |} err;
            EReply Server.failureReply;
            ETrackCommandUse name false] ∧
       w_stats w3 = w_stats w2 ∧
       w_paranoia w3 = w_paranoia w2) ∧
  (∀ w2,
     Command.run command ctx counted = (Returned tt, w2) →
     Server.handleRequest server interaction w =
       (Returned tt, log_event (ETrackCommandUse name true) w2)).
Proof.
  intros ctx name counted Htype Hdata Hgate Hfind Hperm.
  assert (Server.handleRequest server interaction w =
            (let* commandErrored :=
               try_catch (Command.run command ctx >> ret false)
                 (Server.reportFailure server command ctx) in
             emit (ETrackCommandUse name (negb commandErrored))) counted)
    as Hrun.
  { unfold Server.handleRequest. rewrite Htype, Hdata. fold ctx.
    assert (muted (ctx_channelSettings ctx) &&
            negb (bool_decide (ctx_command_name ctx ∈ Server.PASSTHROUGH_COMMANDS))
            = false) as ->.
    { destruct Hgate as [->|Hin]; [done|].
      by rewrite (bool_decide_eq_true_2 _ Hin), andb_false_r. }
    unfold Server.handleCommand. rewrite Hfind.
    destruct (Functions.checkPerms _ command ctx w) as [allowed w0] eqn:Hcheck.
    simpl in Hperm. subst allowed.
    apply checkPerms_allowed_no_effect in Hcheck as Hw0. subst w0.
    unfold bind at 1. rewrite Hcheck. simpl. reflexivity. }
  split; [|split].
  - split; [done|]. simpl. unfold Stats.increment.
    split; intros c Hc; by rewrite lookup_insert_eq, Hc.
  - intros err w2 Hthrow. eexists. rewrite Hrun.
    unfold bind, try_catch. rewrite Hthrow. simpl.
    split; [reflexivity|]. simpl. rewrite <- !app_assoc. done.
  - intros w2 Hret. rewrite Hrun. unfold bind, try_catch. by rewrite Hret.
Qed.

(** A handler that replies and then throws: the router adds the error
    line, the report, the generic reply and the failed use; the counter of
    the command is one. *)
Lemma failing_handler_is_contained_witness :
  let interaction := Sample.command (Sample.inGuild "boom" Sample.unmuted) in
  let w := Sample.world ["answer"; "ban"; "boom"] [] Sample.env in
  (Server.handleRequest Sample.server interaction w).1 = Returned tt ∧
  w_log (Server.handleRequest Sample.server interaction w).2 =
    [EReply (reply_text "working on it");
     EConsoleErrorThrown (OtherError "boom");
     ESentryCapture
       {| x_user := "alice#0001 (1001)"; x_command := "boom";
          x_args := "[]"; x_channelId := "500" |} (OtherError "boom");
     EReply Server.failureReply;
     ETrackCommandUse "boom" false] ∧
  Stats.commands (w_stats (Server.handleRequest Sample.server interaction w).2)
    !! "boom" = Some (Stats.Num 1).
Proof.
  intros interaction w.
  destruct (failing_handler_is_contained Sample.server interaction Sample.boom
              w eq_refl eq_refl (or_introl eq_refl) eq_refl eq_refl)
    as (_ & Hthrow & _).
  destruct (Hthrow (OtherError "boom")
              (log_event (EReply (reply_text "working on it"))
                 (set_stats (Stats.statistics "boom" (w_stats w)) w))
              eq_refl) as (w3 & Hrun & Hlog & Hstats & _).
  rewrite Hrun. split; [reflexivity|]. split.
  - exact Hlog.
  - cbn [snd]. rewrite Hstats. reflexivity.
Defined.

(** ** The public API *)

Lemma append_assoc (a b c : string) : (a +:+ b) +:+ c = a +:+ b +:+ c.
Proof.
  induction a as [|x a IH]; [done|].
  change (String x ((a +:+ b) +:+ c) = String x (a +:+ b +:+ c)).
  by f_equal.
Qed.

Lemma append_empty_r (a : string) : a +:+ "" = a.
Proof.
  induction a as [|x a IH]; [done|].
  change (String x (a +:+ "") = String x a). by f_equal.
Qed.

Lemma occurs_join (sep x : string) (l : list string) :
  x ∈ l → occurs x (join sep l).
Proof.
  induction l as [|y l IH]; intros Hin; [by apply elem_of_nil in Hin|].
  destruct l as [|z l].
  - apply list_elem_of_singleton in Hin as ->. exists "", "". simpl.
    by rewrite append_empty_r.
  - apply elem_of_cons in Hin as [->|Hin].
    + exists "", (sep +:+ join sep (z :: l)). done.
    + destruct (IH Hin) as (before & after & Heq).
      exists (y +:+ sep +:+ before), after.
      change (join sep (y :: z :: l)) with (y +:+ sep +:+ join sep (z :: l)).
      by rewrite Heq, !append_assoc.
Qed.

Lemma occurs_quoted (q : string) (values : list string) (prefix : string) :
  q ∈ values →
  occurs ("'" +:+ q +:+ "'") (prefix +:+ Server.quoted values).
Proof.
  intros Hin. unfold Server.quoted.
  destruct (occurs_join " " ("'" +:+ q +:+ "'")
              ((λ q, "'" +:+ q +:+ "'") <$> values)) as (before & after & Heq).
  { by apply (list_elem_of_fmap_2 (λ q, "'" +:+ q +:+ "'")). }
  exists (prefix +:+ before), after. by rewrite Heq, !append_assoc.
Qed.

Lemma checkRatings_rejects (server : Server.t)
    (before after : list Server.QueryItem) (q : Server.QueryItem) :
  Forall Server.isString before →
  Server.notARating server q →
  Server.checkRatings server (before ++ q :: after) =
    Returned (Some (Server.badRating server)).
Proof.
  intros Hbefore Hq. induction Hbefore as [|x before Hx _ IH]; simpl.
  - destruct q as [s|[]]; simpl in Hq; [|done|done].
    by rewrite bool_decide_eq_false_2.
  - destruct x as [s|]; [|done]. by case_bool_decide.
Qed.

(** C9, as amended.  For a question type and rating values that are ASCII
    strings, where [toUpperCase] is the method of JavaScript: [handleAPI]
    compares the upper-cased question type
    and rating values with the enumerations.  A question type whose
    upper-cased form is not an enumerated type is answered with status 400
    and a message in which every enumerated type occurs, and nothing else is
    done.  With a valid type and a rating parameter that is not falsy, a
    value that is no string or whose upper-cased form is not an enumerated
    rating (with only strings before it) is answered with status 400 and a
    message in which every enumerated rating occurs.  With a valid type and
    no rating parameter, or an empty one, one question is fetched with
    exactly the rating R excluded and is returned with status 200. *)
Theorem handleAPI_validation (server : Server.t) (param : string)
    (rating : Server.Query) (w : World) :
  isASCII param = true →
  Server.asciiQuery rating = true →
  let questionType := toUpperCase param in
  (questionType ∉ Server.QuestionType server →
   Server.handleAPI server param rating w =
     (Returned (Server.badQuestionType server), w)) ∧
  (questionType ∈ Server.QuestionType server →
   Server.falsy rating = false →
   ∀ before q after,
     Server.toArray rating = before ++ q :: after →
     Forall Server.isString before →
     Server.notARating server q →
     Server.handleAPI server param rating w =
       (Returned (Server.badRating server), w)) ∧
  (questionType ∈ Server.QuestionType server →
   rating = Server.QUndefined ∨ rating = Server.QOne (Server.QString "") →
   Server.handleAPI server param rating w =
     (let* question := Database.getRandomQuestion questionType ["R"] in
      ret {| Server.status := 200;
             Server.res_body := Server.BQuestion question |}) w ∧
   w_log (Server.handleAPI server param rating w).2 =
     w_log w ++ [EGetRandomQuestion questionType ["R"]]) ∧
  (Server.status (Server.badQuestionType server) = 400 ∧
   ∀ q, q ∈ Server.QuestionType server →
        ∃ message,
          Server.res_body (Server.badQuestionType server) =
            Server.BError message ∧
          occurs ("'" +:+ q +:+ "'") message) ∧
  (Server.status (Server.badRating server) = 400 ∧
   ∀ r, r ∈ Server.Rating server →
        ∃ message,
          Server.res_body (Server.badRating server) = Server.BError message ∧
          occurs ("'" +:+ r +:+ "'") message).
Proof.
  intros _ _ questionType. split; [|split; [|split; [|split]]].
  - intros Hbad. unfold Server.handleAPI. fold questionType.
    by rewrite bool_decide_eq_false_2.
  - intros Hok Hrating before q after Harray Hbefore Hq.
    unfold Server.handleAPI. fold questionType.
    rewrite (bool_decide_eq_true_2 _ Hok), Hrating. simpl.
    by rewrite Harray, checkRatings_rejects.
  - intros Hok Hrating.
    assert (Server.falsy rating = true) as Hfalsy
      by (by destruct Hrating as [->| ->]).
    assert (Server.handleAPI server param rating w =
      (let* question := Database.getRandomQuestion questionType ["R"] in
       ret {| Server.status := 200;
              Server.res_body := Server.BQuestion question |}) w) as Hrun.
    { unfold Server.handleAPI. fold questionType.
      by rewrite (bool_decide_eq_true_2 _ Hok), Hfalsy. }
    split; [done|]. rewrite Hrun.
    unfold bind, Database.getRandomQuestion.
    by destruct (db_getRandomQuestion _ _ _ _).
  - split; [done|]. intros q Hq. eexists. split; [reflexivity|].
    by apply occurs_quoted.
  - split; [done|]. intros r Hr. eexists. split; [reflexivity|].
    by apply occurs_quoted.
Qed.

(** The type [foo], and a rating list whose second value is no rating. *)
Lemma handleAPI_validation_witness :
  let w := Sample.world [] [] Sample.env in
  (toUpperCase "foo" ∉ Server.QuestionType Sample.server) ∧
  Server.handleAPI Sample.server "foo" Server.QUndefined w =
    (Returned
       {| Server.status := 400;
          Server.res_body :=
            Server.BError
              "The question type must be one of the following: 'TRUTH' 'DARE' 'WYR' 'NHIE' 'PARANOIA'" |},
     w) ∧
  Server.handleAPI Sample.server "truth"
    (Server.QMany [Server.QString "pg"; Server.QString "XX"]) w =
    (Returned
       {| Server.status := 400;
          Server.res_body :=
            Server.BError
              "The rating must be one of the following: 'PG' 'PG13' 'R'" |},
     w).
Proof.
  intros w.
  assert (toUpperCase "foo" ∉ Server.QuestionType Sample.server) as Hfoo.
  { intros Hin. vm_compute in Hin. absent_event Hin. }
  assert (toUpperCase "truth" ∈ Server.QuestionType Sample.server) as Htruth.
  { by left. }
  assert (Server.notARating Sample.server (Server.QString "XX")) as Hxx.
  { intros Hin. vm_compute in Hin. absent_event Hin. }
  split; [exact Hfoo|]. split.
  - destruct (handleAPI_validation Sample.server "foo" Server.QUndefined w
                eq_refl eq_refl)
      as (Hbad & _).
    exact (Hbad Hfoo).
  - destruct (handleAPI_validation Sample.server "truth"
                (Server.QMany [Server.QString "pg"; Server.QString "XX"]) w
                eq_refl eq_refl)
      as (_ & Hrating & _).
    apply (Hrating Htruth eq_refl [Server.QString "pg"] (Server.QString "XX")
             []); [reflexivity| |exact Hxx].
    repeat constructor.
Defined.

(** C9, the claim as it was stated, fails on values that are outside the
    enumerations as written.  The question type [truth] is not one of the
    enumerated types, and the request is answered with a question.  The
    rating values [pg] and the empty string are not enumerated ratings; the
    first is taken for PG and the second for no rating at all, and both
    requests are answered with a question. *)
Lemma handleAPI_accepts_lower_case_and_empty_rating :
  let w := Sample.world [] [] Sample.env in
  let question type :=
    {| q_id := "q1"; q_type := type; q_rating := "PG"; q_question := "?" |} in
  ("truth" ∉ Server.QuestionType Sample.server) ∧
  Server.handleAPI Sample.server "truth" Server.QUndefined w =
    (Returned {| Server.status := 200;
                 Server.res_body := Server.BQuestion (question "TRUTH") |},
     log_event (EGetRandomQuestion "TRUTH" ["R"]) w) ∧
  ("" ∉ Server.Rating Sample.server) ∧
  Server.handleAPI Sample.server "DARE" (Server.QOne (Server.QString "")) w =
    (Returned {| Server.status := 200;
                 Server.res_body := Server.BQuestion (question "DARE") |},
     log_event (EGetRandomQuestion "DARE" ["R"]) w) ∧
  ("pg" ∉ Server.Rating Sample.server) ∧
  Server.handleAPI Sample.server "DARE" (Server.QOne (Server.QString "pg")) w =
    (Returned {| Server.status := 200;
                 Server.res_body := Server.BQuestion (question "DARE") |},
     log_event (ETrackAPIRequest "DARE" "PG")
       (log_event (EGetRandomQuestion "DARE" ["PG13"; "R"]) w)).
Proof.
  intros w question.
  repeat split; try reflexivity;
    intros Hin; vm_compute in Hin; absent_event Hin.
Qed.

(** ** The routes and the rate limiter *)

Lemma matches_mount (req : Server.Request) (mount group : string)
    (rest : list string) :
  Server.path req = group :: rest →
  Server.matches (Server.Mount [mount]) req =
    if bool_decide (mount = group) then Some [] else None.
Proof.
  intros Hp. unfold Server.matches. rewrite Hp. simpl.
  by rewrite andb_true_r.
Qed.

Lemma handle_api_group (server : Server.t) (req : Server.Request)
    (group : string) (rest : list string) :
  Server.path req = group :: rest →
  group = "api" ∨ group = "v1" →
  Server.handle server req =
    Server.rateLimit Server.APIRateLimit req
      (Server.dispatch server
         (drop (if bool_decide (group = "api") then 1 else 2) Server.routes)
         req).
Proof.
  intros Hp Hg. unfold Server.handle, Server.routes.
  destruct Hg as [-> | ->].
  - rewrite bool_decide_eq_true_2 by done. cbn [drop].
    cbn [Server.dispatch]. rewrite (matches_mount req "api" "api" rest Hp).
    by rewrite bool_decide_eq_true_2.
  - rewrite bool_decide_eq_false_2 by done. cbn [drop].
    cbn [Server.dispatch]. rewrite (matches_mount req "api" "v1" rest Hp).
    rewrite (matches_mount req "v1" "v1" rest Hp).
    rewrite bool_decide_eq_false_2 by done.
    by rewrite bool_decide_eq_true_2.
Qed.

(** C2, as amended.  The rate limiter is mounted on the path groups
    [/api/] and [/v1/] of the public API, keyed by the address of the
    request, and comes before everything else there: a request the limiter
    rejects is answered at once with status 429 and nothing else happens
    (no question is fetched, nothing is logged, no counter changes).  The
    webhook route [/interactions] does not pass through the limiter: a
    signed interaction always reaches [handleRequest], whatever the state
    of the limiter. *)
Theorem rate_limit_guards_api_routes_only (server : Server.t)
    (req : Server.Request) (w : World) :
  (∀ group rest,
     Server.path req = group :: rest →
     group = "api" ∨ group = "v1" →
     Server.handle server req =
       Server.rateLimit Server.APIRateLimit req
         (Server.dispatch server
            (drop (if bool_decide (group = "api") then 1 else 2) Server.routes)
            req) ∧
     ((RateLimit.hit Server.APIRateLimit (Server.now req) (Server.ip req)
         (w_rateLimit w)).2 = false →
      ∃ w',
        Server.handle server req w =
          (Returned (Server.Responded Server.tooManyRequests), w') ∧
        Server.status Server.tooManyRequests = 429 ∧
        w_log w' = w_log w ∧ w_stats w' = w_stats w ∧
        w_paranoia w' = w_paranoia w)) ∧
  (Server.method req = Server.POST →
   Server.path req = ["interactions"] →
   Server.signatureValid req = true →
   Server.handle server req w =
     (Server.handleRequest server (Server.body req) >>
      ret Server.ViaContext) w).
Proof.
  split.
  - intros group rest Hp Hg. split; [by apply (handle_api_group _ _ _ rest)|].
    intros Hrejected. rewrite (handle_api_group server req group rest Hp Hg).
    unfold Server.rateLimit.
    destruct (RateLimit.hit _ _ _ _) as [store admitted].
    simpl in Hrejected. subst admitted. eexists. split; [reflexivity|]. done.
  - intros Hm Hp Hsig. rewrite handle_interactions by done. by rewrite Hsig.
Qed.

(** Six requests of one address to [/v1/truth] at one instant: five are
    answered with a question and the sixth with 429. *)
Lemma rate_limit_guards_api_routes_only_witness :
  let w := Sample.world ["answer"; "ban"; "boom"] [] Sample.env in
  let req := Sample.api 0 "v1" "truth" Server.QUndefined in
  omap (λ r, match r with
             | Returned (Server.Responded r) => Some (Server.status r)
             | _ => None
             end)
    (Server.handleAll Sample.server (replicate 6 req) w).1
    = [200; 200; 200; 200; 200; 429] ∧
  ∃ w', Server.handle Sample.server req
          (Server.handleAll Sample.server (replicate 5 req) w).2 =
          (Returned (Server.Responded Server.tooManyRequests), w').
Proof.
  intros w req. split; [reflexivity|].
  destruct (rate_limit_guards_api_routes_only Sample.server req
              (Server.handleAll Sample.server (replicate 5 req) w).2)
    as [Hapi _].
  destruct (Hapi "v1" ["truth"] eq_refl (or_intror eq_refl)) as [_ Hreject].
  destruct (Hreject eq_refl) as (w' & Hrun & _).
  exists w'. exact Hrun.
Defined.

(** C2, the claim as it was stated, fails: the webhook is not rate
    limited.  Six signed [answer] interactions of one caller, from one
    address, at one instant all reach the router: each one runs the handler
    (which finds no pending question and says so), the total of the minute
    and the counter of the command count six, and the limiter holds no
    window at all. *)
Lemma webhook_is_not_rate_limited :
  let w := Sample.world ["answer"; "ban"; "boom"] [] Sample.env in
  let req := Sample.webhook 0 (Sample.command Sample.answering) in
  let run := Server.handleAll Sample.server (replicate 6 req) w in
  run.1 = replicate 6 (Returned Server.ViaContext) ∧
  Stats.minuteCommandCount (w_stats run.2) = 6 ∧
  Stats.commands (w_stats run.2) !! "answer" = Some (Stats.Num 6) ∧
  w_log run.2 =
    mjoin (replicate 6 [EGetNextParanoia "1001";
                        EReply Answer.noActiveReply;
                        ETrackCommandUse "answer" true]) ∧
  w_rateLimit run.2 = ∅.
Proof. vm_compute. done. Qed.

(** * Further properties of the sources *)

(** ** [deepEquals] and [deepCopy] *)

Lemma value_induction (P : Value.t → Prop) :
  P Value.Undefined → P Value.Null →
  (∀ b, P (Value.Bool b)) → (∀ z, P (Value.Number z)) →
  (∀ s, P (Value.Str s)) → (∀ id, P (Value.Function id)) →
  (∀ items, Forall P items → P (Value.Array items)) →
  (∀ entries, Forall (λ kv, P kv.2) entries → P (Value.Object entries)) →
  ∀ v, P v.
Proof.
  intros HU HN HB HZ HS HF HA HO. fix IH 1. intros [| |b|z|s|id|items|entries].
  - exact HU.
  - exact HN.
  - exact (HB b).
  - exact (HZ z).
  - exact (HS s).
  - exact (HF id).
  - apply HA. induction items as [|a items IHitems]; constructor;
      [apply IH|exact IHitems].
  - apply HO. induction entries as [|[k a] entries IHentries];
      constructor; [apply IH|exact IHentries].
Qed.

Lemma wf_array (items : list Value.t) :
  Value.wf (Value.Array items) ↔ Forall Value.wf items.
Proof.
  simpl. induction items as [|a items IH]; simpl.
  - split; [constructor|done].
  - rewrite Forall_cons. by rewrite IH.
Qed.

Lemma wf_object (entries : list (string * Value.t)) :
  Value.wf (Value.Object entries) ↔
  NoDup entries.*1 ∧ Forall (λ kv, Value.wf kv.2) entries.
Proof.
  simpl. apply and_iff_compat_l.
  induction entries as [|a entries IH]; simpl.
  - split; [constructor|done].
  - rewrite Forall_cons. by rewrite IH.
Qed.

Lemma get_not_in (key : string) (entries : list (string * Value.t)) :
  key ∉ entries.*1 → Value.get key entries = None.
Proof.
  induction entries as [|[k v] entries IH]; [done|]. simpl.
  intros Hnot. apply not_elem_of_cons in Hnot as [Hne Hnot].
  rewrite bool_decide_eq_false_2 by done. by apply IH.
Qed.

Lemma get_elem_of (key : string) (v : Value.t)
    (entries : list (string * Value.t)) :
  NoDup entries.*1 → (key, v) ∈ entries → Value.get key entries = Some v.
Proof.
  induction entries as [|[k x] entries IH]; intros Hnd Hin.
  - by apply elem_of_nil in Hin.
  - simpl in *. apply NoDup_cons in Hnd as [Hk Hnd].
    apply elem_of_cons in Hin as [[= -> ->]|Hin].
    + by rewrite bool_decide_eq_true_2.
    + rewrite bool_decide_eq_false_2; [by apply IH|].
      intros ->. apply Hk. by apply (list_elem_of_fmap_2 fst _ (key, v)).
Qed.

Lemma set_new (key : string) (v : Value.t) (entries : list (string * Value.t)) :
  key ∉ entries.*1 → Value.set key v entries = entries ++ [(key, v)].
Proof.
  induction entries as [|[k x] entries IH]; [done|]. simpl.
  intros Hnot. apply not_elem_of_cons in Hnot as [Hne Hnot].
  rewrite bool_decide_eq_false_2 by done. by rewrite IH.
Qed.

Lemma fromEntries_distinct (entries : list (string * Value.t)) :
  NoDup entries.*1 → Value.fromEntries entries = entries.
Proof.
  unfold Value.fromEntries.
  cut (∀ acc, NoDup (acc ++ entries).*1 →
              foldl (λ obj kv, Value.set kv.1 kv.2 obj) acc entries =
                acc ++ entries).
  { intros H Hnd. by apply (H []). }
  induction entries as [|[k v] entries IH]; intros acc Hnd; simpl.
  - by rewrite app_nil_r.
  - rewrite set_new.
    + rewrite IH; rewrite <- app_assoc; done.
    + rewrite fmap_app in Hnd. apply NoDup_app in Hnd as (_ & Hdisj & _).
      intros Hin. apply (Hdisj k Hin). by left.
Qed.

Lemma every_accepts {A} (f : A → nat → Outcome bool) (before l : list A) :
  (∀ i a, l !! i = Some a → f a (length before + i)%nat = Returned true) →
  Value.every f l (length before) = Returned true.
Proof.
  revert before. induction l as [|a l IH]; intros before Hall; [done|].
  simpl. rewrite <- (Nat.add_0_r (length before)) at 1.
  rewrite (Hall 0%nat a eq_refl).
  replace (S (length before)) with (length (before ++ [a]))
    by (rewrite length_app; simpl; lia).
  apply IH. intros i x Hx. rewrite length_app. simpl.
  replace (length before + 1 + i)%nat with (length before + S i)%nat by lia.
  by apply Hall.
Qed.

Lemma every_ext {A} (f g : A → nat → Outcome bool) (l : list A) (i : nat) :
  (∀ a j, a ∈ l → f a j = g a j) → Value.every f l i = Value.every g l i.
Proof.
  revert i. induction l as [|a l IH]; intros i Hfg; [done|]. simpl.
  rewrite (Hfg a i) by by left.
  destruct (g a i) as [[|]|]; try done. apply IH.
  intros x j Hx. apply Hfg. by right.
Qed.

Lemma deepEquals_object_agreeing (entries1 entries2 : list (string * Value.t))
    (ignoreList : list string) :
  (∀ kv, kv ∈ entries1 → kv.1 ∉ ignoreList →
         ∃ v2, Value.get kv.1 entries2 = Some v2 ∧
               Value.deepEquals kv.2 v2 ignoreList = Returned true) →
  Value.deepEquals (Value.Object entries1) (Value.Object entries2) ignoreList
    = Returned true.
Proof.
  intros Hall. simpl. apply (every_accepts _ []).
  intros i kv Hkv. case_bool_decide as Hign; [done|].
  destruct (Hall kv) as (v2 & -> & Heq);
    [by apply list_elem_of_lookup_2 in Hkv|done|done].
Qed.

Lemma deepEquals_refl (ignoreList : list string) (v : Value.t) :
  Value.wf v → Value.deepEquals v v ignoreList = Returned true.
Proof.
  induction v as [| |b|z|s|id|items IH|entries IH] using value_induction;
    intros Hwf.
  - done.
  - done.
  - simpl. by rewrite bool_decide_eq_true_2.
  - simpl. by rewrite bool_decide_eq_true_2.
  - simpl. by rewrite bool_decide_eq_true_2.
  - simpl. by rewrite bool_decide_eq_true_2.
  - apply wf_array in Hwf. simpl. rewrite bool_decide_eq_true_2 by done.
    apply (every_accepts _ []). intros i a Ha. simpl. rewrite Ha. simpl.
    rewrite Forall_forall in IH, Hwf.
    apply list_elem_of_lookup_2 in Ha. by apply IH, Hwf.
  - apply wf_object in Hwf as [Hnd Hwf]. apply deepEquals_object_agreeing.
    intros [k v] Hin _. exists v. split; [by apply get_elem_of|].
    rewrite Forall_forall in IH, Hwf. by apply (IH (k, v)), (Hwf (k, v)).
Qed.

Lemma deepCopy_id (v : Value.t) : Value.wf v → Value.deepCopy v = v.
Proof.
  induction v as [| |b|z|s|id|items IH|entries IH] using value_induction;
    intros Hwf; try done.
  - apply wf_array in Hwf. simpl. f_equal.
    induction items as [|a items IHitems]; [done|].
    apply Forall_cons in IH as [Ha IH]. apply Forall_cons in Hwf as [Hwa Hwf].
    simpl. f_equal; [by apply Ha|by apply IHitems].
  - apply wf_object in Hwf as [Hnd Hwf]. simpl. f_equal.
    assert (((λ kv : string * Value.t, (kv.1, Value.deepCopy kv.2)) <$> entries)
            = entries) as ->.
    { clear Hnd. induction entries as [|[k a] entries IHentries]; [done|].
      apply Forall_cons in IH as [Ha IH]. apply Forall_cons in Hwf as [Hwa Hwf].
      simpl in *. f_equal; [by rewrite Ha|by apply IHentries]. }
    by apply fromEntries_distinct.
Qed.

(** X1.  [deepCopy] returns a value with the same content, and
    [deepEquals] accepts a value against itself and against its copy,
    whatever the ignore list: neither throws on a value whose objects have
    distinct keys. *)
Theorem deepCopy_is_deepEqual (v : Value.t) (ignoreList : list string) :
  Value.wf v →
  Value.deepCopy v = v ∧
  Value.deepEquals v v ignoreList = Returned true ∧
  Value.deepEquals v (Value.deepCopy v) ignoreList = Returned true ∧
  Value.deepEquals (Value.deepCopy v) v ignoreList = Returned true.
Proof.
  intros Hwf. rewrite (deepCopy_id v Hwf).
  by rewrite (deepEquals_refl ignoreList v Hwf).
Qed.

(** The descriptor of [truth], with its nested options, against its copy. *)
Lemma deepCopy_is_deepEqual_witness :
  Value.wf (Value.Object Cases.truth) ∧
  Value.deepEquals (Value.Object Cases.truth)
    (Value.deepCopy (Value.Object Cases.truth)) Registry.ignoreList =
  Returned true.
Proof.
  assert (Value.wf (Value.Object Cases.truth)) as Hwf.
  { simpl. repeat split; compute_done. }
  split; [exact Hwf|].
  exact (proj1 (proj2 (proj2
           (deepCopy_is_deepEqual _ Registry.ignoreList Hwf)))).
Defined.

(** X2.  [deepEquals] is a one-way check: of the second object it reads
    only the properties that the first object has and that are not
    ignored.  Two second objects that agree on those give the same result,
    so properties that only the second object has are never seen. *)
Theorem deepEquals_reads_keys_of_first
    (entries1 entries2 entries2' : list (string * Value.t))
    (ignoreList : list string) :
  (∀ key, key ∈ entries1.*1 → key ∉ ignoreList →
          Value.get key entries2' = Value.get key entries2) →
  Value.deepEquals (Value.Object entries1) (Value.Object entries2')
    ignoreList =
  Value.deepEquals (Value.Object entries1) (Value.Object entries2) ignoreList.
Proof.
  intros Hsame. simpl. apply every_ext. intros [k v] _ Hin.
  case_bool_decide as Hign; [done|]. simpl in *.
  rewrite Hsame; [done| |done]. by apply (list_elem_of_fmap_2 fst _ (k, v)).
Qed.

(** The identifier and the version that the platform adds to a command are
    not seen. *)
Lemma deepEquals_reads_keys_of_first_witness :
  (∀ key, key ∈ Cases.ping.*1 → key ∉ Registry.ignoreList →
          Value.get key Cases.pingListed =
            Value.get key [("name", Value.Str "ping");
                           ("description",
                            Value.Str "Check if the bot is online.")]) ∧
  Value.deepEquals (Value.Object Cases.ping) (Value.Object Cases.pingListed)
    Registry.ignoreList = Returned true.
Proof.
  assert (∀ key, key ∈ Cases.ping.*1 → key ∉ Registry.ignoreList →
            Value.get key Cases.pingListed =
              Value.get key [("name", Value.Str "ping");
                             ("description",
                              Value.Str "Check if the bot is online.")])
    as Hsame.
  { intros key Hin Hnot. simpl in Hin.
    repeat (apply elem_of_cons in Hin as [->|Hin];
            [first [reflexivity|exfalso; apply Hnot; compute_done]|]).
    by apply elem_of_nil in Hin. }
  split; [exact Hsame|].
  exact (eq_trans
           (deepEquals_reads_keys_of_first _ _ _ Registry.ignoreList Hsame)
           eq_refl).
Defined.

(** X3.  A property of the first object whose key is in the ignore list is
    not compared: its value can be anything, and the second object need
    not have it. *)
Theorem deepEquals_skips_ignored
    (before after : list (string * Value.t)) (key : string)
    (x y : Value.t) (obj2 : Value.t) (ignoreList : list string) :
  key ∈ ignoreList →
  Value.deepEquals (Value.Object (before ++ (key, x) :: after)) obj2
    ignoreList =
  Value.deepEquals (Value.Object (before ++ (key, y) :: after)) obj2
    ignoreList.
Proof.
  intros Hign. simpl.
  destruct (negb _); [done|]. destruct (negb _); [done|].
  generalize 0%nat. induction before as [|[k v] before IH]; intros i; simpl.
  - by rewrite !(bool_decide_eq_true_2 _ Hign).
  - by rewrite IH.
Qed.

(** The handler of a command is not compared. *)
Lemma deepEquals_skips_ignored_witness :
  "run" ∈ Registry.ignoreList ∧
  Value.deepEquals
    (Value.Object [("name", Value.Str "ping"); ("run", Value.Function 1)])
    (Value.Object [("name", Value.Str "ping")]) Registry.ignoreList =
  Value.deepEquals
    (Value.Object [("name", Value.Str "ping"); ("run", Value.Null)])
    (Value.Object [("name", Value.Str "ping")]) Registry.ignoreList.
Proof.
  assert ("run" ∈ Registry.ignoreList) as Hin by compute_done.
  split; [exact Hin|].
  exact (deepEquals_skips_ignored [("name", Value.Str "ping")] [] "run"
           (Value.Function 1) Value.Null
           (Value.Object [("name", Value.Str "ping")]) Registry.ignoreList
           Hin).
Defined.

(** ** [compareCommands] and [updateCommands] *)

Lemma some_rejects {A} (f : A → Outcome bool) (l : list A) :
  (∀ a, a ∈ l → f a = Returned false) → Registry.some f l = Returned false.
Proof.
  induction l as [|a l IH]; intros Hall; [done|]. simpl.
  rewrite (Hall a) by by left. apply IH. intros x Hx. apply Hall. by right.
Qed.

Lemma some_app {A} (f : A → Outcome bool) (l1 l2 : list A) :
  Registry.some f l1 = Returned false →
  Registry.some f (l1 ++ l2) = Registry.some f l2.
Proof.
  induction l1 as [|a l1 IH]; [done|]. simpl.
  destruct (f a) as [[|]|]; try done.
Qed.

Lemma deepEquals_agrees (com c : Registry.Descriptor) :
  Value.wf (Value.Object com) →
  Registry.agrees com c →
  Value.deepEquals (Value.Object com) (Value.Object c) Registry.ignoreList
    = Returned true.
Proof.
  intros [_ Hwf]%wf_object Hagree. apply deepEquals_object_agreeing.
  intros [k v] Hin Hign. exists v. split; [by apply Hagree|].
  rewrite Forall_forall in Hwf. by apply deepEquals_refl, (Hwf (k, v)).
Qed.

(** X4.  [compareCommands] reports no change when every command has a
    namesake on the platform that carries, with the same values, all the
    properties of the command other than [category], [perms] and [run].
    What else the platform's objects carry does not matter. *)
Theorem compareCommands_no_change
    (commands commandList : list Registry.Descriptor) :
  Forall (λ com, Value.wf (Value.Object com)) commands →
  (∀ com, com ∈ commands →
          ∃ c, Registry.find com commandList = Value.Object c ∧
               Registry.agrees com c) →
  Registry.compareCommands commands commandList = Returned false.
Proof.
  intros Hwf Hall. apply some_rejects. intros com Hin.
  destruct (Hall com Hin) as (c & -> & Hagree).
  rewrite Forall_forall in Hwf. by rewrite deepEquals_agrees; [| apply Hwf|].
Qed.

(** Two commands and what the platform lists for them. *)
Lemma compareCommands_no_change_witness :
  Forall (λ com, Value.wf (Value.Object com)) [Cases.ping; Cases.truth] ∧
  Registry.compareCommands [Cases.ping; Cases.truth]
    [Cases.truthListed; Cases.pingListed] = Returned false.
Proof.
  assert (Forall (λ com, Value.wf (Value.Object com))
            [Cases.ping; Cases.truth]) as Hwf.
  { repeat constructor; compute_done. }
  split; [exact Hwf|].
  apply (compareCommands_no_change _ _ Hwf).
  intros com Hin.
  apply elem_of_cons in Hin as [->|Hin];
    [|apply list_elem_of_singleton in Hin as ->];
    (eexists; split; [reflexivity|]);
    intros key v Hkv Hnot; simpl in Hkv;
    repeat (apply elem_of_cons in Hkv as [[= -> ->]|Hkv];
            [first [reflexivity|exfalso; apply Hnot; compute_done]|]);
    by apply elem_of_nil in Hkv.
Defined.

Lemma get_set_ne (key key' : string) (v : Value.t)
    (entries : list (string * Value.t)) :
  key' ≠ key → Value.get key' (Value.set key v entries) = Value.get key' entries.
Proof.
  intros Hne. induction entries as [|[k x] entries IH]; simpl.
  - by rewrite bool_decide_eq_false_2.
  - case_bool_decide as Hk; simpl.
    + subst k. by rewrite !bool_decide_eq_false_2 by done.
    + by rewrite IH.
Qed.

Lemma get_set_eq (key : string) (v : Value.t)
    (entries : list (string * Value.t)) :
  Value.get key (Value.set key v entries) = Some v.
Proof.
  induction entries as [|[k x] entries IH]; simpl.
  - by rewrite bool_decide_eq_true_2.
  - case_bool_decide as Hk; simpl.
    + by rewrite bool_decide_eq_true_2.
    + by rewrite bool_decide_eq_false_2.
Qed.

Lemma find_namesake (f : Registry.Descriptor → Registry.Descriptor)
    (commands : list Registry.Descriptor) (com : Registry.Descriptor) :
  (∀ c, Registry.nameOf (f c) = Registry.nameOf c) →
  (∀ c, c ∈ commands → ∃ s, Registry.nameOf c = Value.Str s) →
  NoDup (Registry.nameOf <$> commands) →
  com ∈ commands →
  Registry.find com (f <$> commands) = Value.Object (f com).
Proof.
  intros Hname Hstr Hnd Hin. unfold Registry.find.
  induction commands as [|c commands IH]; [by apply elem_of_nil in Hin|].
  simpl in *. apply NoDup_cons in Hnd as [Hc Hnd]. rewrite Hname.
  destruct (Hstr c) as [s Hs]; [by left|].
  destruct (Hstr com Hin) as [s' Hs'].
  assert (Value.strictEquals (Registry.nameOf c) (Registry.nameOf com)
          = bool_decide (s = s')) as -> by (by rewrite Hs, Hs').
  apply elem_of_cons in Hin as [->|Hin].
  - assert (s = s') as -> by congruence. by rewrite bool_decide_eq_true_2.
  - rewrite bool_decide_eq_false_2.
    + apply IH; [|done|done]. intros x Hx. apply Hstr. by right.
    + intros ->. apply Hc. rewrite Hs, <- Hs'.
      by apply (list_elem_of_fmap_2 Registry.nameOf).
Qed.

(** X5.  Publishing is idempotent.  For commands with distinct keys and
    distinct names that are strings, [compareCommands] reports no change
    against the commands themselves and against the body that
    [updateCommands] publishes (the commands with [perms] undefined); so
    when the platform holds what was published, [updateCommands] makes no
    request and logs nothing. *)
Theorem updateCommands_idempotent (commands : list Registry.Descriptor)
    (put : list Registry.Descriptor → Outcome unit) :
  Forall (λ com, Value.wf (Value.Object com)) commands →
  (∀ c, c ∈ commands → ∃ s, Registry.nameOf c = Value.Str s) →
  NoDup (Registry.nameOf <$> commands) →
  Registry.compareCommands commands commands = Returned false ∧
  Registry.compareCommands commands (Registry.withoutPerms <$> commands)
    = Returned false ∧
  Registry.updateCommands commands (Registry.withoutPerms <$> commands) put
    = (Returned tt, []).
Proof.
  intros Hwf Hstr Hnd.
  assert (∀ com, com ∈ commands → NoDup com.*1) as Hkeys.
  { intros com Hin. rewrite Forall_forall in Hwf.
    by apply (Hwf com Hin). }
  assert (Registry.compareCommands commands
            (Registry.withoutPerms <$> commands) = Returned false) as Hsame.
  { apply compareCommands_no_change; [done|]. intros com Hin.
    exists (Registry.withoutPerms com). split.
    - apply find_namesake; try done. intros c.
      unfold Registry.nameOf, Registry.withoutPerms. by rewrite get_set_ne.
    - intros key v Hkv Hign. unfold Registry.withoutPerms.
      rewrite get_set_ne; [apply get_elem_of; [by apply Hkeys|done]|].
      intros ->. apply Hign. unfold Registry.ignoreList. set_solver. }
  split; [|split; [done|]].
  - apply compareCommands_no_change; [done|]. intros com Hin. exists com.
    split.
    + rewrite <- (list_fmap_id commands) at 1.
      by apply (find_namesake id).
    + intros key v Hkv _. apply get_elem_of; [by apply Hkeys|done].
  - unfold Registry.updateCommands. by rewrite Hsame.
Qed.

(** With the published body on the platform, nothing is requested, even
    when every request would fail. *)
Lemma updateCommands_idempotent_witness :
  let commands := [Cases.ping; Cases.truth] in
  Forall (λ com, Value.wf (Value.Object com)) commands ∧
  NoDup (Registry.nameOf <$> commands) ∧
  Registry.updateCommands commands (Registry.withoutPerms <$> commands)
    (λ _, Threw (OtherError "offline")) = (Returned tt, []).
Proof.
  intros commands.
  assert (Forall (λ com, Value.wf (Value.Object com)) commands) as Hwf.
  { repeat constructor; compute_done. }
  assert (∀ c, c ∈ commands → ∃ s, Registry.nameOf c = Value.Str s)
    as Hnames.
  { intros c Hin.
    apply elem_of_cons in Hin as [->|Hin];
      [|apply list_elem_of_singleton in Hin as ->];
      eexists; reflexivity. }
  assert (NoDup (Registry.nameOf <$> commands)) as Hnd.
  { repeat (apply NoDup_cons_2;
            [intros Hin;
             repeat (apply elem_of_cons in Hin as [Hin|Hin];
                     [discriminate Hin|]);
             by apply elem_of_nil in Hin|]).
    apply NoDup_nil_2. }
  split; [exact Hwf|]. split; [exact Hnd|].
  exact (proj2 (proj2 (updateCommands_idempotent commands _ Hwf Hnames Hnd))).
Defined.

(** X6.  A command without a namesake on the platform is a change, when
    no command before it differs or throws: [compareCommands] reports it,
    and [updateCommands] then publishes every command with [perms]
    undefined and every other property as it is, and logs the number of
    commands when the request succeeds. *)
Theorem updateCommands_publishes_without_perms
    (before after : list Registry.Descriptor) (com : Registry.Descriptor)
    (commandList : list Registry.Descriptor)
    (put : list Registry.Descriptor → Outcome unit) :
  let commands := before ++ com :: after in
  let body := Registry.withoutPerms <$> commands in
  Registry.compareCommands before commandList = Returned false →
  Registry.find com commandList = Value.Undefined →
  Registry.compareCommands commands commandList = Returned true ∧
  (∀ c, c ∈ body →
        Value.get "perms" c = Some Value.Undefined) ∧
  (∀ c key, key ≠ "perms" →
            Value.get key (Registry.withoutPerms c) = Value.get key c) ∧
  (put body = Returned tt →
   Registry.updateCommands commands commandList put =
     (Returned tt,
      [Registry.Log "Updating commands..."; Registry.Put body;
       Registry.Success
         ("Updated " +:+ pretty.pretty (length commands) +:+
          " slash commands")])) ∧
  (∀ e, put body = Threw e →
        Registry.updateCommands commands commandList put =
          (Threw e, [Registry.Log "Updating commands..."; Registry.Put body])).
Proof.
  intros commands body Hbefore Hfind.
  assert (Registry.compareCommands commands commandList = Returned true)
    as Hchange.
  { unfold Registry.compareCommands, commands.
    rewrite some_app by exact Hbefore. simpl. by rewrite Hfind. }
  split; [done|]. split; [|split; [|split]].
  - intros c (c0 & -> & _)%list_elem_of_fmap. apply get_set_eq.
  - intros c key Hne. by apply get_set_ne.
  - intros Hput. unfold Registry.updateCommands. rewrite Hchange.
    fold body. by rewrite Hput.
  - intros e Hput. unfold Registry.updateCommands. rewrite Hchange.
    fold body. by rewrite Hput.
Qed.

(** A new command beside a listed one: both are published. *)
Lemma updateCommands_publishes_without_perms_witness :
  Registry.compareCommands [Cases.ping] [Cases.pingListed] = Returned false ∧
  Registry.find Cases.truth [Cases.pingListed] = Value.Undefined ∧
  Registry.updateCommands [Cases.ping; Cases.truth] [Cases.pingListed]
    (λ _, Returned tt) =
    (Returned tt,
     [Registry.Log "Updating commands...";
      Registry.Put (Registry.withoutPerms <$> [Cases.ping; Cases.truth]);
      Registry.Success "Updated 2 slash commands"]).
Proof.
  split; [reflexivity|]. split; [reflexivity|].
  destruct (updateCommands_publishes_without_perms [Cases.ping] []
              Cases.truth [Cases.pingListed] (λ _, Returned tt)
              eq_refl eq_refl) as (_ & _ & _ & Hput & _).
  exact (Hput eq_refl).
Defined.

(** ** [titleCase], [promoMessage], [avatarURL] and the labels of
    [checkPerms] *)

Lemma upper_ascii_idem (a : ascii) : upper_ascii (upper_ascii a) = upper_ascii a.
Proof. by destruct a as [[] [] [] [] [] [] [] []]. Qed.

Lemma lower_ascii_idem (a : ascii) :
  Text.lower_ascii (Text.lower_ascii a) = Text.lower_ascii a.
Proof. by destruct a as [[] [] [] [] [] [] [] []]. Qed.

Lemma upper_not_lower (a : ascii) : is_lower (upper_ascii a) = false.
Proof. by destruct a as [[] [] [] [] [] [] [] []]. Qed.

Lemma lower_not_upper (a : ascii) : is_upper (Text.lower_ascii a) = false.
Proof. by destruct a as [[] [] [] [] [] [] [] []]. Qed.

Lemma toLowerCase_idem (s : string) :
  Text.toLowerCase (Text.toLowerCase s) = Text.toLowerCase s.
Proof.
  induction s as [|a s IH]; [done|]. simpl. by rewrite lower_ascii_idem, IH.
Qed.

Lemma toLowerCase_length (s : string) :
  String.length (Text.toLowerCase s) = String.length s.
Proof. induction s as [|a s IH]; [done|]. simpl. by rewrite IH. Qed.

Lemma substring_all (s : string) : String.substring 0 (String.length s) s = s.
Proof. induction s as [|a s IH]; [done|]. simpl. by rewrite IH. Qed.

Lemma titleCase_cons (a : ascii) (r : string) :
  Text.titleCase (String a r) = String (upper_ascii a) (Text.toLowerCase r).
Proof.
  unfold Text.titleCase. simpl. rewrite Nat.sub_0_r, substring_all.
  by destruct r.
Qed.

(** X7.  On an ASCII string, where the case maps are those of
    JavaScript: [titleCase] keeps the length of the string, makes its
    first letter upper-case and every later letter lower-case, and applying
    it again changes nothing; the empty string stays empty. *)
Theorem titleCase_idempotent (str : string) :
  isASCII str = true →
  Text.titleCase (Text.titleCase str) = Text.titleCase str ∧
  String.length (Text.titleCase str) = String.length str ∧
  Text.titleCase "" = "" ∧
  ∀ a r, str = String a r →
         ∃ r', Text.titleCase str = String (upper_ascii a) r' ∧
               is_lower (upper_ascii a) = false ∧
               Text.toLowerCase r' = r'.
Proof.
  intros _. destruct str as [|a r].
  - repeat split; try done.
  - rewrite !titleCase_cons. split; [|split; [|split; [done|]]].
    + by rewrite upper_ascii_idem, toLowerCase_idem.
    + simpl. by rewrite toLowerCase_length.
    + intros a' r' [= <- <-]. eexists. split; [done|].
      split; [apply upper_not_lower|apply toLowerCase_idem].
Qed.

Lemma titleCase_idempotent_witness :
  isASCII "hELLO" = true ∧
  Text.titleCase "hELLO" = "Hello" ∧
  Text.titleCase (Text.titleCase "hELLO") = "Hello".
Proof.
  split; [reflexivity|]. split; [reflexivity|].
  exact (eq_trans (proj1 (titleCase_idempotent "hELLO" eq_refl)) eq_refl).
Defined.

Lemma floor_below (q : Q) (n : Z) :
  (0 <= q)%Q → (q < 1)%Q → 0 < n →
  0 ≤ Text.floor (q * inject_Z n) < n.
Proof.
  destruct q as [num den]. unfold Qle, Qlt, Text.floor. simpl.
  intros H0 H1 Hn. rewrite Z.mul_1_r in H0. rewrite Pos.mul_1_r.
  split.
  - apply Z.div_pos; nia.
  - apply Z.div_lt_upper_bound; nia.
Qed.

(** X8.  [promoMessage] never returns [undefined]: for a premium caller it
    is the empty string, and otherwise, for values of [Math.random] in the
    interval from 0 (included) to 1 (excluded), it is the empty string or
    one of the nine messages; it is the empty string whenever the first
    random value is 0.08 or more. *)
Theorem promoMessage_in_range (emote : string → string)
    (isPremium : option bool) (random1 random2 : Q) :
  (0 <= random2)%Q → (random2 < 1)%Q →
  (∃ s, Text.promoMessage emote isPremium random1 random2 = Some s ∧
        (s = "" ∨ s ∈ Text.promoMessages emote)) ∧
  Text.promoMessage emote (Some true) random1 random2 = Some "" ∧
  ((8 # 100 <= random1)%Q →
   Text.promoMessage emote isPremium random1 random2 = Some "").
Proof.
  intros H0 H1.
  assert (∃ s, Text.index (Text.promoMessages emote)
                 (Text.floor
                    (random2 *
                     inject_Z (Z.of_nat (length (Text.promoMessages emote)))))
               = Some s ∧ s ∈ Text.promoMessages emote) as (s & Hs & Hin).
  { pose proof (floor_below random2 9 H0 H1 ltac:(lia)) as Hfloor.
    change (Z.of_nat (length (Text.promoMessages emote))) with 9.
    unfold Text.index. rewrite (proj2 (Z.ltb_ge _ _)) by lia.
    destruct (lookup_lt_is_Some_2 (Text.promoMessages emote)
                (Z.to_nat (Text.floor (random2 * inject_Z 9)))) as [s Hs].
    { simpl. lia. }
    exists s. split; [done|]. by apply list_elem_of_lookup_2 in Hs. }
  split; [|split; [done|]].
  - unfold Text.promoMessage. destruct isPremium as [[|]|];
      try (by exists ""; split; [|left]);
      (destruct (Qlt_le_dec random1 (8 # 100));
       [exists s; split; [done|by right]|by exists ""; split; [|left]]).
  - intros Hge. unfold Text.promoMessage.
    destruct isPremium as [[|]|]; try done;
      (destruct (Qlt_le_dec random1 (8 # 100)) as [Hlt|]; [|done];
       exfalso; apply (Qlt_not_le _ _ Hlt Hge)).
Qed.

Lemma promoMessage_in_range_witness :
  (0 <= 1 # 2)%Q ∧ (1 # 2 < 1)%Q ∧
  ∃ s, Text.promoMessage Cases.emote None (1 # 100) (1 # 2) = Some s ∧
       (s = "" ∨ s ∈ Text.promoMessages Cases.emote).
Proof.
  assert (0 <= 1 # 2)%Q as Hlow by (unfold Qle; simpl; lia).
  assert (1 # 2 < 1)%Q as Hhigh by (unfold Qlt; simpl; lia).
  split; [exact Hlow|]. split; [exact Hhigh|].
  exact (proj1 (promoMessage_in_range Cases.emote None (1 # 100) (1 # 2)
                  Hlow Hhigh)).
Defined.

Lemma digits_mod5_range (s : string) (acc : Z) :
  Text.allDigits s = true → 0 ≤ acc < 5 →
  ∃ r, digits_mod5 acc s = Some r ∧ 0 ≤ r < 5.
Proof.
  revert acc. induction s as [|a s IH]; intros acc Hd Hacc; simpl in *.
  - by exists acc.
  - destruct (digit a) as [d|]; [|done]. apply IH; [done|].
    apply Z.mod_pos_bound. lia.
Qed.

(** X9.  For a user without an avatar whose discriminator is a string of
    at most 15 decimal digits (a number that JavaScript holds exactly),
    [avatarURL] is the address of one of the five default avatars, numbered
    0 to 4. *)
Theorem avatarURL_default_is_one_of_five (user : User) :
  u_avatar user = None ∨ u_avatar user = Some "" →
  (String.length (u_discriminator user) ≤ 15)%nat →
  Text.allDigits (u_discriminator user) = true →
  ∃ n, n ∈ ["0"; "1"; "2"; "3"; "4"] ∧
       Functions.avatarURL user =
         "https://cdn.discordapp.com//embed/avatars/" +:+ n +:+ ".png".
Proof.
  intros Havatar _ Hd.
  destruct (digits_mod5_range _ 0 Hd ltac:(lia)) as (r & Hr & Hrange).
  exists (show_digit r). split.
  - assert (r = 0 ∨ r = 1 ∨ r = 2 ∨ r = 3 ∨ r = 4) as Hcases by lia.
    destruct Hcases as [->|[->|[->|[->| ->]]]];
      [by left|by right; left|by do 2 right; left|by do 3 right; left
      |by do 4 right; left].
  - unfold Functions.avatarURL, number_mod5. rewrite Hr.
    by destruct Havatar as [-> | ->].
Qed.

Lemma avatarURL_default_is_one_of_five_witness :
  (String.length (u_discriminator Sample.alice) ≤ 15)%nat ∧
  Text.allDigits (u_discriminator Sample.alice) = true ∧
  ∃ n, n ∈ ["0"; "1"; "2"; "3"; "4"] ∧
       Functions.avatarURL Sample.alice =
         "https://cdn.discordapp.com//embed/avatars/" +:+ n +:+ ".png".
Proof.
  assert (String.length (u_discriminator Sample.alice) ≤ 15)%nat as Hlen
    by (simpl; lia).
  split; [exact Hlen|]. split; [reflexivity|].
  exact (avatarURL_default_is_one_of_five Sample.alice (or_introl eq_refl)
           Hlen eq_refl).
Defined.

Lemma withoutSpaces_spaceCapitals (s : string) :
  Text.withoutSpaces (spaceCapitals s) = Text.withoutSpaces s.
Proof.
  induction s as [|a s IH]; [done|].
  destruct s as [|b s]; [done|].
  change (spaceCapitals (String a (String b s))) with
    (if is_lower a && is_upper b
     then String a (String " " (spaceCapitals (String b s)))
     else String a (spaceCapitals (String b s))).
  destruct (is_lower a && is_upper b);
    cbn [Text.withoutSpaces]; rewrite ?IH;
    by rewrite ?(bool_decide_eq_true_2 (" "%char = " "%char)).
Qed.

Lemma withoutSpaces_id (s : string) :
  (∀ before after, s ≠ before +:+ String " " after) →
  Text.withoutSpaces s = s.
Proof.
  induction s as [|a s IH]; intros Hno; [done|]. simpl.
  case_bool_decide as Ha.
  - subst a. by destruct (Hno "" s).
  - f_equal. apply IH. intros before after ->.
    by apply (Hno (String a before) after).
Qed.

(** X10.  The label that [checkPerms] shows for a flag is the name of the
    flag with spaces added and nothing else changed: taking the spaces out
    of the label gives the name without its spaces, which is the name
    itself when it has none. *)
Theorem spaceCapitals_only_adds_spaces (s : string) :
  Text.withoutSpaces (spaceCapitals s) = Text.withoutSpaces s ∧
  ((∀ before after, s ≠ before +:+ String " " after) →
   Text.withoutSpaces (spaceCapitals s) = s).
Proof.
  split; [apply withoutSpaces_spaceCapitals|].
  intros Hno. rewrite withoutSpaces_spaceCapitals. by apply withoutSpaces_id.
Qed.

Lemma spaceCapitals_only_adds_spaces_witness :
  (∀ before after, "BanMembers" ≠ before +:+ String " " after) ∧
  Text.withoutSpaces (spaceCapitals "BanMembers") = "BanMembers".
Proof.
  assert (∀ before after, "BanMembers" ≠ before +:+ String " " after)
    as Hnone.
  { intros before after H.
    do 10 (destruct before as [|? before]; simpl in H;
           [discriminate H|injection H as _ H]).
    destruct before; discriminate H. }
  split; [exact Hnone|].
  exact (proj2 (spaceCapitals_only_adds_spaces "BanMembers") Hnone).
Defined.

(** ** The permission check, permission by permission *)

Lemma land_foldl_lor (bits : list Z) (a c : Z) :
  Z.land (foldl Z.lor a bits) c = 0 ↔
  Z.land a c = 0 ∧ Forall (λ b, Z.land b c = 0) bits.
Proof.
  revert a. induction bits as [|b bits IH]; intros a; simpl.
  - split; [by intros H; split; [|constructor]|by intros [H _]].
  - rewrite IH, Forall_cons, Z.land_lor_distr_l, Z.lor_eq_0_iff. tauto.
Qed.

(** X11.  [checkPerms] and [hasPermission] agree.  For a command whose
    permissions resolve, nothing is missing for a caller exactly when
    [hasPermission] holds of every permission of the command taken alone;
    so a command without permissions is never denied. *)
Theorem checkPerms_is_hasPermission_of_each (table : list (string * Z))
    (perms : list Permission) (required granted : Z) :
  Functions.requiredBits table perms = Some required →
  (Functions.missingBits required granted = 0 ↔
   ∀ perm, perm ∈ perms →
           Functions.hasPermission table perm (Some granted) = Some true) ∧
  (perms = [] → Functions.missingBits required granted = 0).
Proof.
  unfold Functions.requiredBits. intros Hreq.
  destruct (mapM (Functions.permBits table) perms) as [bits|] eqn:Hbits;
    [|done].
  injection Hreq as <-. apply mapM_Some in Hbits.
  split.
  - unfold Functions.missingBits. rewrite land_foldl_lor.
    rewrite Z.land_0_l. split.
    + intros [_ Hall] perm Hin.
      apply list_elem_of_lookup_1 in Hin as [i Hi].
      destruct (Forall2_lookup_l _ _ _ _ _ Hbits Hi) as (b & Hb & Hperm).
      unfold Functions.hasPermission. rewrite Hperm. simpl.
      rewrite Forall_forall in Hall.
      rewrite bool_decide_eq_true_2; [done|].
      apply Hall. by apply list_elem_of_lookup_2 in Hb.
    + intros Hall. split; [done|]. apply Forall_forall. intros b Hb.
      apply list_elem_of_lookup_1 in Hb as [i Hi].
      destruct (Forall2_lookup_r _ _ _ _ _ Hbits Hi) as (perm & Hp & Hperm).
      specialize (Hall perm (list_elem_of_lookup_2 _ _ _ Hp)).
      unfold Functions.hasPermission in Hall. rewrite Hperm in Hall.
      simpl in Hall. injection Hall as Hall.
      by apply bool_decide_eq_true in Hall.
  - intros ->. apply Forall2_nil_inv_l in Hbits as ->. done.
Qed.

Lemma checkPerms_is_hasPermission_of_each_witness :
  Functions.requiredBits Sample.flags (Command.perms Sample.ban) = Some 6 ∧
  ∀ perm, perm ∈ Command.perms Sample.ban →
          Functions.hasPermission Sample.flags perm (Some 7) = Some true.
Proof.
  split; [reflexivity|].
  destruct (checkPerms_is_hasPermission_of_each Sample.flags
              (Command.perms Sample.ban) 6 7 eq_refl) as [[Heach _] _].
  exact (Heach eq_refl).
Defined.

Lemma missing_monotone (required granted granted' : Z) :
  Z.land granted granted' = granted →
  Z.land required (Z.lnot granted) = 0 →
  Z.land required (Z.lnot granted') = 0.
Proof.
  intros Hsub Hzero. apply Z.bits_inj'. intros n Hn.
  apply (f_equal (λ z, Z.testbit z n)) in Hsub, Hzero.
  rewrite Z.land_spec in Hsub.
  rewrite Z.land_spec, Z.lnot_spec, Z.bits_0 in Hzero by done.
  rewrite Z.land_spec, Z.lnot_spec, Z.bits_0 by done.
  destruct (Z.testbit required n), (Z.testbit granted n),
    (Z.testbit granted' n); done.
Qed.

(** X12.  Granting more never takes access away: a call that [checkPerms]
    allows for a member is allowed, with nothing sent, for every member
    whose permissions include those of the first. *)
Theorem checkPerms_monotone (table : list (string * Z))
    (command : Command.t) (ctx ctx' : Context) (member member' : Member)
    (w : World) :
  ctx_member ctx = Some member →
  ctx_member ctx' = Some member' →
  Z.land (m_permissions member) (m_permissions member') =
    m_permissions member →
  (Functions.checkPerms table command ctx w).1 = Returned true →
  Functions.checkPerms table command ctx' w = (Returned true, w).
Proof.
  unfold Functions.checkPerms. intros -> -> Hsub.
  destruct (Functions.requiredBits table (Command.perms command))
    as [required|]; [|done].
  unfold Functions.missingBits.
  case_bool_decide as Hmissing; [done|]. intros _.
  rewrite bool_decide_eq_false_2; [done|].
  intros Hne. apply Hne. by apply (missing_monotone _ _ _ Hsub).
Qed.

Lemma checkPerms_monotone_witness :
  let w := Sample.world ["ban"] [] Sample.env in
  Z.land 6 63 = 6 ∧
  (Functions.checkPerms Sample.flags Sample.ban Cases.moderator w).1 =
    Returned true ∧
  Functions.checkPerms Sample.flags Sample.ban Cases.owner w =
    (Returned true, w).
Proof.
  intros w. split; [reflexivity|]. split; [reflexivity|].
  exact (checkPerms_monotone Sample.flags Sample.ban Cases.moderator
           Cases.owner _ _ w eq_refl eq_refl eq_refl eq_refl).
Defined.

(** ** The counters over a history *)

Lemma replay_snoc (history : list Client.Step) (e : Client.Step)
    (s : Stats.t) :
  Client.replay (history ++ [e]) s = Client.step (Client.replay history s) e.
Proof. unfold Client.replay. by rewrite foldl_app. Qed.

Lemma pending_snoc (history : list Client.Step) (e : Client.Step)
    (acc : list string) :
  Trace.pending (history ++ [e]) acc =
    match e with
    | Client.Dispatched name => Trace.pending history acc ++ [name]
    | Client.Minute => []
    end.
Proof.
  revert acc. induction history as [|x history IH]; intros acc; simpl.
  - by destruct e.
  - destruct x; apply IH.
Qed.

Lemma start_stats_totals (names : list string) (s : Stats.t) :
  Stats.minuteCommandCount (Client.start_stats names s) =
    Stats.minuteCommandCount s ∧
  Stats.perMinuteCommandAverage (Client.start_stats names s) =
    Stats.perMinuteCommandAverage s ∧
  Stats.minutesPassed (Client.start_stats names s) = Stats.minutesPassed s.
Proof.
  unfold Client.start_stats.
  induction names as [|name names IH] using rev_ind; [done|].
  rewrite foldl_app. simpl. apply IH.
Qed.

Lemma minutes_snoc (history : list Client.Step) (e : Client.Step) :
  Trace.minutes (history ++ [e]) =
    Trace.minutes history +
    match e with Client.Dispatched _ => 0 | Client.Minute => 1 end.
Proof.
  unfold Trace.minutes. rewrite filter_app, length_app.
  destruct e; rewrite filter_cons.
  - rewrite decide_False by done. simpl. lia.
  - rewrite decide_True by done. simpl. lia.
Qed.

(** X13.  The integer counters of the minute.  From the counters as the
    client starts them, after any history of dispatches and runs of the
    one-minute task: [minutesPassed] is the number of runs of the task and
    [minuteCommandCount] is the number of dispatches since the last run,
    so neither is ever negative. *)
Theorem minute_total_counts_since_flush (names : list string)
    (history : list Client.Step) :
  let s := Client.replay history
             (Client.start_stats names Client.initial_stats) in
  let pending := Z.of_nat (length (Trace.pending history [])) in
  Stats.minutesPassed s = Trace.minutes history ∧
  Stats.minuteCommandCount s = pending ∧
  0 ≤ Stats.minutesPassed s ∧ 0 ≤ Stats.minuteCommandCount s.
Proof.
  assert (Stats.minutesPassed
            (Client.replay history
               (Client.start_stats names Client.initial_stats)) =
            Trace.minutes history ∧
          Stats.minuteCommandCount
            (Client.replay history
               (Client.start_stats names Client.initial_stats)) =
            Z.of_nat (length (Trace.pending history []))) as [Hminutes Hcount].
  { induction history as [|e history IH] using rev_ind.
    - simpl. destruct (start_stats_totals names Client.initial_stats)
        as (-> & _ & ->). done.
    - rewrite replay_snoc, pending_snoc, minutes_snoc.
      destruct IH as (Hminutes & Hcount).
      destruct e as [name|]; simpl.
      + rewrite Hminutes, Hcount, length_app. simpl. split; lia.
      + rewrite Hminutes. split; [lia|done]. }
  intros s pending. subst s pending. rewrite Hminutes, Hcount.
  unfold Trace.minutes. repeat split; lia.
Qed.

Lemma occurrences_snoc (name X : string) (names : list string) :
  Trace.occurrences X (names ++ [name]) =
    Trace.occurrences X names + (if decide (name = X) then 1 else 0).
Proof.
  unfold Trace.occurrences. rewrite filter_app, length_app, filter_cons.
  destruct (decide (name = X)); simpl; lia.
Qed.

Lemma dispatches_snoc (X : string) (history : list Client.Step)
    (e : Client.Step) :
  Client.dispatches X (history ++ [e]) =
    Client.dispatches X history +
    (if decide (e = Client.Dispatched X) then 1 else 0).
Proof.
  unfold Client.dispatches. rewrite filter_app, length_app, filter_cons.
  destruct (decide (e = Client.Dispatched X)); simpl; lia.
Qed.

(** X14.  The per-minute counter of a loaded command is the number of its
    dispatches since the last run of the one-minute task, whatever the
    history: it is a number (never [NaN]), it is not negative and it never
    exceeds the lifetime counter of the command. *)
Theorem minute_counter_counts_since_flush (names : list string)
    (history : list Client.Step) (X : string) :
  X ∈ names →
  let s := Client.replay history
             (Client.start_stats names Client.initial_stats) in
  let recent := Trace.occurrences X (Trace.pending history []) in
  Stats.minuteCommands s !! X = Some (Stats.Num recent) ∧
  Stats.commands s !! X = Some (Stats.Num (Client.dispatches X history)) ∧
  0 ≤ recent ≤ Client.dispatches X history.
Proof.
  intros Hin.
  destruct (start_stats_lookup names Client.initial_stats X Hin) as [Hc Hm].
  induction history as [|e history IH] using rev_ind.
  - simpl. by rewrite Hc, Hm.
  - simpl in *. rewrite replay_snoc, pending_snoc, dispatches_snoc.
    destruct IH as (Hminute & Hlife & Hle).
    destruct e as [name|]; simpl.
    + rewrite occurrences_snoc. unfold Stats.increment.
      destruct (decide (name = X)) as [->|Hne].
      * rewrite decide_True by done.
        rewrite !lookup_insert_eq, Hminute, Hlife. repeat split; lia.
      * rewrite decide_False by congruence.
        rewrite !lookup_insert_ne by done.
        rewrite !Z.add_0_r. repeat split; try done; lia.
    + try rewrite decide_False by done. rewrite lookup_fmap, Hminute, Hlife.
      simpl. unfold Trace.occurrences. simpl.
      unfold Client.dispatches in *. rewrite ?Z.add_0_r.
      repeat split; try done; lia.
Qed.

(** Three dispatches of [truth], one of them after the last flush. *)
Lemma minute_counter_counts_since_flush_witness :
  let history :=
    [Client.Dispatched "truth"; Client.Dispatched "answer";
     Client.Dispatched "truth"; Client.Minute; Client.Dispatched "truth"] in
  let s := Client.replay history
             (Client.start_stats ["truth"; "answer"] Client.initial_stats) in
  "truth" ∈ ["truth"; "answer"] ∧
  Stats.minuteCommands s !! "truth" = Some (Stats.Num 1) ∧
  Stats.commands s !! "truth" = Some (Stats.Num 3).
Proof.
  intros history s.
  assert ("truth" ∈ ["truth"; "answer"]) as Hin by (by left).
  split; [exact Hin|].
  destruct (minute_counter_counts_since_flush ["truth"; "answer"] history
              "truth" Hin) as (Hminute & Hlife & _).
  split; [exact Hminute|exact Hlife].
Defined.

(** ** The router, on the paths the handler is not reached *)

Lemma checkPerms_returns (table : list (string * Z)) (command : Command.t)
    (ctx : Context) (w : World) :
  is_Some (Functions.requiredBits table (Command.perms command)) →
  ∃ allowed w', Functions.checkPerms table command ctx w
                = (Returned allowed, w').
Proof.
  intros [required Hreq]. unfold Functions.checkPerms. rewrite Hreq.
  destruct (ctx_member ctx); [|by eexists _, _].
  case_bool_decide; by eexists _, _.
Qed.

Lemma handleCommand_returns (server : Server.t) (ctx : Context) (w : World) :
  (∀ c, c ∈ Server.commands server →
        is_Some (Functions.requiredBits (Server.PermissionFlagsBits server)
                   (Command.perms c))) →
  (Server.handleCommand server ctx w).1 = Returned tt.
Proof.
  intros Hperms. unfold Server.handleCommand.
  destruct (List.find _ (Server.commands server)) as [command|] eqn:Hfind;
    [|done].
  apply find_some in Hfind as [Hin _]. apply list_elem_of_In in Hin.
  destruct (checkPerms_returns _ command ctx w (Hperms _ Hin))
    as (allowed & w' & Hcheck).
  unfold bind at 1. rewrite Hcheck. destruct allowed; [|done]. simpl.
  unfold bind, try_catch, get_stats, put_stats.
  destruct (Command.run command ctx _) as [[[]|e] w2]; done.
Qed.

(** X15.  No command handler can make [handleRequest] throw.  When the
    permissions of the loaded commands resolve, [handleRequest] returns
    normally on every interaction that is not a message component,
    whatever the handlers do; a button pressed in a channel that is not
    muted is handed to [handleButton] as it is, with no [try] around it. *)
Theorem handleRequest_contains_commands (server : Server.t)
    (interaction : Server.Interaction) (w : World) :
  (∀ c, c ∈ Server.commands server →
        is_Some (Functions.requiredBits (Server.PermissionFlagsBits server)
                   (Command.perms c))) →
  (Server.i_type interaction ≠ Server.MessageComponent →
   (Server.handleRequest server interaction w).1 = Returned tt) ∧
  (Server.i_type interaction = Server.MessageComponent →
   Server.i_data interaction = Server.ComponentData Server.Button →
   muted (ctx_channelSettings (Server.i_ctx interaction)) = false →
   Server.handleRequest server interaction w =
     Server.handleButton server (Server.i_ctx interaction) w).
Proof.
  intros Hperms. split.
  - intros Htype. unfold Server.handleRequest.
    destruct (Server.i_type interaction); try done;
      destruct (Server.i_data interaction) as [[]| |]; try done.
    destruct (_ && _); [done|]. by apply handleCommand_returns.
  - intros Htype Hdata Hmuted. unfold Server.handleRequest.
    by rewrite Htype, Hdata, Hmuted.
Qed.

(** The command that replies and then fails, through [handleRequest]. *)
Lemma handleRequest_contains_commands_witness :
  (∀ c, c ∈ Server.commands Sample.server →
        is_Some (Functions.requiredBits
                   (Server.PermissionFlagsBits Sample.server)
                   (Command.perms c))) ∧
  (Server.handleRequest Sample.server
     (Sample.command (Sample.inDM "boom" []))
     (Sample.world ["boom"] [] Sample.env)).1 = Returned tt.
Proof.
  assert (∀ c, c ∈ Server.commands Sample.server →
            is_Some (Functions.requiredBits
                       (Server.PermissionFlagsBits Sample.server)
                       (Command.perms c))) as Hperms.
  { intros c Hin. simpl in Hin.
    repeat (apply elem_of_cons in Hin as [->|Hin]; [by eexists|]).
    by apply elem_of_nil in Hin. }
  split; [exact Hperms|].
  apply (handleRequest_contains_commands Sample.server _ _ Hperms).
  discriminate.
Defined.

(** X16.  A command that is not run leaves no trace in the counters.  For
    a chat-input command that passes the mute gate: when no loaded command
    has its name, the only effect is one line on the error console, and
    the caller is sent nothing; when the caller lacks a required
    permission, the only effect is the reply that lists what is missing.
    In both cases the handler is not run, the counters are as before and
    no use is tracked. *)
Theorem undispatched_command_is_not_counted (server : Server.t)
    (interaction : Server.Interaction) (w : World) :
  let ctx := Server.i_ctx interaction in
  Server.i_type interaction = Server.ApplicationCommand →
  Server.i_data interaction = Server.CommandData Server.ChatInput →
  muted (ctx_channelSettings ctx) = false ∨
    ctx_command_name ctx ∈ Server.PASSTHROUGH_COMMANDS →
  (List.find (λ c, bool_decide (Command.name c = ctx_command_name ctx))
     (Server.commands server) = None →
   Server.handleRequest server interaction w =
     (Returned tt,
      log_event
        (EConsoleError
           ("Command " +:+ ctx_command_name ctx +:+
            " was run with no corresponding command file.")) w)) ∧
  (∀ command member required,
     List.find (λ c, bool_decide (Command.name c = ctx_command_name ctx))
       (Server.commands server) = Some command →
     ctx_member ctx = Some member →
     Functions.requiredBits (Server.PermissionFlagsBits server)
       (Command.perms command) = Some required →
     Functions.missingBits required (m_permissions member) ≠ 0 →
     Server.handleRequest server interaction w =
       (Returned tt,
        log_event
          (EReply
             (Functions.missingReply
                (Functions.missingNames (Server.PermissionFlagsBits server)
                   (Functions.missingBits required (m_permissions member)))
                (ctx_user ctx))) w)) ∧
  (List.find (λ c, bool_decide (Command.name c = ctx_command_name ctx))
     (Server.commands server) = None ∨
   (∃ command member required,
      List.find (λ c, bool_decide (Command.name c = ctx_command_name ctx))
        (Server.commands server) = Some command ∧
      ctx_member ctx = Some member ∧
      Functions.requiredBits (Server.PermissionFlagsBits server)
        (Command.perms command) = Some required ∧
      Functions.missingBits required (m_permissions member) ≠ 0) →
   w_stats (Server.handleRequest server interaction w).2 = w_stats w ∧
   w_paranoia (Server.handleRequest server interaction w).2 = w_paranoia w ∧
   ∀ name success,
     ETrackCommandUse name success ∈
       w_log (Server.handleRequest server interaction w).2 →
     ETrackCommandUse name success ∈ w_log w).
Proof.
  intros ctx Htype Hdata Hgate.
  assert (Server.handleRequest server interaction w =
            Server.handleCommand server ctx w) as Hrun.
  { unfold Server.handleRequest. rewrite Htype, Hdata. fold ctx.
    destruct Hgate as [->|Hin]; [done|].
    by rewrite (bool_decide_eq_true_2 _ Hin), andb_false_r. }
  assert (List.find (λ c, bool_decide (Command.name c = ctx_command_name ctx))
            (Server.commands server) = None →
          Server.handleRequest server interaction w =
            (Returned tt,
             log_event
               (EConsoleError
                  ("Command " +:+ ctx_command_name ctx +:+
                   " was run with no corresponding command file.")) w))
    as Hunknown.
  { intros Hfind. rewrite Hrun. unfold Server.handleCommand.
    by rewrite Hfind. }
  assert (∀ command member required,
     List.find (λ c, bool_decide (Command.name c = ctx_command_name ctx))
       (Server.commands server) = Some command →
     ctx_member ctx = Some member →
     Functions.requiredBits (Server.PermissionFlagsBits server)
       (Command.perms command) = Some required →
     Functions.missingBits required (m_permissions member) ≠ 0 →
     Server.handleRequest server interaction w =
       (Returned tt,
        log_event
          (EReply
             (Functions.missingReply
                (Functions.missingNames (Server.PermissionFlagsBits server)
                   (Functions.missingBits required (m_permissions member)))
                (ctx_user ctx))) w)) as Hdenied.
  { intros command member required Hfind Hmember Hreq Hmissing.
    rewrite Hrun. unfold Server.handleCommand. rewrite Hfind.
    unfold bind at 1. unfold Functions.checkPerms.
    rewrite Hmember, Hreq. by rewrite (bool_decide_eq_true_2 _ Hmissing). }
  split; [done|]. split; [done|].
  intros [Hfind|(command & member & required & Hfind & Hm & Hreq & Hmiss)].
  - rewrite (Hunknown Hfind). simpl. split; [done|]. split; [done|].
    intros name success Hin. apply elem_of_app in Hin as [Hin|Hin]; [done|].
    event_in Hin.
  - rewrite (Hdenied _ _ _ Hfind Hm Hreq Hmiss). simpl.
    split; [done|]. split; [done|].
    intros name success Hin. apply elem_of_app in Hin as [Hin|Hin]; [done|].
    event_in Hin.
Qed.

(** A member who may kick but not ban runs [ban]: the counters stay. *)
Lemma undispatched_command_is_not_counted_witness :
  let interaction :=
    Sample.command (Sample.inGuild "ban" Sample.unmuted) in
  let w := Sample.world ["ban"] [] Sample.env in
  Functions.missingBits 6 2 ≠ 0 ∧
  w_stats (Server.handleRequest Sample.server interaction w).2 = w_stats w.
Proof.
  intros interaction w.
  assert (Functions.missingBits 6 2 ≠ 0) as Hmissing by discriminate.
  split; [exact Hmissing|].
  destruct (undispatched_command_is_not_counted Sample.server interaction w
              eq_refl eq_refl (or_introl eq_refl)) as (_ & _ & Hkept).
  apply Hkept. right. exists Sample.ban, {| m_permissions := 2 |}, 6.
  split; [reflexivity|]. split; [reflexivity|]. split; [reflexivity|].
  exact Hmissing.
Defined.

(** ** The public API and the other routes *)

Lemma checkRatings_accepts (server : Server.t) (ss : list string) :
  Forall (λ s, toUpperCase s ∈ Server.Rating server) ss →
  Server.checkRatings server (Server.QString <$> ss) = Returned None.
Proof.
  induction 1 as [|s ss Hs _ IH]; [done|]. simpl.
  by rewrite (bool_decide_eq_true_2 _ Hs).
Qed.

Lemma upperRatings_strings (ss : list string) :
  Server.upperRatings (Server.QString <$> ss) = toUpperCase <$> ss.
Proof.
  unfold Server.upperRatings. induction ss as [|s ss IH]; [done|].
  simpl. by f_equal.
Qed.

Lemma checkRatings_response (server : Server.t)
    (ratingArray : list Server.QueryItem) (response : Server.Response) :
  Server.checkRatings server ratingArray = Returned (Some response) →
  response = Server.badRating server.
Proof.
  induction ratingArray as [|[s|[|]] ratingArray IH]; simpl; try done.
  - case_bool_decide; [done|]. by intros [= <-].
  - by intros [= <-].
Qed.

(** X17.  A request to the public API with a valid type and rating values
    that are all ratings (whatever their case) fetches one question with
    exactly the ratings that were not asked for excluded, tracks it and
    answers 200.  No rating that was asked for is excluded, and asking for
    every rating excludes none: R is excluded only by default. *)
Theorem handleAPI_asks_for_listed_ratings (server : Server.t)
    (param : string) (rating : Server.Query) (ss : list string) (w : World) :
  let questionType := toUpperCase param in
  let asked := toUpperCase <$> ss in
  let disabled := filter (λ a, a ∉ asked) (Server.Rating server) in
  questionType ∈ Server.QuestionType server →
  Server.falsy rating = false →
  Server.toArray rating = Server.QString <$> ss →
  Forall (λ s, toUpperCase s ∈ Server.Rating server) ss →
  Server.handleAPI server param rating w =
    (let* question := Database.getRandomQuestion questionType disabled in
     emit (ETrackAPIRequest (q_type question) (q_rating question)) >>
     ret {| Server.status := 200;
            Server.res_body := Server.BQuestion question |}) w ∧
  (∀ r, r ∈ asked → r ∉ disabled) ∧
  (∀ r, r ∈ Server.Rating server → r ∈ asked ∨ r ∈ disabled) ∧
  ((∀ r, r ∈ Server.Rating server → r ∈ asked) → disabled = []).
Proof.
  intros questionType asked disabled Htype Hfalsy Harray Hvalid.
  split; [|split; [|split]].
  - unfold Server.handleAPI. fold questionType.
    rewrite (bool_decide_eq_true_2 _ Htype), Hfalsy. simpl.
    by rewrite Harray, checkRatings_accepts, upperRatings_strings.
  - intros r Hasked Hin. unfold disabled in Hin.
    by apply list_elem_of_filter in Hin as [Hnot _].
  - intros r Hr. destruct (decide (r ∈ asked)); [by left|right].
    by apply list_elem_of_filter.
  - unfold disabled. generalize (Server.Rating server).
    intros l. induction l as [|r l IH]; intros Hall; [done|].
    rewrite filter_cons, decide_False.
    + apply IH. intros x Hx. apply Hall. by right.
    + intros Hnot. apply Hnot, Hall. by left.
Qed.

(** [?rating=pg&rating=r] excludes PG13 only. *)
Lemma handleAPI_asks_for_listed_ratings_witness :
  let rating := Server.QMany [Server.QString "pg"; Server.QString "r"] in
  let w := Sample.world [] [] Sample.env in
  toUpperCase "truth" ∈ Server.QuestionType Sample.server ∧
  Forall (λ s, toUpperCase s ∈ Server.Rating Sample.server) ["pg"; "r"] ∧
  w_log (Server.handleAPI Sample.server "truth" rating w).2 =
    [EGetRandomQuestion "TRUTH" ["PG13"]; ETrackAPIRequest "TRUTH" "PG"].
Proof.
  intros rating w.
  assert (toUpperCase "truth" ∈ Server.QuestionType Sample.server) as Htype
    by compute_done.
  assert (Forall (λ s, toUpperCase s ∈ Server.Rating Sample.server)
            ["pg"; "r"]) as Hratings
    by (repeat constructor; compute_done).
  split; [exact Htype|]. split; [exact Hratings|].
  destruct (handleAPI_asks_for_listed_ratings Sample.server "truth" rating
              ["pg"; "r"] w Htype eq_refl eq_refl Hratings) as [-> _].
  reflexivity.
Defined.

(** X18.  [handleAPI] asks the store at most once, and only for an
    enumerated type.  Whatever the request, with a question type and
    rating values that are ASCII strings: the counters, the queue and
    the limiter are left alone; a response is either a 400 with nothing
    done, or a 200 with a question after exactly one query of the store
    for the upper-cased type, followed at most by the tracking of that
    question; an exception comes either before anything is done or from
    the one query. *)
Theorem handleAPI_queries_store_once (server : Server.t) (param : string)
    (rating : Server.Query) (w : World) :
  isASCII param = true →
  Server.asciiQuery rating = true →
  let questionType := toUpperCase param in
  let out := (Server.handleAPI server param rating w).1 in
  let w' := (Server.handleAPI server param rating w).2 in
  (w_stats w' = w_stats w ∧ w_paranoia w' = w_paranoia w ∧
   w_rateLimit w' = w_rateLimit w) ∧
  ((∃ response, out = Returned response ∧ Server.status response = 400 ∧
                w' = w) ∨
   (∃ e, out = Threw e ∧ w' = w) ∨
   (questionType ∈ Server.QuestionType server ∧
    ∃ disabled,
      (∃ e, out = Threw e ∧
            w' = log_event (EGetRandomQuestion questionType disabled) w) ∨
      (∃ question,
         out = Returned {| Server.status := 200;
                           Server.res_body := Server.BQuestion question |} ∧
         (w_log w' = w_log w ++ [EGetRandomQuestion questionType disabled] ∨
          w_log w' =
            w_log w ++ [EGetRandomQuestion questionType disabled;
                        ETrackAPIRequest (q_type question)
                          (q_rating question)])))).
Proof.
  intros _ _ questionType out w'. subst out w'. unfold Server.handleAPI.
  fold questionType. case_bool_decide as Htype; simpl.
  - destruct (Server.falsy rating).
    + unfold bind, Database.getRandomQuestion.
      destruct (db_getRandomQuestion _ _ _ _) as [question|e]; simpl.
      * split; [done|]. right. right. split; [done|]. exists ["R"]. right.
        exists question. split; [done|]. by left.
      * split; [done|]. right. right. split; [done|]. exists ["R"]. left.
        by exists e.
    + destruct (Server.checkRatings server (Server.toArray rating))
        as [[response|]|e] eqn:Hcheck; simpl.
      * apply checkRatings_response in Hcheck as ->.
        split; [done|]. left. by eexists.
      * unfold bind, Database.getRandomQuestion, emit.
        destruct (db_getRandomQuestion _ _ _ _) as [question|e]; simpl.
        -- split; [done|]. right. right. split; [done|]. eexists. right.
           exists question. split; [done|]. right.
           by rewrite <- app_assoc.
        -- split; [done|]. right. right. split; [done|]. eexists. left.
           by exists e.
      * split; [done|]. right. left. by exists e.
  - split; [done|]. left. by eexists.
Qed.

(** [/api/nhie?rating=r]: one query, and the counters, the queue and the
    limiter as before. *)
Lemma handleAPI_queries_store_once_witness :
  let w := Sample.world [] [] Sample.env in
  let rating := Server.QOne (Server.QString "r") in
  let w' := (Server.handleAPI Sample.server "nhie" rating w).2 in
  isASCII "nhie" = true ∧ Server.asciiQuery rating = true ∧
  w_stats w' = w_stats w ∧ w_paranoia w' = w_paranoia w ∧
  w_rateLimit w' = w_rateLimit w.
Proof.
  intros w rating w'. split; [reflexivity|]. split; [reflexivity|].
  exact (proj1 (handleAPI_queries_store_once Sample.server "nhie" rating w
                  eq_refl eq_refl)).
Defined.

Lemma removeFirst_bearer (secret : string) :
  removeFirst "Bearer " ("Bearer " +:+ secret) = secret.
Proof.
  change ("Bearer " +:+ secret) with
    (String "B" (String "e" (String "a" (String "r" (String "e"
       (String "r" (String " " secret))))))).
  unfold removeFirst. simpl.
  assert (String.prefix "" secret = true) as -> by (by destruct secret).
  rewrite ?Nat.sub_0_r. apply substring_all.
Qed.

(** X19.  The metrics route compares the [Authorization] header, with its
    first [Bearer ] taken out, with [PROMETHEUS_AUTH], and changes nothing.
    With a secret configured, the header [Bearer ] followed by the secret
    is served the metrics and a request without the header is answered
    401.  With no secret configured, a request without the header is
    served the metrics. *)
Theorem metrics_compares_bearer_with_secret (server : Server.t)
    (req : Server.Request) (w : World) :
  Server.method req = Server.GET →
  Server.path req = ["metrics"] →
  let served :=
    (Returned (Server.Responded {| Server.status := 200;
                                   Server.res_body := Server.BMetrics |}), w) in
  let refused :=
    (Returned
       (Server.Responded {| Server.status := 401;
                            Server.res_body := Server.BText "Unauthorized" |}),
     w) in
  Server.handle server req w =
    (if bool_decide (removeFirst "Bearer " <$> Server.authorization req
                     = Server.PROMETHEUS_AUTH server)
     then served else refused) ∧
  (∀ secret,
     Server.PROMETHEUS_AUTH server = Some secret →
     (Server.authorization req = Some ("Bearer " +:+ secret) →
      Server.handle server req w = served) ∧
     (Server.authorization req = None →
      Server.handle server req w = refused)) ∧
  (Server.PROMETHEUS_AUTH server = None →
   Server.authorization req = None →
   Server.handle server req w = served).
Proof.
  intros Hm Hp served refused.
  assert (Server.handle server req w =
    (if bool_decide (removeFirst "Bearer " <$> Server.authorization req
                     = Server.PROMETHEUS_AUTH server)
     then served else refused)) as Hrun.
  { unfold Server.handle, Server.routes. cbn [Server.dispatch].
    unfold Server.matches. rewrite Hm, Hp. simpl.
    destruct (decide (removeFirst "Bearer " <$> Server.authorization req
                      = Server.PROMETHEUS_AUTH server)) as [Heq|Hne].
    - by rewrite (bool_decide_eq_true_2 _ Heq),
        (bool_decide_eq_false_2 (_ ≠ _)) by tauto.
    - by rewrite (bool_decide_eq_false_2 _ Hne),
        (bool_decide_eq_true_2 _ Hne). }
  split; [done|]. split.
  - intros secret Hsecret. split.
    + intros Hauth. rewrite Hrun, Hauth, Hsecret.
      rewrite bool_decide_eq_true_2; [done|].
      exact (f_equal Some (removeFirst_bearer secret)).
    + intros Hauth. rewrite Hrun, Hauth, Hsecret. done.
  - intros Hsecret Hauth. by rewrite Hrun, Hauth, Hsecret.
Qed.

(** The secret of the sample server, with and without the header. *)
Lemma metrics_compares_bearer_with_secret_witness :
  let w := Sample.world [] [] Sample.env in
  Server.handle Sample.server (Cases.metrics (Some "Bearer secret")) w =
    (Returned (Server.Responded {| Server.status := 200;
                                   Server.res_body := Server.BMetrics |}),
     w) ∧
  Server.handle Sample.server (Cases.metrics None) w =
    (Returned
       (Server.Responded {| Server.status := 401;
                            Server.res_body := Server.BText "Unauthorized" |}),
     w).
Proof.
  intros w. split.
  - destruct (metrics_compares_bearer_with_secret Sample.server
                (Cases.metrics (Some "Bearer secret")) w eq_refl eq_refl)
      as (_ & Hsecret & _).
    exact (proj1 (Hsecret "secret" eq_refl) eq_refl).
  - destruct (metrics_compares_bearer_with_secret Sample.server
                (Cases.metrics None) w eq_refl eq_refl)
      as (_ & Hsecret & _).
    exact (proj2 (Hsecret "secret" eq_refl) eq_refl).
Defined.

Lemma rest_of_api_group (server : Server.t) (req req' : Server.Request)
    (rest : list string) (w : World) :
  Server.path req = "api" :: rest →
  Server.path req' = "v1" :: rest →
  Server.method req = Server.method req' →
  Server.query_rating req = Server.query_rating req' →
  Server.dispatch server (drop 1 Server.routes) req w =
  Server.dispatch server (drop 2 Server.routes) req' w.
Proof.
  intros Hp Hp' Hm Hq. unfold Server.routes. cbn [drop Server.dispatch].
  unfold Server.matches. rewrite Hp, Hp', Hm.
  destruct (Server.method req'); destruct rest as [|q [|q' rest]];
    simpl; rewrite ?Hq; reflexivity.
Qed.

(** X20.  The path groups [/api/] and [/v1/] are one surface.  Two
    requests that differ only in the group (and in what the API does not
    read) are handled alike: the same limiter with the same key and the
    same counters, and below it the same handler, so the status, the body
    and the world after the request are the same.  (The headers that the
    [cors] middleware of the [/v1/] route adds are not part of a response
    here.) *)
Theorem api_and_v1_are_handled_alike (server : Server.t)
    (req req' : Server.Request) (rest : list string) (w : World) :
  Server.path req = "api" :: rest →
  Server.path req' = "v1" :: rest →
  Server.method req = Server.method req' →
  Server.ip req = Server.ip req' →
  Server.now req = Server.now req' →
  Server.query_rating req = Server.query_rating req' →
  Server.handle server req w = Server.handle server req' w.
Proof.
  intros Hp Hp' Hm Hip Hnow Hq.
  rewrite (handle_api_group server req "api" rest Hp (or_introl eq_refl)).
  rewrite (handle_api_group server req' "v1" rest Hp' (or_intror eq_refl)).
  rewrite bool_decide_eq_true_2 by done.
  rewrite (bool_decide_eq_false_2 ("v1" = "api")) by done.
  unfold Server.rateLimit. rewrite Hip, Hnow.
  destruct (RateLimit.hit _ _ _ _) as [store [|]]; [|done].
  by rewrite (rest_of_api_group server req req' rest _ Hp Hp' Hm Hq).
Qed.

Lemma api_and_v1_are_handled_alike_witness :
  let w := Sample.world [] [] Sample.env in
  Server.handle Sample.server
    (Sample.api 0 "api" "truth" Server.QUndefined) w =
  Server.handle Sample.server
    (Sample.api 0 "v1" "truth" Server.QUndefined) w.
Proof.
  intros w.
  exact (api_and_v1_are_handled_alike Sample.server
           (Sample.api 0 "api" "truth" Server.QUndefined)
           (Sample.api 0 "v1" "truth" Server.QUndefined) ["truth"] w
           eq_refl eq_refl eq_refl eq_refl eq_refl eq_refl).
Defined.

(** ** The answer flow beyond the relay *)

Lemma append_length (s t : string) :
  String.length (s +:+ t) = (String.length s + String.length t)%nat.
Proof. induction s as [|a s IH]; [done|]. simpl. by rewrite IH. Qed.

Lemma slice0_length (n : nat) (s : string) :
  String.length (slice0 n s) = (n `min` String.length s)%nat.
Proof.
  unfold slice0. revert n. induction s as [|a s IH]; intros [|n]; try done.
  simpl. by rewrite IH.
Qed.

Lemma slice0_all (n : nat) (s : string) :
  (String.length s ≤ n)%nat → slice0 n s = s.
Proof.
  unfold slice0. revert n. induction s as [|a s IH]; intros [|n] Hn;
    simpl in *; try done; try lia.
  rewrite IH; [done|lia].
Qed.

Lemma added_app (w w' : World) (new : list Event) :
  w_log w' = w_log w ++ new → Trace.added w w' = new.
Proof. unfold Trace.added. intros ->. apply drop_app_length. Qed.

(** X21.  An answer that is an ASCII string, whose characters are the
    UTF-16 units that [slice] and [length] count, fits the 1024 characters
    of an embed field when it is relayed to the origin channel: an answer
    of at most 1021 characters is relayed as it is, a longer one is cut to
    its first 1021 characters followed by three dots, which makes 1024
    exactly. *)
Theorem relayed_answer_fits_field (user : User) (random : Q)
    (paranoiaData : ParanoiaEntry) (paranoiaAnswer : string) :
  isASCII paranoiaAnswer = true →
  ∃ question value,
    e_fields (Answer.relayEmbed user random paranoiaData paranoiaAnswer) =
      [question;
       {| f_name := u_username user +:+ "'s Answer:"; f_value := value |}] ∧
    (String.length value ≤ 1024)%nat ∧
    ((String.length paranoiaAnswer ≤ 1021)%nat → value = paranoiaAnswer) ∧
    ((1021 < String.length paranoiaAnswer)%nat →
     value = slice0 1021 paranoiaAnswer +:+ "..." ∧
     String.length value = 1024%nat).
Proof.
  intros _. eexists _, _. split; [reflexivity|].
  destruct (1021 <? String.length paranoiaAnswer)%nat eqn:Hlong.
  - apply Nat.ltb_lt in Hlong.
    assert (String.length (slice0 1021 paranoiaAnswer +:+ "...") = 1024%nat)
      as Hlen.
    { rewrite append_length, slice0_length.
      change (String.length "...") with 3%nat. lia. }
    split; [lia|]. split; [lia|done].
  - apply Nat.ltb_ge in Hlong. rewrite (slice0_all _ _ Hlong).
    rewrite append_empty_r. split; [lia|]. split; [done|lia].
Qed.

(** A short answer is relayed as it is. *)
Lemma relayed_answer_fits_field_witness :
  isASCII "Bob" = true ∧
  ∃ question value,
    e_fields (Answer.relayEmbed Sample.alice (1 # 4) Sample.first "Bob") =
      [question; {| f_name := "alice's Answer:"; f_value := value |}] ∧
    value = "Bob".
Proof.
  split; [reflexivity|].
  destruct (relayed_answer_fits_field Sample.alice (1 # 4) Sample.first
              "Bob" eq_refl) as (question & value & Hfields & _ & Hshort & _).
  exists question, value. split; [exact Hfields|].
  apply Hshort. simpl. lia.
Defined.

(** The events added by a flow that ends in [deliverNext]. *)
Ltac delivered_log w1 w2 post Hlog :=
  match goal with
  | |- context [Answer.deliverNext ?ctx ?wX] =>
      destruct (deliverNext_log ctx wX) as (post & Hlog & _);
      cbv delta [w1 w2] in *;
      cbn [w_log log_event set_paranoia] in Hlog;
      rewrite <- ?app_assoc in Hlog; cbn [app] in Hlog;
      apply added_app in Hlog
  end.

(** X22.  Outside a guild, with a pending entry [e] and a string answer:
    the entry is removed exactly when the relay returned a message and the
    edit of the notification was not rejected.  An edit that returns no
    message only adds a warning before the removal; a rejected edit stops
    the flow with the rejection after the answer has been relayed, and the
    queue is left as it was. *)
Theorem answer_removes_iff_relayed_and_edit_returned (ctx : Context)
    (w : World) (e : ParanoiaEntry) (paranoiaAnswer : string)
    (Hdm : truthy (ctx_guildId ctx) = false)
    (Hhead : Database.head (u_id (ctx_user ctx)) (w_paranoia w) = Some e)
    (Hanswer : o_value <$> Answer.getOption "answer" ctx =
               Some (VString paranoiaAnswer)) :
  let uid := u_id (ctx_user ctx) in
  let w1 := log_event (EGetNextParanoia uid) w in
  let relay :=
    Answer.relayEmbed (ctx_user ctx) (math_random (w_env w) (w_log w1)) e
      paranoiaAnswer in
  let sent := net_sendMessage (w_env w) (w_log w1) relay (p_channelId e) in
  let w2 := log_event (ESendMessage relay (p_channelId e)) w1 in
  let edited :=
    net_editMessage (w_env w) (w_log w2) (Answer.answeredEmbed e)
      (ctx_channelId ctx) (p_dmMessageId e) in
  let w' := (Answer.run ctx w).2 in
  (ERemoveParanoiaQuestion (p_id e) ∈ Trace.added w w' ↔
   (∃ message, sent = Returned (Some message)) ∧
   (∃ editedMessage, edited = Returned editedMessage)) ∧
  (∀ message, sent = Returned (Some message) → edited = Returned None →
     ∃ warning post,
       Trace.added w w' =
         [EGetNextParanoia uid; ESendMessage relay (p_channelId e);
          EEditMessage (Answer.answeredEmbed e) (ctx_channelId ctx)
            (p_dmMessageId e);
          EConsoleWarn warning; ERemoveParanoiaQuestion (p_id e);
          EReply Answer.answerSentReply] ++ post) ∧
  (∀ message err, sent = Returned (Some message) → edited = Threw err →
     Answer.run ctx w =
       (Threw err,
        log_event
          (EEditMessage (Answer.answeredEmbed e) (ctx_channelId ctx)
             (p_dmMessageId e)) w2)).
Proof.
  intros uid w1 relay sent w2 edited w'.
  subst w'. unfold Answer.run. rewrite Hdm, Hanswer.
  unfold bind, Database.getNextParanoia, Answer.Math_random,
    Functions.sendMessage, Functions.editMessage, reply, throw,
    Database.removeParanoiaQuestion, Answer.console_warn, emit, ret.
  rewrite Hhead. fold uid.
  cbn [w_env w_log log_event set_paranoia w_paranoia].
  fold w1. change (w_log w ++ [EGetNextParanoia uid]) with (w_log w1).
  fold relay sent.
  destruct sent as [[message|]|err] eqn:Hsent.
  - cbn [w_env w_log log_event set_paranoia w_paranoia].
    change (w_log w1 ++ [ESendMessage relay (p_channelId e)])
      with (w_log w2).
    change (net_editMessage _ _ _ _ _) with edited.
    destruct edited as [[editedMessage|]|err] eqn:Hedited.
    + delivered_log w1 w2 post Hlog.
      split; [split|split].
      * intros _. by eauto.
      * intros _. rewrite Hlog. do 3 right. by left.
      * by intros.
      * by intros.
    + delivered_log w1 w2 post Hlog.
      split; [split|split].
      * intros _. by eauto.
      * intros _. rewrite Hlog. do 4 right. by left.
      * intros _ _ _. eexists _, _. exact Hlog.
      * by intros.
    + split; [split|split].
      * intros Hin. erewrite (added_app _ _ [_; _; _]) in Hin;
          [|cbn; rewrite <- ?app_assoc; reflexivity].
        absent_event Hin.
      * by intros [_ [? ?]].
      * by intros.
      * intros ? ? _ [= <-]. done.
  - split; [split|split].
    + intros Hin. erewrite (added_app _ _ [_; _; _]) in Hin;
        [|cbn; rewrite <- ?app_assoc; reflexivity].
      absent_event Hin.
    + by intros [[? ?] _].
    + by intros.
    + by intros.
  - split; [split|split].
    + intros Hin. erewrite (added_app _ _ [_; _]) in Hin;
        [|cbn; rewrite <- ?app_assoc; reflexivity].
      absent_event Hin.
    + by intros [[? ?] _].
    + by intros.
    + by intros.
Qed.

(** Every request accepted: the answered entry is removed. *)
Lemma answer_removes_iff_relayed_and_edit_returned_witness :
  let w := Sample.world ["answer"] [Sample.first; Sample.second] Sample.env in
  truthy (ctx_guildId Sample.answering) = false ∧
  Database.head "1001" (w_paranoia w) = Some Sample.first ∧
  ERemoveParanoiaQuestion "p1"
    ∈ Trace.added w (Answer.run Sample.answering w).2.
Proof.
  intros w. split; [reflexivity|]. split; [reflexivity|].
  destruct (answer_removes_iff_relayed_and_edit_returned Sample.answering w
              Sample.first "Bob" eq_refl eq_refl eq_refl) as ([_ Hremoved] & _).
  apply Hremoved. split; eexists; reflexivity.
Defined.

(** ** Commands through the router *)

Lemma mute_gate_open (ctx : Context) :
  muted (ctx_channelSettings ctx) = false ∨
    ctx_command_name ctx ∈ Server.PASSTHROUGH_COMMANDS →
  muted (ctx_channelSettings ctx) &&
    negb (bool_decide (ctx_command_name ctx ∈ Server.PASSTHROUGH_COMMANDS)) =
  false.
Proof.
  intros [->|Hpass]; [done|].
  rewrite (bool_decide_eq_true_2 _ Hpass). apply andb_false_r.
Qed.

(** A command that asks for no permission passes [checkPerms] silently. *)
Lemma checkPerms_no_perms (table : list (string * Z)) (command : Command.t)
    (ctx : Context) (w : World) :
  Command.perms command = [] →
  Functions.checkPerms table command ctx w = (Returned true, w).
Proof.
  intros Hperms. unfold Functions.checkPerms. rewrite Hperms.
  by destruct (ctx_member ctx).
Qed.

(** The dispatch of a loaded command that asks for no permission: the use
    is counted, the handler is run, and a rejection is reported and
    contained. *)
Lemma dispatch_no_perms (server : Server.t) (command : Command.t)
    (interaction : Server.Interaction) (w : World) :
  let ctx := Server.i_ctx interaction in
  Server.i_type interaction = Server.ApplicationCommand →
  Server.i_data interaction = Server.CommandData Server.ChatInput →
  muted (ctx_channelSettings ctx) = false ∨
    ctx_command_name ctx ∈ Server.PASSTHROUGH_COMMANDS →
  List.find (λ c, bool_decide (Command.name c = ctx_command_name ctx))
    (Server.commands server) = Some command →
  Command.perms command = [] →
  Server.handleRequest server interaction w =
    match
      Command.run command ctx
        (set_stats (Stats.statistics (Command.name command) (w_stats w)) w)
    with
    | (Returned _, w1) =>
        (Returned tt,
         log_event (ETrackCommandUse (Command.name command) true) w1)
    | (Threw err, w1) =>
        (Returned tt,
         log_event (ETrackCommandUse (Command.name command) false)
           (log_event (EReply Server.failureReply)
              (log_event
                 (ESentryCapture (Server.extras server command ctx) err)
                 (log_event (EConsoleErrorThrown err) w1))))
    end.
Proof.
  intros ctx Htype Hdata Hgate Hfind Hperms.
  unfold Server.handleRequest. rewrite Htype, Hdata. fold ctx.
  rewrite (mute_gate_open _ Hgate).
  unfold Server.handleCommand. rewrite Hfind.
  unfold bind at 1. rewrite (checkPerms_no_perms _ _ _ _ Hperms).
  cbn [negb].
  unfold bind, get_stats, put_stats, try_catch, Server.reportFailure, emit,
    reply, ret.
  by destruct (Command.run command ctx _) as [[[]|err] w1].
Qed.

(** X23.  The question commands [dare] and [tod], dispatched through
    [handleRequest], reply exactly once.  [dare] asks the store for a
    [DARE] and [tod] for a [TRUTH] when [Math.random] is below 0.5 and for
    a [DARE] otherwise, both with the ratings disabled in the channel and
    the rating option of the caller.  When the store returns a question,
    the world after the request is: the use counted, the query, the reply
    with that very question, and the use tracked as a success.  When the
    store rejects, it is: the use counted, the query, the error line and
    the report with that rejection, the generic failure reply, and the use
    tracked as a failure.  In both cases [handleRequest] returns, no
    message is sent on the platform and the paranoia queue is not
    touched. *)
Theorem question_commands_reply_once (server : Server.t)
    (store : Questions.Store) (command : Command.t) (type : string)
    (interaction : Server.Interaction) (w : World) :
  let ctx := Server.i_ctx interaction in
  let name := Command.name command in
  let disabled := disabledRatings (ctx_channelSettings ctx) in
  let rating := o_value <$> Answer.getOption "rating" ctx in
  let w1 :=
    log_event (EGetRandomQuestion type disabled)
      (set_stats (Stats.statistics name (w_stats w)) w) in
  let w' := (Server.handleRequest server interaction w).2 in
  (command = Questions.dare store ∧ type = "DARE") ∨
  (command = Questions.tod store ∧
   type = if Qlt_le_dec (math_random (w_env w) (w_log w)) (1 # 2)
          then "TRUTH" else "DARE") →
  Server.i_type interaction = Server.ApplicationCommand →
  Server.i_data interaction = Server.CommandData Server.ChatInput →
  muted (ctx_channelSettings ctx) = false ∨
    ctx_command_name ctx ∈ Server.PASSTHROUGH_COMMANDS →
  List.find (λ c, bool_decide (Command.name c = ctx_command_name ctx))
    (Server.commands server) = Some command →
  (∀ question,
     store (w_log w) type disabled rating = Returned question →
     Server.handleRequest server interaction w =
       (Returned tt,
        log_event (ETrackCommandUse name true)
          (log_event (EReply (Questions.questionReply question)) w1))) ∧
  (∀ err,
     store (w_log w) type disabled rating = Threw err →
     Server.handleRequest server interaction w =
       (Returned tt,
        log_event (ETrackCommandUse name false)
          (log_event (EReply Server.failureReply)
             (log_event
                (ESentryCapture (Server.extras server command ctx) err)
                (log_event (EConsoleErrorThrown err) w1))))) ∧
  (∃ r, filter Trace.isReply (Trace.added w w') = [EReply r]) ∧
  filter (λ ev, Answer.platformCall ev || Answer.queueAccess ev)
    (Trace.added w w') = [] ∧
  w_paranoia w' = w_paranoia w.
Proof.
  intros ctx name disabled rating w1 w' Hcommand Htype Hdata Hgate Hfind.
  subst w' name w1.
  rewrite (dispatch_no_perms server command interaction w Htype Hdata Hgate
             Hfind) by (by destruct Hcommand as [[-> _]|[-> _]]).
  fold ctx.
  assert (Command.run command ctx
            (set_stats (Stats.statistics (Command.name command) (w_stats w))
               w) =
          match store (w_log w) type disabled rating with
          | Returned question =>
              (Returned tt,
               log_event (EReply (Questions.questionReply question))
                 (log_event (EGetRandomQuestion type disabled)
                    (set_stats
                       (Stats.statistics (Command.name command) (w_stats w))
                       w)))
          | Threw err =>
              (Threw err,
               log_event (EGetRandomQuestion type disabled)
                 (set_stats
                    (Stats.statistics (Command.name command) (w_stats w)) w))
          end) as ->.
  { destruct Hcommand as [[-> ->]|[-> ->]];
      cbn [Command.run Command.name Questions.dare Questions.tod];
      unfold Questions.dare_run, Questions.tod_run, bind, Answer.Math_random,
        Questions.getRandomQuestion, reply, emit;
      cbn [w_log w_env set_stats log_event]; fold ctx disabled rating.
    - by destruct (store _ _ _ _).
    - by destruct (Qlt_le_dec _ _); destruct (store _ _ _ _). }
  destruct (store (w_log w) type disabled rating) as [question|err].
  - split; [by intros ? [= <-]|]. split; [done|].
    erewrite (added_app _ _ [_; _; _]);
      [|cbn; rewrite <- ?app_assoc; reflexivity].
    split; [by eexists|]. done.
  - split; [done|]. split; [by intros ? [= <-]|].
    erewrite (added_app _ _ [_; _; _; _; _]);
      [|cbn; rewrite <- ?app_assoc; reflexivity].
    split; [by eexists|]. done.
Qed.

(** [dare] in a direct message, with a store that answers: the question of
    the store is the one replied. *)
Lemma question_commands_reply_once_witness :
  let interaction := Sample.command (Sample.inDM "dare" []) in
  let w := Sample.world ["dare"; "tod"] [] Sample.env in
  let question :=
    {| q_id := "q7"; q_type := "DARE"; q_rating := "PG";
       q_question := "?" |} in
  Cases.store [] "DARE" [] None = Returned question ∧
  (Server.handleRequest Cases.server interaction w).1 = Returned tt ∧
  w_log (Server.handleRequest Cases.server interaction w).2 =
    [EGetRandomQuestion "DARE" [];
     EReply (Questions.questionReply question);
     ETrackCommandUse "dare" true].
Proof.
  intros interaction w question. split; [reflexivity|].
  destruct (question_commands_reply_once Cases.server Cases.store
              (Questions.dare Cases.store) "DARE" interaction w
              (or_introl (conj eq_refl eq_refl)) eq_refl eq_refl
              (or_introl eq_refl) eq_refl) as (Hreturned & _).
  rewrite (Hreturned question eq_refl). split; reflexivity.
Defined.

(** X24.  The answer flow when the guild of the next queued question cannot
    be fetched.  The answer has been relayed, the answered entry removed and
    the recipient told [Answer sent!]; then reading [guild.name] of the
    missing guild rejects.  Through the router the recipient gets the
    generic failure message as a second reply, the rejection is reported
    and the use is tracked as a failure, although the answer went through.
    Nothing is sent for the next question, which stays at the head of the
    recipient's queue as it was. *)
Theorem answer_without_next_guild_replies_twice (server : Server.t)
    (interaction : Server.Interaction) (w : World) (e next : ParanoiaEntry)
    (paranoiaAnswer : string) (message : Message)
    (editedMessage : option Message) :
  let ctx := Server.i_ctx interaction in
  let uid := u_id (ctx_user ctx) in
  let w' := (Server.handleRequest server interaction w).2 in
  let rejection :=
    TypeError "Cannot read properties of null (reading 'name')" in
  Server.i_type interaction = Server.ApplicationCommand →
  Server.i_data interaction = Server.CommandData Server.ChatInput →
  muted (ctx_channelSettings ctx) = false ∨
    ctx_command_name ctx ∈ Server.PASSTHROUGH_COMMANDS →
  List.find (λ c, bool_decide (Command.name c = ctx_command_name ctx))
    (Server.commands server) = Some Answer.answer →
  truthy (ctx_guildId ctx) = false →
  o_value <$> Answer.getOption "answer" ctx = Some (VString paranoiaAnswer) →
  Database.head uid (w_paranoia w) = Some e →
  Database.head uid (filter (λ x, p_id x ≠ p_id e) (w_paranoia w)) =
    Some next →
  (∀ log data,
     net_sendMessage (w_env w) log data (p_channelId e) =
       Returned (Some message)) →
  (∀ log,
     net_editMessage (w_env w) log (Answer.answeredEmbed e)
       (ctx_channelId ctx) (p_dmMessageId e) = Returned editedMessage) →
  (∀ log, net_fetchGuild (w_env w) log (p_guildId next) = None) →
  (Server.handleRequest server interaction w).1 = Returned tt ∧
  filter Trace.isReply (Trace.added w w') =
    [EReply Answer.answerSentReply; EReply Server.failureReply] ∧
  ESentryCapture (Server.extras server Answer.answer ctx) rejection
    ∈ Trace.added w w' ∧
  ETrackCommandUse "answer" false ∈ Trace.added w w' ∧
  (∀ data channelId,
     ESendMessage data channelId ∈ Trace.added w w' →
     channelId = p_channelId e ∧
     ∃ random, data = Answer.relayEmbed (ctx_user ctx) random e
                        paranoiaAnswer) ∧
  (∀ id messageId, ESetParanoiaMessageId id messageId ∉ Trace.added w w') ∧
  w_paranoia w' = filter (λ x, p_id x ≠ p_id e) (w_paranoia w) ∧
  Database.head uid (w_paranoia w') = Some next.
Proof.
  intros ctx uid w' rejection Htype Hdata Hgate Hfind Hdm Hanswer Hhead Hnext
    Hsend Hedit Hguild.
  subst w'.
  rewrite (dispatch_no_perms server Answer.answer interaction w Htype Hdata
             Hgate Hfind eq_refl).
  fold ctx. cbn [Command.run Command.name Answer.answer].
  unfold Answer.run. rewrite Hdm, Hanswer.
  unfold Answer.deliverNext.
  unfold bind, Database.getNextParanoia, Answer.Math_random,
    Functions.sendMessage, Functions.editMessage, Functions.fetchGuild,
    reply, throw, Database.removeParanoiaQuestion, Answer.console_warn, emit,
    ret.
  cbn [w_env w_log w_paranoia w_stats log_event set_paranoia set_stats].
  fold uid. rewrite Hhead, Hsend, Hedit.
  destruct editedMessage as [edited|];
    cbn [w_env w_log w_paranoia w_stats log_event set_paranoia set_stats];
    rewrite Hnext;
    cbn [w_env w_log w_paranoia w_stats log_event set_paranoia set_stats];
    rewrite Hguild;
    cbn [w_env w_log w_paranoia w_stats log_event set_paranoia set_stats fst
         snd].
  - erewrite (added_app _ _ [_; _; _; _; _; _; _; _; _; _; _; _]);
      [|cbn; rewrite <- ?app_assoc; reflexivity].
    split; [done|]. split; [reflexivity|].
    split; [by do 9 right; left|]. split; [by do 11 right; left|].
    split; [|split; [|done]].
    + intros data channelId Hin. event_in Hin. by eauto.
    + intros id messageId Hin. absent_event Hin.
  - erewrite (added_app _ _ [_; _; _; _; _; _; _; _; _; _; _; _; _]);
      [|cbn; rewrite <- ?app_assoc; reflexivity].
    split; [done|]. split; [reflexivity|].
    split; [by do 10 right; left|]. split; [by do 12 right; left|].
    split; [|split; [|done]].
    + intros data channelId Hin. event_in Hin. by eauto.
    + intros id messageId Hin. absent_event Hin.
Qed.

(** Two questions queued and no guild to be fetched: the recipient is told
    that the answer was sent, and then that something went wrong. *)
Lemma answer_without_next_guild_replies_twice_witness :
  let interaction := Sample.command Sample.answering in
  let w :=
    Sample.world ["answer"] [Sample.first; Sample.second] Cases.envNoGuild in
  Database.head "1001" (w_paranoia w) = Some Sample.first ∧
  Database.head "1001"
    (filter (λ x, p_id x ≠ p_id Sample.first) (w_paranoia w)) =
    Some Sample.second ∧
  filter Trace.isReply
    (Trace.added w (Server.handleRequest Sample.server interaction w).2) =
    [EReply Answer.answerSentReply; EReply Server.failureReply].
Proof.
  intros interaction w. split; [reflexivity|]. split; [reflexivity|].
  destruct (answer_without_next_guild_replies_twice Sample.server interaction
              w Sample.first Sample.second "Bob" {| msg_id := "9001" |}
              (Some {| msg_id := "9002" |})
              eq_refl eq_refl (or_introl eq_refl) eq_refl eq_refl eq_refl
              eq_refl eq_refl (λ _ _, eq_refl) (λ _, eq_refl)
              (λ _, eq_refl)) as (_ & Hreplies & _).
  exact Hreplies.
Defined.
